(** * jx upgrade boot: the upgrade-delta computation and replay engine

    A shallow embedding of [pkg/cmd/upgrade/upgrade_boot.go].

    The command is an orchestration layer over collaborators that live in
    other packages (the Git service [gits.Gitter], the requirements file
    loader of [config], the version resolver, the code-hosting provider,
    the cluster's dev environment, [os] and [ioutil]).  A collaborator is
    modelled as a deterministic oracle: its answer may depend on its
    arguments and on everything that happened before (the history of
    calls and their outcomes).  Every call is appended to that history
    together with its outcome, so that statements such as "no commit is
    made" or "checkout precedes delete" are statements about the history.

    Go errors are observed through [Error()], hence as strings;
    [errors.Wrap(err, msg)] yields [msg ++ ": " ++ err].  A Go function
    returning [error] (or a value and an [error]) is a computation in the
    state-and-error monad [M]; the state survives a failure, as the
    repository and the history do. *)

From Stdlib Require Import String Ascii List Bool Arith Lia.
Import ListNotations.
Local Open Scope list_scope.
Local Open Scope string_scope.

Set Implicit Arguments.

(** ** Errors *)

Definition error := string.

(** [errors.Wrap] / [errors.Wrapf] of github.com/pkg/errors, seen through
    [Error()]. *)
Definition Wrap (err : error) (message : string) : error :=
  message ++ ": " ++ err.

Inductive Res (A : Type) : Type :=
| Ok (a : A)
| Err (e : error).
Arguments Ok {A} a.
Arguments Err {A} e.

Definition errOf {A} (r : Res A) : option error :=
  match r with Ok _ => None | Err e => Some e end.

(** [strings.Contains s substr]. *)
Fixpoint Contains (s substr : string) : bool :=
  prefix substr s ||
  match s with
  | EmptyString => false
  | String _ s' => Contains s' substr
  end.

(** ** Data model *)

(** [config.VersionStreamConfig]. *)
Record VersionStreamConfig := mkVersionStream { URL : string; Ref : string }.

(** [config.RequirementsConfig]: the command reads and writes the
    [VersionStream] field only; the remaining fields are carried along. *)
Record RequirementsConfig := mkRequirements {
  VersionStream : VersionStreamConfig;
  OtherRequirements : string
}.

(** [gits.GitCommit] with its [Subject()] accessor. *)
Record GitCommit := mkCommit { SHA : string; Subject : string }.

(** [gits.GitRepository], as far as the command looks into it. *)
Record GitRepository := mkRepo { Organisation : string; Name : string }.

(** [gits.PullRequestDetails] and [gits.PullRequestFilter]. *)
Record PullRequestDetails := mkDetails {
  BranchName : string; Title : string; PRMessage : string
}.
Record PullRequestFilter := mkFilter { Labels : list string }.

(** The dev environment record: [Spec.TeamSettings.PipelineUsername],
    [Spec.TeamSettings.PipelineUserEmail], [Spec.Source.URL]. *)
Record Environment := mkEnvironment {
  PipelineUsername : string; PipelineUserEmail : string; SourceURL : string
}.

(** Opaque handles handed from one collaborator to the next. *)
Definition JXClient := string.
Definition AuthServer := string.
Definition UserAuth := string.
Definition VersionResolver := string.
Definition GitProvider := string.

(** [UpgradeBootOptions]. *)
Record UpgradeBootOptions := mkOptions {
  GitURL : string;
  VersionStreamURL : string;
  VersionStreamRef : string;
  Dir : string
}.

Definition withDir (o : UpgradeBootOptions) (dir : string) : UpgradeBootOptions :=
  {| GitURL := GitURL o; VersionStreamURL := VersionStreamURL o;
     VersionStreamRef := VersionStreamRef o; Dir := dir |}.

(** Constants of the packages [config] and [boot]. *)
Class Constants := {
  DefaultVersionsURL : string;
  DefaultVersionsRef : string;
  DefaultCloudBeesVersionsURL : string;
  DefaultCloudBeesVersionsRef : string;
  DefaultBootRepository : string;
  DefaultCloudBeesBootRepository : string;
  CloudBeesProfile : string;
  PullRequestLabel : string
}.

(** ** Calls on collaborators and their history *)

Inductive Call : Type :=
| JXClientAndDevNamespace
| GetDevEnvironment (jxClient : JXClient) (ns : string)
| SetUsername (dir username : string)
| SetEmail (dir email : string)
| TempDir
| MkdirAll (path : string)
| RemoveAll (path : string)
| CreatePipelineUserGitAuthConfigService
| CreateAuthenticatedURL (url : string) (userAuth : UserAuth)
| Clone (url dir : string)
| LoadRequirementsConfig (dir : string)
| FileExists (file : string)
| LoadActiveInstallProfile
| CloneJXVersionsRepo (url ref : string)
| GetCommitPointedToByTag (dir tag : string)
| NewV4
| CreateBranch (dir branch : string)
| Checkout (dir branch : string)
| SaveConfig (requirements : RequirementsConfig) (file : string)
| AddCommitFiles (dir message : string) (files : list string)
| CloneBare (dir url : string)
| CreateVersionResolver (url ref : string)
| ResolveGitVersion (resolver : VersionResolver) (url : string)
| FetchBranch (dir url ref : string)
| GetCommits (dir fromSha toSha : string)
| CherryPickTheirs (dir sha : string)
| CheckoutCommitFiles (dir commit : string) (files : list string)
| Info (dir : string)
| GitServerKind (gitInfo : GitRepository)
| CreateProviderForUser (gitInfo : GitRepository) (server : AuthServer)
    (userAuth : UserAuth) (gitKind : string)
| GetRepository (provider : GitProvider) (org name : string)
| PushRepoAndCreatePullRequest (dir : string) (upstream : GitRepository)
    (base : string) (details : PullRequestDetails) (filter : PullRequestFilter)
    (commitMessage : string) (provider : GitProvider) (labels : list string)
| DeleteLocalBranch (dir branch : string)
| Infof (message : string)
| Warnf (message : string).

(** One entry of the history: the call and how it ended ([None]: no
    error). *)
Record Entry := mkEntry { call : Call; outcome : option error }.

Definition History := list Entry.

(** The collaborators.  Each field answers one kind of call, given the
    history so far.  Where the Go function returns a value next to its
    error and the command uses that value although the error is not
    checked, the answer is the pair. *)
Record Collaborators := {
  o_JXClientAndDevNamespace : History -> (JXClient * string) * option error;
  kube_GetDevEnvironment : History -> JXClient -> string -> Res Environment;
  git_SetUsername : History -> string -> string -> option error;
  git_SetEmail : History -> string -> string -> option error;
  ioutil_TempDir : History -> string * option error;
  os_MkdirAll : History -> string -> option error;
  os_RemoveAll : History -> string -> option error;
  o_CreatePipelineUserGitAuthConfigService : History -> Res (AuthServer * UserAuth);
  git_CreateAuthenticatedURL : History -> string -> UserAuth -> Res string;
  git_Clone : History -> string -> string -> option error;
  config_LoadRequirementsConfig : History -> string -> Res (RequirementsConfig * string);
  util_FileExists : History -> string -> Res bool;
  config_LoadActiveInstallProfile : History -> string;
  o_CloneJXVersionsRepo : History -> string -> string -> Res string;
  git_GetCommitPointedToByTag : History -> string -> string -> string * option error;
  uuid_NewV4 : History -> Res string;
  git_CreateBranch : History -> string -> string -> option error;
  git_Checkout : History -> string -> string -> option error;
  requirements_SaveConfig : History -> RequirementsConfig -> string -> option error;
  git_AddCommitFiles : History -> string -> string -> list string -> option error;
  git_CloneBare : History -> string -> string -> option error;
  o_CreateVersionResolver : History -> string -> string -> Res VersionResolver;
  resolver_ResolveGitVersion : History -> VersionResolver -> string -> Res string;
  git_FetchBranch : History -> string -> string -> string -> option error;
  git_GetCommits : History -> string -> string -> string -> Res (list GitCommit);
  git_CherryPickTheirs : History -> string -> string -> option error;
  git_CheckoutCommitFiles : History -> string -> string -> list string -> option error;
  git_Info : History -> string -> Res GitRepository;
  o_GitServerKind : History -> GitRepository -> Res string;
  gitInfo_CreateProviderForUser :
    History -> GitRepository -> AuthServer -> UserAuth -> string -> Res GitProvider;
  provider_GetRepository : History -> GitProvider -> string -> string -> Res GitRepository;
  gits_PushRepoAndCreatePullRequest :
    History -> string -> GitRepository -> string -> PullRequestDetails ->
    PullRequestFilter -> string -> GitProvider -> list string -> option error;
  git_DeleteLocalBranch : History -> string -> string -> option error
}.

(** ** The state-and-error monad *)

(** What a run can change: the receiver's fields ([cloneDevEnv] assigns
    [o.Dir]) and the history. *)
Record State := mkState { opts : UpgradeBootOptions; log : History }.

Definition M (A : Type) : Type := State -> Res A * State.

Definition ret {A} (a : A) : M A := fun s => (Ok a, s).

Definition bind {A B} (m : M A) (k : A -> M B) : M B :=
  fun s => match m s with
           | (Ok a, s') => k a s'
           | (Err e, s') => (Err e, s')
           end.

Notation "x <- m ;; k" := (bind m (fun x => k))
  (at level 61, m at next level, right associativity).
Notation "' pat <- m ;; k" := (bind m (fun x => match x with pat => k end))
  (at level 61, pat pattern, m at next level, right associativity).
Notation "m ;; k" := (bind m (fun _ => k))
  (at level 61, right associativity).

(** [return err] with a plain error. *)
Definition fail {A} (e : error) : M A := fun s => (Err e, s).

(** [if err != nil { return errors.Wrap(err, message) }] around a step. *)
Definition wrap {A} (message : string) (m : M A) : M A :=
  fun s => match m s with
           | (Err e, s') => (Err (Wrap e message), s')
           | r => r
           end.

(** [defer cleanup()]: the cleanup runs when the body returns, on every
    path, and does not change what the body returns. *)
Definition defer {A} (cleanup : M unit) (body : M A) : M A :=
  fun s => let (r, s1) := body s in (r, snd (cleanup s1)).

Definition note (c : Call) (out : option error) (s : State) : State :=
  {| opts := opts s; log := (log s ++ [mkEntry c out])%list |}.

(** A call whose only result is its error. *)
Definition callE (c : Call) (answer : History -> option error) : M unit :=
  fun s => let a := answer (log s) in
           (match a with None => Ok tt | Some e => Err e end, note c a s).

(** A call whose error the caller inspects itself. *)
Definition callO (c : Call) (answer : History -> option error) : M (option error) :=
  fun s => let a := answer (log s) in (Ok a, note c a s).

(** A call with a result or an error. *)
Definition callR {A} (c : Call) (answer : History -> Res A) : M A :=
  fun s => let a := answer (log s) in (a, note c (errOf a) s).

(** A call whose value is used whatever its error. *)
Definition callV {A} (c : Call) (answer : History -> A * option error)
  : M (A * option error) :=
  fun s => let a := answer (log s) in (Ok a, note c (snd a) s).

(** A call that cannot fail. *)
Definition callT {A} (c : Call) (answer : History -> A) : M A :=
  fun s => (Ok (answer (log s)), note c None s).

(** [log.Logger().Infof] and [Warnf]; [util.ColorInfo] only colours. *)
Definition logInfof (message : string) : M unit := callT (Infof message) (fun _ => tt).
Definition logWarnf (message : string) : M unit := callT (Warnf message) (fun _ => tt).

Definition getDir : M string := fun s => (Ok (Dir (opts s)), s).
Definition getOptions : M UpgradeBootOptions := fun s => (Ok (opts s), s).
Definition setDir (dir : string) : M unit :=
  fun s => (Ok tt, {| opts := withDir (opts s) dir; log := log s |}).

(** ** The command *)

Section Command.

Context {K : Constants} (env : Collaborators).

Definition loadRequirementsConfig : M (RequirementsConfig * string) :=
  dir <- getDir ;;
  '(requirements, requirementsFile) <-
    wrap ("failed to load requirements config from " ++ dir)
      (callR (LoadRequirementsConfig dir)
             (fun h => config_LoadRequirementsConfig env h dir)) ;;
  exists_ <-
    wrap ("failed to check if file " ++ requirementsFile ++ " exists")
      (callR (FileExists requirementsFile)
             (fun h => util_FileExists env h requirementsFile)) ;;
  if negb exists_ then
    fail ("no requirements file " ++ requirementsFile ++
          " ensure you are running this command inside a GitOps clone")
  else ret (requirements, requirementsFile).

Definition defaultVersionStreamConfig : M VersionStreamConfig :=
  profile <- callT LoadActiveInstallProfile (config_LoadActiveInstallProfile env) ;;
  if profile =? CloudBeesProfile then
    ret {| URL := DefaultVersionsURL; Ref := DefaultCloudBeesVersionsRef |}
  else
    ret {| URL := DefaultVersionsURL; Ref := DefaultVersionsRef |}.

(** The default for one install profile. *)
Definition defaultFor (profile : string) : VersionStreamConfig :=
  {| URL := DefaultVersionsURL;
     Ref := if profile =? CloudBeesProfile
            then DefaultCloudBeesVersionsRef else DefaultVersionsRef |}.

Definition optionsVersionStream (o : UpgradeBootOptions) : VersionStreamConfig :=
  {| URL := VersionStreamURL o; Ref := VersionStreamRef o |}.

Definition incompleteWarning (v : VersionStreamConfig) : string :=
  "Incomplete version stream reference " ++ URL v ++ " @ " ++ Ref v.

Definition determineVersionStreamConfig : M VersionStreamConfig :=
  o <- getOptions ;;
  versionStreamConfig <-
    (if (VersionStreamURL o =? "") && (VersionStreamRef o =? "") then
       '(requirements, _) <-
         wrap "failed to load requirements config" loadRequirementsConfig ;;
       ret (VersionStream requirements)
     else
       ret (optionsVersionStream o)) ;;
  if (URL versionStreamConfig =? "") || (Ref versionStreamConfig =? "") then
    logWarnf (incompleteWarning versionStreamConfig) ;;
    defaultVersionStreamConfig
  else ret versionStreamConfig.

(** The reference [determineVersionStreamConfig] selects before it looks
    at its completeness: the one of the requirements file if neither
    option is given, else the one made of the options. *)
Definition selects (s : State) (sel : VersionStreamConfig) : Prop :=
  if (VersionStreamURL (opts s) =? "") && (VersionStreamRef (opts s) =? "") then
    exists requirements file s1,
      loadRequirementsConfig s = (Ok (requirements, file), s1) /\
      sel = VersionStream requirements
  else sel = optionsVersionStream (opts s).

Definition determineBootConfigURL (versionStreamURL : string) : M string :=
  o <- getOptions ;;
  if GitURL o =? "" then
    let bootConfigURL := "" in
    let bootConfigURL :=
      if versionStreamURL =? DefaultVersionsURL
      then DefaultBootRepository else bootConfigURL in
    let bootConfigURL :=
      if versionStreamURL =? DefaultCloudBeesVersionsURL
      then DefaultCloudBeesBootRepository else bootConfigURL in
    if bootConfigURL =? "" then
      fail "unable to determine default boot config URL"
    else
      logInfof ("using default boot config " ++ bootConfigURL) ;;
      ret bootConfigURL
  else ret (GitURL o).

Definition upgradeAvailable (versionStreamURL versionStreamRef upgradeRef : string)
  : M string :=
  versionsDir <-
    wrap ("failed to clone versions repo " ++ versionStreamURL)
      (callR (CloneJXVersionsRepo versionStreamURL upgradeRef)
             (fun h => o_CloneJXVersionsRepo env h versionStreamURL upgradeRef)) ;;
  '(upgradeVersionSha, err) <-
    callV (GetCommitPointedToByTag versionsDir upgradeRef)
          (fun h => git_GetCommitPointedToByTag env h versionsDir upgradeRef) ;;
  match err with
  | Some e => fail (Wrap e ("failed to get commit pointed to by " ++ upgradeRef))
  | None =>
      if versionStreamRef =? upgradeVersionSha then
        logInfof "No upgrade available" ;;
        ret ""
      else
        logInfof "Upgrade available" ;;
        ret upgradeVersionSha
  end.

Definition checkoutNewBranch : M string :=
  localBranch <-
    wrap "creating UUID for local branch" (callR NewV4 (uuid_NewV4 env)) ;;
  dir <- getDir ;;
  wrap ("failed to create local branch " ++ localBranch)
    (callE (CreateBranch dir localBranch)
           (fun h => git_CreateBranch env h dir localBranch)) ;;
  wrap ("failed to checkout local branch " ++ localBranch)
    (callE (Checkout dir localBranch)
           (fun h => git_Checkout env h dir localBranch)) ;;
  ret localBranch.

Definition setVersionStreamRef (requirements : RequirementsConfig) (ref : string)
  : RequirementsConfig :=
  {| VersionStream := {| URL := URL (VersionStream requirements); Ref := ref |};
     OtherRequirements := OtherRequirements requirements |}.

Definition updateVersionStreamRef (upgradeRef : string) : M unit :=
  '(requirements, requirementsFile) <-
    wrap "failed to load requirements config" loadRequirementsConfig ;;
  if negb (Ref (VersionStream requirements) =? upgradeRef) then
    logInfof ("Upgrading version stream ref to " ++ upgradeRef) ;;
    let requirements := setVersionStreamRef requirements upgradeRef in
    wrap ("failed to write version stream to " ++ requirementsFile)
      (callE (SaveConfig requirements requirementsFile)
             (fun h => requirements_SaveConfig env h requirements requirementsFile)) ;;
    dir <- getDir ;;
    wrap ("failed to commit requirements file " ++ requirementsFile)
      (callE (AddCommitFiles dir "feat: upgrade version stream" [requirementsFile])
             (fun h => git_AddCommitFiles env h dir "feat: upgrade version stream"
                         [requirementsFile]))
  else ret tt.

Definition bootConfigRef (dir versionStreamURL versionStreamRef configURL : string)
  : M (string * string) :=
  resolver <-
    wrap ("failed to create version resolver " ++ configURL)
      (callR (CreateVersionResolver versionStreamURL versionStreamRef)
             (fun h => o_CreateVersionResolver env h versionStreamURL versionStreamRef)) ;;
  configVersion <-
    wrap ("failed to resolve config url " ++ configURL)
      (callR (ResolveGitVersion resolver configURL)
             (fun h => resolver_ResolveGitVersion env h resolver configURL)) ;;
  let tag := "v" ++ configVersion in
  '(cmtSha, err) <-
    callV (GetCommitPointedToByTag dir tag)
          (fun h => git_GetCommitPointedToByTag env h dir tag) ;;
  match err with
  | Some e => fail (Wrap e ("failed to get commit pointed to by " ++ cmtSha))
  | None => ret (cmtSha, configVersion)
  end.

Definition cloneBootConfig (configURL : string) : M string :=
  '(cloneDir, _) <- callV TempDir (ioutil_TempDir env) ;;
  wrap ("failed to create directory: " ++ cloneDir)
    (callE (MkdirAll cloneDir) (fun h => os_MkdirAll env h cloneDir)) ;;
  wrap ("failed to clone git URL " ++ configURL ++ " to directory " ++ cloneDir)
    (callE (CloneBare cloneDir configURL)
           (fun h => git_CloneBare env h cloneDir configURL)) ;;
  ret cloneDir.

(** The message by which [cherryPickCommits] recognises the failure of
    cherry-picking a merge commit. *)
Definition mergeMsg (commitSha : string) : string :=
  "commit " ++ commitSha ++ " is a merge but no -m option was given.".

(** The loop [for i := len(cmts) - 1; i >= 0; i--] of [cherryPickCommits],
    entered with [n = i + 1].  [cmts[i]] out of range panics in Go; the
    loop never gets there, since it starts below [len(cmts)]. *)
Fixpoint cherryPickFrom (cmts : list GitCommit) (n : nat) : M unit :=
  match n with
  | O => ret tt
  | S i =>
      match nth_error cmts i with
      | None => fail "panic: runtime error: index out of range"
      | Some cmt =>
          let commitSha := SHA cmt in
          let commitMsg := Subject cmt in
          dir <- getDir ;;
          err <- callO (CherryPickTheirs dir commitSha)
                       (fun h => git_CherryPickTheirs env h dir commitSha) ;;
          match err with
          | Some e =>
              if negb (Contains e (mergeMsg commitSha)) then
                fail (Wrap e ("cherry-picking " ++ commitSha))
              else ret tt
          | None => logInfof (commitSha ++ " - " ++ commitMsg)
          end ;;
          cherryPickFrom cmts i
      end
  end.

Definition cherryPickCommits (cloneDir fromSha toSha : string) : M unit :=
  cmts <-
    wrap ("failed to get commits from " ++ cloneDir)
      (callR (GetCommits cloneDir fromSha toSha)
             (fun h => git_GetCommits env h cloneDir fromSha toSha)) ;;
  logInfof ("cherry picking commits in the range " ++ fromSha ++ ".." ++ toSha) ;;
  cherryPickFrom cmts (length cmts).

Definition excludeFiles (commit : string) : M unit :=
  let excludedFiles := ["OWNERS"] in
  dir <- getDir ;;
  wrap "failed to checkout files"
    (callE (CheckoutCommitFiles dir commit excludedFiles)
           (fun h => git_CheckoutCommitFiles env h dir commit excludedFiles)) ;;
  err <- callO (AddCommitFiles dir "chore: exclude files from upgrade" excludedFiles)
               (fun h => git_AddCommitFiles env h dir
                           "chore: exclude files from upgrade" excludedFiles) ;;
  match err with
  | Some e =>
      if negb (Contains e "nothing to commit") then
        fail (Wrap e "failed to commit excluded files [OWNERS]")
      else ret tt
  | None => ret tt
  end.

(** The function deferred by [updateBootConfig]. *)
Definition removeTmpDir (configCloneDir : string) : M unit :=
  err <- callO (RemoveAll configCloneDir)
               (fun h => os_RemoveAll env h configCloneDir) ;;
  match err with
  | Some e => logInfof ("Error removing tmpDir: " ++ e)
  | None => ret tt
  end.

Definition updateBootConfig
  (versionStreamURL versionStreamRef bootConfigURL upgradeVersionSha : string)
  : M unit :=
  configCloneDir <-
    wrap ("failed to clone boot config repo " ++ bootConfigURL)
      (cloneBootConfig bootConfigURL) ;;
  defer (removeTmpDir configCloneDir)
    ('(currentSha, currentVersion) <-
       wrap ("failed to get boot config ref for version stream: " ++ versionStreamRef)
         (bootConfigRef configCloneDir versionStreamURL versionStreamRef bootConfigURL) ;;
     '(upgradeSha, upgradeVersion) <-
       wrap ("failed to get boot config ref for version stream ref: "
             ++ upgradeVersionSha)
         (bootConfigRef configCloneDir versionStreamURL upgradeVersionSha bootConfigURL) ;;
     if upgradeSha =? currentSha then
       logInfof "No boot config upgrade available" ;;
       ret tt
     else
       logInfof "boot config upgrade available" ;;
       logInfof ("Upgrading from v" ++ currentVersion ++ " to v" ++ upgradeVersion) ;;
       dir <- getDir ;;
       wrap ("failed to fetch master of " ++ bootConfigURL)
         (callE (FetchBranch dir bootConfigURL "master")
                (fun h => git_FetchBranch env h dir bootConfigURL "master")) ;;
       wrap "failed to cherry pick upgrade commits"
         (cherryPickCommits configCloneDir currentSha upgradeSha) ;;
       wrap "failed to exclude files from commit" (excludeFiles currentSha) ;;
       ret tt).

Definition setupGitConfig (dir : string) : M unit :=
  '((jxClient, devNs), _) <-
    callV JXClientAndDevNamespace (o_JXClientAndDevNamespace env) ;;
  devEnv <-
    wrap ("failed to get dev environment in namespace " ++ devNs)
      (callR (GetDevEnvironment jxClient devNs)
             (fun h => kube_GetDevEnvironment env h jxClient devNs)) ;;
  let username := PipelineUsername devEnv in
  let email := PipelineUserEmail devEnv in
  wrap ("failed to set username " ++ username)
    (callE (SetUsername dir username) (fun h => git_SetUsername env h dir username)) ;;
  wrap ("failed to set email for " ++ email)
    (callE (SetEmail dir email) (fun h => git_SetEmail env h dir email)).

Definition pipelineUserAuth : M (AuthServer * UserAuth) :=
  wrap "failed to create pipeline user git auth config service"
    (callR CreatePipelineUserGitAuthConfigService
           (o_CreatePipelineUserGitAuthConfigService env)).

Definition gitProvider (gitInfo : GitRepository) : M GitProvider :=
  '(server, userAuth) <- wrap "failed to get pipeline user auth" pipelineUserAuth ;;
  gitKind <-
    wrap "failed to get git kind"
      (callR (GitServerKind gitInfo) (fun h => o_GitServerKind env h gitInfo)) ;;
  wrap "failed to create provider for user"
    (callR (CreateProviderForUser gitInfo server userAuth gitKind)
           (fun h => gitInfo_CreateProviderForUser env h gitInfo server userAuth gitKind)).

Definition upgradeDetails : PullRequestDetails :=
  {| BranchName := "jx_boot_upgrade";
     Title := "feat(config): upgrade configuration";
     PRMessage := "Upgrade configuration" |}.

Definition raisePR : M unit :=
  dir <- getDir ;;
  gitInfo <- wrap "failed to get git info"
               (callR (Info dir) (fun h => git_Info env h dir)) ;;
  provider <- wrap "failed to get git provider" (gitProvider gitInfo) ;;
  upstreamInfo <-
    wrap ("getting repository " ++ Organisation gitInfo ++ "/" ++ Name gitInfo)
      (callR (GetRepository provider (Organisation gitInfo) (Name gitInfo))
             (fun h => provider_GetRepository env h provider
                         (Organisation gitInfo) (Name gitInfo))) ;;
  let details := upgradeDetails in
  let filter := {| Labels := [PullRequestLabel] |} in
  dir <- getDir ;;
  wrap ("failed to create PR for base master and head branch " ++ BranchName details)
    (callE (PushRepoAndCreatePullRequest dir upstreamInfo "master" details filter
              (Title details) provider [PullRequestLabel])
           (fun h => gits_PushRepoAndCreatePullRequest env h dir upstreamInfo "master"
                       details filter (Title details) provider [PullRequestLabel])).

Definition deleteLocalBranch (branch : string) : M unit :=
  dir <- getDir ;;
  wrap "failed to checkout master branch"
    (callE (Checkout dir "master") (fun h => git_Checkout env h dir "master")) ;;
  wrap ("failed to delete local branch " ++ branch)
    (callE (DeleteLocalBranch dir branch)
           (fun h => git_DeleteLocalBranch env h dir branch)).

Definition cloneDevEnv : M unit :=
  '((jxClient, devNs), _) <-
    callV JXClientAndDevNamespace (o_JXClientAndDevNamespace env) ;;
  devEnv <-
    wrap ("failed to get dev environment in namespace " ++ devNs)
      (callR (GetDevEnvironment jxClient devNs)
             (fun h => kube_GetDevEnvironment env h jxClient devNs)) ;;
  let devEnvURL := SourceURL devEnv in
  '(cloneDir, err) <- callV TempDir (ioutil_TempDir env) ;;
  match err with
  | Some e => fail (Wrap e "failed to create tmp dir to clone dev env repo")
  | None =>
      wrap "failed to give write perms to tmp dir to clone dev env repo"
        (callE (MkdirAll cloneDir) (fun h => os_MkdirAll env h cloneDir)) ;;
      '(_, userAuth) <- wrap "failed to get pipeline user auth" pipelineUserAuth ;;
      cloneURL <-
        wrap ("failed to create directory for dev env clone: " ++ cloneDir)
          (callR (CreateAuthenticatedURL devEnvURL userAuth)
                 (fun h => git_CreateAuthenticatedURL env h devEnvURL userAuth)) ;;
      wrap ("failed to clone git URL " ++ devEnvURL ++ " to directory " ++ cloneDir)
        (callE (Clone cloneURL cloneDir) (fun h => git_Clone env h cloneURL cloneDir)) ;;
      setDir cloneDir
  end.

Definition Run : M unit :=
  dir <- getDir ;;
  wrap "failed to setup git config" (setupGitConfig dir) ;;
  dir <- getDir ;;
  (if dir =? "" then wrap "failed to clone dev environment repo" cloneDevEnv
   else ret tt) ;;
  reqsVersionStream <-
    wrap "failed to get requirements version stream" determineVersionStreamConfig ;;
  upgradeVersionSha <-
    wrap "failed to get check for available update"
      (upgradeAvailable (URL reqsVersionStream) (Ref reqsVersionStream) "master") ;;
  if upgradeVersionSha =? "" then ret tt
  else
    localBranch <- wrap "failed to checkout upgrade_branch" checkoutNewBranch ;;
    bootConfigURL <-
      wrap "failed to determine boot configuration URL"
        (determineBootConfigURL (URL reqsVersionStream)) ;;
    wrap "failed to update boot configuration"
      (updateBootConfig (URL reqsVersionStream) (Ref reqsVersionStream)
         bootConfigURL upgradeVersionSha) ;;
    wrap "failed to update version stream ref" (updateVersionStreamRef upgradeVersionSha) ;;
    wrap "failed to raise pr" raisePR ;;
    wrap ("failed to delete local branch " ++ localBranch)
      (deleteLocalBranch localBranch).

End Command.

(** ** Observations on a history *)

(** The commits handed to [CherryPickTheirs], in the order of the calls. *)
Fixpoint picks (h : History) : list string :=
  match h with
  | [] => []
  | e :: h' =>
      match call e with
      | CherryPickTheirs _ sha => sha :: picks h'
      | _ => picks h'
      end
  end.

(** A cherry-pick that failed with anything but the merge-commit message
    of its own commit. *)
Definition fatalPick (e : Entry) : bool :=
  match call e, outcome e with
  | CherryPickTheirs _ sha, Some err => negb (Contains err (mergeMsg sha))
  | _, _ => false
  end.

(** A cherry-pick that failed with the merge-commit message: a skipped
    commit. *)
Definition skippedPick (e : Entry) : bool :=
  match call e, outcome e with
  | CherryPickTheirs _ sha, Some err => Contains err (mergeMsg sha)
  | _, _ => false
  end.

Definition isDeleteLocalBranch (e : Entry) : bool :=
  match call e with DeleteLocalBranch _ _ => true | _ => false end.

(** The pull request has been raised: the push-and-create call returned
    no error. *)
Definition prRaised (e : Entry) : bool :=
  match call e, outcome e with
  | PushRepoAndCreatePullRequest _ _ _ _ _ _ _ _, None => true
  | _, _ => false
  end.

(** A commit attempt that created a commit. *)
Definition commitMade (e : Entry) : bool :=
  match call e, outcome e with
  | AddCommitFiles _ _ _, None => true
  | CherryPickTheirs _ _, None => true
  | _, _ => false
  end.

(** Calls that leave the GitOps clone's branches, history and files, the
    requirements file and the code-hosting provider as they are: cluster
    and identity lookups, temporary clones, reads and log lines. *)
Definition quiet (e : Entry) : bool :=
  match call e with
  | CreateBranch _ _ | Checkout _ _ | SaveConfig _ _ | AddCommitFiles _ _ _
  | FetchBranch _ _ _ | CherryPickTheirs _ _ | CheckoutCommitFiles _ _ _
  | PushRepoAndCreatePullRequest _ _ _ _ _ _ _ _ | DeleteLocalBranch _ _ => false
  | _ => true
  end.

(** Neither the deletion of a branch nor a raised pull request. *)
Definition beforeCleanup (e : Entry) : bool :=
  negb (isDeleteLocalBranch e) && negb (prRaised e).

(** Not part of a replay: no history query, fetch, cherry-pick or
    restoration of protected files. *)
Definition noReplay (e : Entry) : bool :=
  match call e with
  | FetchBranch _ _ _ | GetCommits _ _ _ | CherryPickTheirs _ _
  | CheckoutCommitFiles _ _ _ => false
  | _ => true
  end.

(** A look at the requirements file. *)
Definition consultsRequirements (e : Entry) : bool :=
  match call e with
  | LoadRequirementsConfig _ | FileExists _ => true
  | _ => false
  end.

(** Neither a write of the requirements file nor a commit attempt. *)
Definition noSaveNoCommit (e : Entry) : bool :=
  match call e with
  | SaveConfig _ _ | AddCommitFiles _ _ _ | CherryPickTheirs _ _ => false
  | _ => true
  end.

(** A step of the replay loop: a cherry-pick or its log line. *)
Definition replayStep (e : Entry) : bool :=
  match call e with
  | CherryPickTheirs _ _ | Infof _ => true
  | _ => false
  end.

(** [replayed dir shas r new]: the replay of the commits [shas], given
    oldest first, in [dir] ended with [r] and appended [new].  Either it
    went through, every commit was attempted in order and no attempt
    failed fatally; or the last thing it did was an attempt that failed
    fatally, whose error it returns wrapped, after attempting the commits
    before that one in order. *)
Definition replayed (dir : string) (shas : list string) (r : Res unit) (new : History)
  : Prop :=
  forallb replayStep new = true /\
  match r with
  | Ok _ => picks new = shas /\ existsb fatalPick new = false
  | Err err =>
      exists before sha e k,
        new = (before ++ [mkEntry (CherryPickTheirs dir sha) (Some e)])%list /\
        Contains e (mergeMsg sha) = false /\
        err = Wrap e ("cherry-picking " ++ sha) /\
        existsb fatalPick before = false /\
        picks new = firstn k shas
  end.

(** How the cleanup of the working branch [branch] looks in a history:
    the checkout of [master] failed and that was all, or it succeeded and
    the deletion of the branch followed. *)
Definition cleanupTail (branch : string) (tail : History) : Prop :=
  exists dir,
    (exists e, tail = [mkEntry (Checkout dir "master") (Some e)]) \/
    (exists out, tail = [mkEntry (Checkout dir "master") None;
                         mkEntry (DeleteLocalBranch dir branch) out]).

(** How the end of a run that created the working branch [branch] looks
    in a history: either no pull request was raised and no branch
    deleted; or the pull request was raised and the cleanup of [branch]
    was all that followed. *)
Definition cleanupAfter (branch : string) (new : History) : Prop :=
  forallb beforeCleanup new = true \/
  exists pre push tail,
    new = (pre ++ push :: tail)%list /\
    forallb beforeCleanup pre = true /\
    prRaised push = true /\
    cleanupTail branch tail.

(** How a run looks in a history: either no pull request was raised and
    no branch deleted; or a working branch was created, later the pull
    request was raised, and the cleanup of that branch was all that
    followed. *)
Definition cleanupShape (new : History) : Prop :=
  forallb beforeCleanup new = true \/
  exists pre push tail branch,
    new = (pre ++ push :: tail)%list /\
    forallb beforeCleanup pre = true /\
    (exists dir, In (mkEntry (CreateBranch dir branch) None) pre) /\
    prRaised push = true /\
    cleanupTail branch tail.

(** [raisePR] ends with the call that pushes and creates the pull
    request, if it gets that far. *)
Definition raisedLast (r : Res unit) (new : History) : Prop :=
  match r with
  | Ok _ => exists pre push,
      new = (pre ++ [push])%list /\ forallb beforeCleanup pre = true /\
      prRaised push = true
  | Err _ => forallb beforeCleanup new = true
  end.

(** [checkoutNewBranch] returns the branch it created. *)
Definition createdBranch (r : Res string) (new : History) : Prop :=
  forallb beforeCleanup new = true /\
  match r with
  | Ok branch => exists dir, In (mkEntry (CreateBranch dir branch) None) new
  | Err _ => True
  end.

(** What a computation appends to the history. *)
Definition appended {A} (m : M A) (s : State) : History :=
  skipn (length (log s)) (log (snd (m s))).

(** [endsIn env s r s']: the run from [s] returns [r] in the state [s'],
    and has deleted no branch. *)
Definition endsIn {K : Constants} (env : Collaborators) (s : State) (r : Res unit)
  (s' : State) : Prop :=
  Run env s = (r, s') /\
  existsb isDeleteLocalBranch (appended (Run env) s) = false.

(** [emits m Q]: whatever the state, [m] only appends to the history,
    and what it returns and what it appends satisfy [Q]. *)
Definition emits {A} (m : M A) (Q : Res A -> History -> Prop) : Prop :=
  forall s, exists new,
    log (snd (m s)) = (log s ++ new)%list /\ Q (fst (m s)) new.

(** [grows P m]: whatever the state and the outcome, [m] only appends to
    the history, and only entries that satisfy [P]. *)
Definition grows {A} (P : Entry -> bool) (m : M A) : Prop :=
  forall s, exists new,
    log (snd (m s)) = (log s ++ new)%list /\ forallb P new = true.

(** Further observations, for the properties beyond the claims. *)

Definition isRemoveAll (e : Entry) : bool :=
  match call e with RemoveAll _ => true | _ => false end.

(** An attempt to push and to create the pull request, whatever came of
    it. *)
Definition isPullRequestCall (e : Entry) : bool :=
  match call e with
  | PushRepoAndCreatePullRequest _ _ _ _ _ _ _ _ => true
  | _ => false
  end.

(** The configuration of the Git identity, as far as it is done in the
    empty directory. *)
Definition identityInNoDir (e : Entry) : bool :=
  match call e with
  | SetUsername dir _ | SetEmail dir _ => dir =? ""
  | _ => true
  end.

(** The master branch of the boot config has been fetched. *)
Definition fetchedMaster (e : Entry) : bool :=
  match call e, outcome e with
  | FetchBranch _ _ ref, None => ref =? "master"
  | _, _ => false
  end.

Definition noRemoveAll (e : Entry) : bool := negb (isRemoveAll e).

Definition noPullRequestCall (e : Entry) : bool := negb (isPullRequestCall e).

(** A pull request as this command asks for it: against [master], from
    the branch name [jx_boot_upgrade], titled as an upgrade of the
    configuration, the title being the commit message as well. *)
Definition upgradePullRequest (e : Entry) : bool :=
  match call e with
  | PushRepoAndCreatePullRequest _ _ base details _ commitMessage _ _ =>
      (base =? "master") && (BranchName details =? "jx_boot_upgrade") &&
      (Title details =? "feat(config): upgrade configuration") &&
      (commitMessage =? Title details)
  | _ => true
  end.

(** The work of a replay: the history query, a cherry-pick, the
    restoration of the protected files. *)
Definition isReplayWork (e : Entry) : bool :=
  match call e with
  | GetCommits _ _ _ | CherryPickTheirs _ _ | CheckoutCommitFiles _ _ _ => true
  | _ => false
  end.

Definition notReplayWork (e : Entry) : bool := negb (isReplayWork e).

Definition anyEntry (e : Entry) : bool := true.

(** Either no replay work, or a successful fetch of master before any. *)
Definition fetchFirst (new : History) : Prop :=
  forallb notReplayWork new = true \/
  exists pre x rest,
    new = (pre ++ x :: rest)%list /\
    forallb notReplayWork pre = true /\ fetchedMaster x = true.

Definition noCreateBranch (e : Entry) : bool :=
  match call e with CreateBranch _ _ => false | _ => true end.

(** The end of a run that went through after it created the working
    branch [branch]: the checkout of master and the deletion of the
    branch, both without error. *)
Definition cleanedUp (branch : string) (r : Res unit) (new : History) : Prop :=
  match r with
  | Ok _ =>
      exists before dir,
        new = (before ++ [mkEntry (Checkout dir "master") None;
                          mkEntry (DeleteLocalBranch dir branch) None])%list
  | Err _ => True
  end.

(** A run that went through: either it created no branch at all, or it
    ended with the deletion of the branch it had created. *)
Definition endsClean (r : Res unit) (new : History) : Prop :=
  match r with
  | Ok _ =>
      forallb noCreateBranch new = true \/
      exists before dir dir' branch,
        new = (before ++ [mkEntry (Checkout dir "master") None;
                          mkEntry (DeleteLocalBranch dir branch) None])%list /\
        In (mkEntry (CreateBranch dir' branch) None) before
  | Err _ => True
  end.

Definition isAddCommitFiles (e : Entry) : bool :=
  match call e with AddCommitFiles _ _ _ => true | _ => false end.

(** [keeps R m]: the options after [m] are related by [R] to those
    before, whatever the state and the outcome. *)
Definition keeps {A} (R : UpgradeBootOptions -> UpgradeBootOptions -> Prop) (m : M A)
  : Prop :=
  forall s, R (opts s) (opts (snd (m s))).

(** The options as given on the command line, but for the directory. *)
Definition sameFlags (o o' : UpgradeBootOptions) : Prop :=
  GitURL o' = GitURL o /\
  VersionStreamURL o' = VersionStreamURL o /\
  VersionStreamRef o' = VersionStreamRef o.

(** [yields m Q]: what [m] returns satisfies [Q], whatever the state. *)
Definition yields {A} (m : M A) (Q : Res A -> Prop) : Prop :=
  forall s, Q (fst (m s)).

(** An error wrapped with one of the messages by which [Run] names its
    steps. *)
Definition namesStep (r : Res unit) : Prop :=
  match r with
  | Ok _ => True
  | Err err =>
      exists e message,
        err = Wrap e message /\
        (In message
           ["failed to setup git config";
            "failed to clone dev environment repo";
            "failed to get requirements version stream";
            "failed to get check for available update";
            "failed to checkout upgrade_branch";
            "failed to determine boot configuration URL";
            "failed to update boot configuration";
            "failed to update version stream ref";
            "failed to raise pr"] \/
         exists branch, message = "failed to delete local branch " ++ branch)
  end.

(** ** A concrete world

    A small in-memory stand-in for the collaborators, in the manner of
    [gits.NewGitFake]: fixed answers taken from a scenario; the
    requirements file that is loaded is the one saved last. *)

(** The constants for the concrete runs: [DefaultVersionsURL] and
    [DefaultBootRepository] as the tests of the command expect them, the
    others chosen alike. *)
Definition sampleConstants : Constants := {|
  DefaultVersionsURL := "https://github.com/jenkins-x/jenkins-x-versions.git";
  DefaultVersionsRef := "master";
  DefaultCloudBeesVersionsURL :=
    "https://github.com/cloudbees/cloudbees-jenkins-x-versions.git";
  DefaultCloudBeesVersionsRef := "master";
  DefaultBootRepository := "https://github.com/jenkins-x/jenkins-x-boot-config.git";
  DefaultCloudBeesBootRepository :=
    "https://github.com/cloudbees/cloudbees-jenkins-x-boot-config.git";
  CloudBeesProfile := "cloudbees";
  PullRequestLabel := "jx/boot"
|}.

Fixpoint lookup {A} (key : string) (table : list (string * A)) : option A :=
  match table with
  | [] => None
  | (k, v) :: rest => if k =? key then Some v else lookup key rest
  end.

Record Scenario := mkScenario {
  scRequirements : RequirementsConfig;        (* jx-requirements.yml at the start *)
  scTags : list (string * string);            (* reference -> commit *)
  scVersions : list (string * string);        (* version stream ref -> boot config version *)
  scCommits : list GitCommit;                 (* history range, newest first *)
  scPickErrors : list (string * error);       (* commit -> cherry-pick failure *)
  scCommitErrors : list (string * error)      (* commit message -> commit failure *)
}.

Fixpoint lastSaved (h : History) (start : RequirementsConfig) : RequirementsConfig :=
  match h with
  | [] => start
  | e :: h' =>
      match call e, outcome e with
      | SaveConfig r _, None => lastSaved h' r
      | _, _ => lastSaved h' start
      end
  end.

Definition fakeWorld (sc : Scenario) : Collaborators := {|
  o_JXClientAndDevNamespace := fun _ => (("jx-client", "jx"), None);
  kube_GetDevEnvironment := fun _ _ _ =>
    Ok {| PipelineUsername := "jenkins-x-bot";
          PipelineUserEmail := "jenkins-x@googlegroups.com";
          SourceURL := "https://github.com/acme/environment-dev.git" |};
  git_SetUsername := fun _ _ _ => None;
  git_SetEmail := fun _ _ _ => None;
  ioutil_TempDir := fun _ => ("/tmp/jx", None);
  os_MkdirAll := fun _ _ => None;
  os_RemoveAll := fun _ _ => None;
  o_CreatePipelineUserGitAuthConfigService := fun _ => Ok ("github.com", "bot-token");
  git_CreateAuthenticatedURL := fun _ url _ => Ok url;
  git_Clone := fun _ _ _ => None;
  config_LoadRequirementsConfig := fun h dir =>
    Ok (lastSaved h (scRequirements sc), dir ++ "/jx-requirements.yml");
  util_FileExists := fun _ _ => Ok true;
  config_LoadActiveInstallProfile := fun _ => "open-source";
  o_CloneJXVersionsRepo := fun _ _ _ => Ok "/tmp/versions";
  git_GetCommitPointedToByTag := fun _ _ tag =>
    match lookup tag (scTags sc) with
    | Some sha => (sha, None)
    | None => ("", Some ("unknown revision " ++ tag))
    end;
  uuid_NewV4 := fun _ => Ok "6ba7b810-9dad-41d1-80b4-00c04fd430c8";
  git_CreateBranch := fun _ _ _ => None;
  git_Checkout := fun _ _ _ => None;
  requirements_SaveConfig := fun _ _ _ => None;
  git_AddCommitFiles := fun _ _ message _ => lookup message (scCommitErrors sc);
  git_CloneBare := fun _ _ _ => None;
  o_CreateVersionResolver := fun _ _ ref => Ok ref;
  resolver_ResolveGitVersion := fun _ resolver _ =>
    match lookup resolver (scVersions sc) with
    | Some v => Ok v
    | None => Err ("no version for " ++ resolver)
    end;
  git_FetchBranch := fun _ _ _ _ => None;
  git_GetCommits := fun _ _ _ _ => Ok (scCommits sc);
  git_CherryPickTheirs := fun _ _ sha => lookup sha (scPickErrors sc);
  git_CheckoutCommitFiles := fun _ _ _ _ => None;
  git_Info := fun _ _ => Ok {| Organisation := "acme"; Name := "environment-dev" |};
  o_GitServerKind := fun _ _ => Ok "github";
  gitInfo_CreateProviderForUser := fun _ _ _ _ _ => Ok "github-provider";
  provider_GetRepository := fun _ _ org name => Ok {| Organisation := org; Name := name |};
  gits_PushRepoAndCreatePullRequest := fun _ _ _ _ _ _ _ _ _ => None;
  git_DeleteLocalBranch := fun _ _ _ => None
|}.

Definition start (o : UpgradeBootOptions) : State := {| opts := o; log := [] |}.

(** A GitOps clone in [env-dev], nothing given on the command line. *)
Definition inClone : UpgradeBootOptions :=
  {| GitURL := ""; VersionStreamURL := ""; VersionStreamRef := ""; Dir := "env-dev" |}.

Definition jxVersions : string := "https://github.com/jenkins-x/jenkins-x-versions.git".

Definition pinnedAt (ref : string) : RequirementsConfig :=
  {| VersionStream := {| URL := jxVersions; Ref := ref |};
     OtherRequirements := "cluster: {provider: gke}" |}.

Definition streamS0 : string := "2367726d02b8c4a1f0e5d4c3b2a1908f7e6d5c4b".
Definition streamS1 : string := "9f8e7d6c5b4a39281706f5e4d3c2b1a098765432".
Definition configC0 : string := "0c0c0c0c0c0c0c0c0c0c0c0c0c0c0c0c0c0c0c0c".
Definition configC1 : string := "1c1c1c1c1c1c1c1c1c1c1c1c1c1c1c1c1c1c1c1c".

(** The version stream is pinned at the commit that [master] points to. *)
Definition upToDate : Scenario :=
  {| scRequirements := pinnedAt streamS0;
     scTags := [("master", streamS0)];
     scVersions := []; scCommits := []; scPickErrors := []; scCommitErrors := [] |}.

(** The requirements file names no version stream at all. *)
Definition unpinned : Scenario :=
  {| scRequirements :=
       {| VersionStream := {| URL := ""; Ref := "" |};
          OtherRequirements := "cluster: {provider: gke}" |};
     scTags := [("master", streamS0)];
     scVersions := []; scCommits := []; scPickErrors := []; scCommitErrors := [] |}.

(** In the clone, with [--versions-ref] alone on the command line. *)
Definition refOnly : UpgradeBootOptions :=
  {| GitURL := ""; VersionStreamURL := ""; VersionStreamRef := "v1.0.42";
     Dir := "env-dev" |}.

(** The version stream is pinned by an abbreviated commit id; [master]
    points to the same commit. *)
Definition pinnedByShortId : Scenario :=
  {| scRequirements := pinnedAt "2367726d02b8c";
     scTags := [("master", streamS0); ("2367726d02b8c", streamS0)];
     scVersions := []; scCommits := []; scPickErrors := []; scCommitErrors := [] |}.

(** The version stream moved from [streamS0] to [streamS1]; both pin boot config
    1.0.5, tagged at [configC0]. *)
Definition streamOnly : Scenario :=
  {| scRequirements := pinnedAt streamS0;
     scTags := [("master", streamS1); ("v1.0.5", configC0)];
     scVersions := [(streamS0, "1.0.5"); (streamS1, "1.0.5")];
     scCommits := []; scPickErrors := []; scCommitErrors := [] |}.

(** The requirements file is already pinned at [streamS1], the commit of
    [master]; the command line names the version stream at the tag
    [v1.0.0], which pins boot config 1.0.5 as [streamS1] does. *)
Definition alreadyAdvanced : Scenario :=
  {| scRequirements := pinnedAt streamS1;
     scTags := [("master", streamS1); ("v1.0.5", configC0)];
     scVersions := [("v1.0.0", "1.0.5"); (streamS1, "1.0.5")];
     scCommits := []; scPickErrors := []; scCommitErrors := [] |}.

Definition fromTag : UpgradeBootOptions :=
  {| GitURL := ""; VersionStreamURL := jxVersions; VersionStreamRef := "v1.0.0";
     Dir := "env-dev" |}.

Definition commit1 : GitCommit := {| SHA := "aaaa111"; Subject := "fix: first" |}.
Definition commitM : GitCommit := {| SHA := "bbbb222"; Subject := "Merge pull request" |}.
Definition commit3 : GitCommit := {| SHA := "cccc333"; Subject := "feat: third" |}.

(** A full upgrade from boot config 1.0.5 ([configC0]) to 1.0.6 ([configC1]) over
    three commits, the middle one a merge; [OWNERS] is untouched. *)
Definition fullUpgrade : Scenario :=
  {| scRequirements := pinnedAt streamS0;
     scTags := [("master", streamS1); ("v1.0.5", configC0); ("v1.0.6", configC1)];
     scVersions := [(streamS0, "1.0.5"); (streamS1, "1.0.6")];
     scCommits := [commit3; commitM; commit1];
     scPickErrors :=
       [("bbbb222", "error: commit bbbb222 is a merge but no -m option was given.")];
     scCommitErrors :=
       [("chore: exclude files from upgrade",
         "On branch upgrade: nothing to commit, working tree clean")] |}.

(** The same upgrade, but the oldest commit does not apply. *)
Definition conflicting : Scenario :=
  {| scRequirements := pinnedAt streamS0;
     scTags := [("master", streamS1); ("v1.0.5", configC0); ("v1.0.6", configC1)];
     scVersions := [(streamS0, "1.0.5"); (streamS1, "1.0.6")];
     scCommits := [commit3; commitM; commit1];
     scPickErrors := [("aaaa111", "error: could not apply aaaa111")];
     scCommitErrors := [] |}.

(** The world of a scenario, but for the answers of [ioutil.TempDir] and
    [util.FileExists]. *)
Definition faultyWorld (sc : Scenario) (tempDir : string * option error)
  (fileExists : Res bool) : Collaborators :=
  let w := fakeWorld sc in {|
  o_JXClientAndDevNamespace := o_JXClientAndDevNamespace w;
  kube_GetDevEnvironment := kube_GetDevEnvironment w;
  git_SetUsername := git_SetUsername w;
  git_SetEmail := git_SetEmail w;
  ioutil_TempDir := fun _ => tempDir;
  os_MkdirAll := os_MkdirAll w;
  os_RemoveAll := os_RemoveAll w;
  o_CreatePipelineUserGitAuthConfigService := o_CreatePipelineUserGitAuthConfigService w;
  git_CreateAuthenticatedURL := git_CreateAuthenticatedURL w;
  git_Clone := git_Clone w;
  config_LoadRequirementsConfig := config_LoadRequirementsConfig w;
  util_FileExists := fun _ _ => fileExists;
  config_LoadActiveInstallProfile := config_LoadActiveInstallProfile w;
  o_CloneJXVersionsRepo := o_CloneJXVersionsRepo w;
  git_GetCommitPointedToByTag := git_GetCommitPointedToByTag w;
  uuid_NewV4 := uuid_NewV4 w;
  git_CreateBranch := git_CreateBranch w;
  git_Checkout := git_Checkout w;
  requirements_SaveConfig := requirements_SaveConfig w;
  git_AddCommitFiles := git_AddCommitFiles w;
  git_CloneBare := git_CloneBare w;
  o_CreateVersionResolver := o_CreateVersionResolver w;
  resolver_ResolveGitVersion := resolver_ResolveGitVersion w;
  git_FetchBranch := git_FetchBranch w;
  git_GetCommits := git_GetCommits w;
  git_CherryPickTheirs := git_CherryPickTheirs w;
  git_CheckoutCommitFiles := git_CheckoutCommitFiles w;
  git_Info := git_Info w;
  o_GitServerKind := o_GitServerKind w;
  gitInfo_CreateProviderForUser := gitInfo_CreateProviderForUser w;
  provider_GetRepository := provider_GetRepository w;
  gits_PushRepoAndCreatePullRequest := gits_PushRepoAndCreatePullRequest w;
  git_DeleteLocalBranch := git_DeleteLocalBranch w
|}.

(** What was last saved to [file] without an error, [start] if nothing
    was. *)
Fixpoint lastSavedTo (file : string) (h : History) (start : RequirementsConfig)
  : RequirementsConfig :=
  match h with
  | [] => start
  | e :: h' =>
      match call e, outcome e with
      | SaveConfig r f, None =>
          if f =? file then lastSavedTo file h' r else lastSavedTo file h' start
      | _, _ => lastSavedTo file h' start
      end
  end.

(** The world of a scenario, with a requirements file for each directory:
    it holds what was last saved to it, and the requirements of the
    scenario before that. *)
Definition fileWorld (sc : Scenario) : Collaborators :=
  let w := fakeWorld sc in {|
  o_JXClientAndDevNamespace := o_JXClientAndDevNamespace w;
  kube_GetDevEnvironment := kube_GetDevEnvironment w;
  git_SetUsername := git_SetUsername w;
  git_SetEmail := git_SetEmail w;
  ioutil_TempDir := ioutil_TempDir w;
  os_MkdirAll := os_MkdirAll w;
  os_RemoveAll := os_RemoveAll w;
  o_CreatePipelineUserGitAuthConfigService := o_CreatePipelineUserGitAuthConfigService w;
  git_CreateAuthenticatedURL := git_CreateAuthenticatedURL w;
  git_Clone := git_Clone w;
  config_LoadRequirementsConfig := fun h dir =>
    let file := dir ++ "/jx-requirements.yml" in
    Ok (lastSavedTo file h (scRequirements sc), file);
  util_FileExists := util_FileExists w;
  config_LoadActiveInstallProfile := config_LoadActiveInstallProfile w;
  o_CloneJXVersionsRepo := o_CloneJXVersionsRepo w;
  git_GetCommitPointedToByTag := git_GetCommitPointedToByTag w;
  uuid_NewV4 := uuid_NewV4 w;
  git_CreateBranch := git_CreateBranch w;
  git_Checkout := git_Checkout w;
  requirements_SaveConfig := requirements_SaveConfig w;
  git_AddCommitFiles := git_AddCommitFiles w;
  git_CloneBare := git_CloneBare w;
  o_CreateVersionResolver := o_CreateVersionResolver w;
  resolver_ResolveGitVersion := resolver_ResolveGitVersion w;
  git_FetchBranch := git_FetchBranch w;
  git_GetCommits := git_GetCommits w;
  git_CherryPickTheirs := git_CherryPickTheirs w;
  git_CheckoutCommitFiles := git_CheckoutCommitFiles w;
  git_Info := git_Info w;
  o_GitServerKind := o_GitServerKind w;
  gitInfo_CreateProviderForUser := gitInfo_CreateProviderForUser w;
  provider_GetRepository := provider_GetRepository w;
  gits_PushRepoAndCreatePullRequest := gits_PushRepoAndCreatePullRequest w;
  git_DeleteLocalBranch := git_DeleteLocalBranch w
|}.

(** In the clone, with a version stream of one's own on the command
    line, and no [--git-url]. *)
Definition customStream : UpgradeBootOptions :=
  {| GitURL := ""; VersionStreamURL := "https://github.com/acme/versions.git";
     VersionStreamRef := "v1"; Dir := "env-dev" |}.

(** Nothing on the command line, not even a directory. *)
Definition noDir : UpgradeBootOptions :=
  {| GitURL := ""; VersionStreamURL := ""; VersionStreamRef := ""; Dir := "" |}.

Definition bootConfig : string := "https://github.com/jenkins-x/jenkins-x-boot-config.git".

(** The version stream pins boot config 1.0.5, but the boot config has no
    tag [v1.0.5]. *)
Definition untagged : Scenario :=
  {| scRequirements := pinnedAt streamS0;
     scTags := [("master", streamS1)];
     scVersions := [(streamS0, "1.0.5"); (streamS1, "1.0.5")];
     scCommits := []; scPickErrors := []; scCommitErrors := [] |}.

(** The restoration of [OWNERS] cannot be committed. *)
Definition commitFails : Scenario :=
  {| scRequirements := pinnedAt streamS0;
     scTags := [("master", streamS1); ("v1.0.5", configC0); ("v1.0.6", configC1)];
     scVersions := [(streamS0, "1.0.5"); (streamS1, "1.0.6")];
     scCommits := [commit1];
     scPickErrors := [];
     scCommitErrors :=
       [("chore: exclude files from upgrade", "fatal: unable to write new index file")] |}.

(** ** Reasoning about computations *)

#[local] Arguments String.append : simpl never.

Lemma bind_Ok {A B} (m : M A) (k : A -> M B) s a s1 :
  m s = (Ok a, s1) -> bind m k s = k a s1.
Proof. unfold bind; intros ->; reflexivity. Qed.

Lemma bind_Err {A B} (m : M A) (k : A -> M B) s e s1 :
  m s = (Err e, s1) -> bind m k s = (Err e, s1).
Proof. unfold bind; intros ->; reflexivity. Qed.

Lemma wrap_Ok {A} message (m : M A) s a s1 :
  m s = (Ok a, s1) -> wrap message m s = (Ok a, s1).
Proof. unfold wrap; intros ->; reflexivity. Qed.

Lemma wrap_Err {A} message (m : M A) s e s1 :
  m s = (Err e, s1) -> wrap message m s = (Err (Wrap e message), s1).
Proof. unfold wrap; intros ->; reflexivity. Qed.

Lemma appended_app [A] (m : M A) s [new] :
  log (snd (m s)) = (log s ++ new)%list -> appended m s = new.
Proof.
  unfold appended; intros ->.
  rewrite skipn_app, skipn_all, Nat.sub_diag; reflexivity.
Qed.

Section Grows.

Variable P : Entry -> bool.

Lemma grows_silent {A} (m : M A) :
  (forall s, log (snd (m s)) = log s) -> grows P m.
Proof.
  intros H s; exists []; rewrite H, app_nil_r; split; reflexivity.
Qed.

Lemma grows_ret {A} (a : A) : grows P (ret a).
Proof. apply grows_silent; reflexivity. Qed.

Lemma grows_fail {A} e : grows P (@fail A e).
Proof. apply grows_silent; reflexivity. Qed.

Lemma grows_getDir : grows P getDir.
Proof. apply grows_silent; reflexivity. Qed.

Lemma grows_getOptions : grows P getOptions.
Proof. apply grows_silent; reflexivity. Qed.

Lemma grows_setDir dir : grows P (setDir dir).
Proof. apply grows_silent; reflexivity. Qed.

Lemma grows_bind {A B} (m : M A) (k : A -> M B) :
  grows P m -> (forall a, grows P (k a)) -> grows P (bind m k).
Proof.
  intros Hm Hk s; unfold bind.
  destruct (Hm s) as (l1 & E1 & F1).
  destruct (m s) as [[a | e] s1]; simpl in E1.
  - destruct (Hk a s1) as (l2 & E2 & F2).
    exists (l1 ++ l2)%list; rewrite E2, E1, app_assoc, forallb_app, F1, F2; auto.
  - exists l1; simpl; auto.
Qed.

Lemma grows_wrap {A} message (m : M A) : grows P m -> grows P (wrap message m).
Proof.
  intros Hm s; unfold wrap.
  destruct (Hm s) as (l1 & E1 & F1).
  destruct (m s) as [[a | e] s1]; exists l1; auto.
Qed.

Lemma grows_defer {A} (cleanup : M unit) (body : M A) :
  grows P body -> grows P cleanup -> grows P (defer cleanup body).
Proof.
  intros Hb Hc s; unfold defer.
  destruct (Hb s) as (l1 & E1 & F1).
  destruct (body s) as [r s1]; simpl in *.
  destruct (Hc s1) as (l2 & E2 & F2).
  exists (l1 ++ l2)%list; rewrite E2, E1, app_assoc, forallb_app, F1, F2; auto.
Qed.

Lemma grows_note c out s :
  P (mkEntry c out) = true ->
  exists new, log (note c out s) = (log s ++ new)%list /\ forallb P new = true.
Proof. intros H; exists [mkEntry c out]; simpl; rewrite H; auto. Qed.

Lemma grows_callE c answer :
  (forall out, P (mkEntry c out) = true) -> grows P (callE c answer).
Proof. intros H s; apply grows_note, H. Qed.

Lemma grows_callO c answer :
  (forall out, P (mkEntry c out) = true) -> grows P (callO c answer).
Proof. intros H s; apply grows_note, H. Qed.

Lemma grows_callR {A} c (answer : History -> Res A) :
  (forall out, P (mkEntry c out) = true) -> grows P (callR c answer).
Proof. intros H s; apply grows_note, H. Qed.

Lemma grows_callV {A} c (answer : History -> A * option error) :
  (forall out, P (mkEntry c out) = true) -> grows P (callV c answer).
Proof. intros H s; apply grows_note, H. Qed.

Lemma grows_callT {A} c (answer : History -> A) :
  (forall out, P (mkEntry c out) = true) -> grows P (callT c answer).
Proof. intros H s; apply grows_note, H. Qed.

End Grows.

(** One step of a proof of [grows P m]: follow the shape of [m]; a call
    is checked against [P] by computation. *)
Ltac grows_call := intros; reflexivity.

Ltac grows_step :=
  match goal with
  | |- grows _ (bind _ _) => apply grows_bind; [ | intros ]
  | |- grows _ (wrap _ _) => apply grows_wrap
  | |- grows _ (defer _ _) => apply grows_defer
  | |- grows _ (ret _) => apply grows_ret
  | |- grows _ (fail _) => apply grows_fail
  | |- grows _ getDir => apply grows_getDir
  | |- grows _ getOptions => apply grows_getOptions
  | |- grows _ (setDir _) => apply grows_setDir
  | |- grows _ (callE _ _) => apply grows_callE; grows_call
  | |- grows _ (callO _ _) => apply grows_callO; grows_call
  | |- grows _ (callR _ _) => apply grows_callR; grows_call
  | |- grows _ (callV _ _) => apply grows_callV; grows_call
  | |- grows _ (callT _ _) => apply grows_callT; grows_call
  | |- grows _ (logInfof _) => apply grows_callT; grows_call
  | |- grows _ (logWarnf _) => apply grows_callT; grows_call
  | |- grows _ (match ?x with _ => _ end) => destruct x
  | |- grows _ (let _ := _ in _) => cbv zeta
  end.

Ltac grows_auto := repeat grows_step.

(** ** The version stream reference *)

Section VersionStream.

Context {K : Constants} (env : Collaborators).

Lemma defaultVersionStreamConfig_run s :
  defaultVersionStreamConfig env s =
  (Ok (defaultFor (config_LoadActiveInstallProfile env (log s))),
   note LoadActiveInstallProfile None s).
Proof.
  unfold defaultVersionStreamConfig, defaultFor, bind, callT, ret.
  destruct (_ =? _); reflexivity.
Qed.

Lemma defaultFor_complete profile :
  DefaultVersionsURL <> "" -> DefaultVersionsRef <> "" ->
  DefaultCloudBeesVersionsRef <> "" ->
  URL (defaultFor profile) <> "" /\ Ref (defaultFor profile) <> "".
Proof.
  intros HU HR HC; unfold defaultFor; simpl.
  destruct (_ =? _); auto.
Qed.

(** What [determineVersionStreamConfig] does once a reference has been
    selected in state [s1]. *)
Lemma determine_after_selection (sel : VersionStreamConfig) s1 :
  (if (URL sel =? "") || (Ref sel =? "") then
     logWarnf (incompleteWarning sel) ;; defaultVersionStreamConfig env
   else ret sel) s1 =
  if (URL sel =? "") || (Ref sel =? "") then
    defaultVersionStreamConfig env (note (Warnf (incompleteWarning sel)) None s1)
  else (Ok sel, s1).
Proof. destruct (_ || _); reflexivity. Qed.

Lemma incomplete_true (sel : VersionStreamConfig) :
  URL sel = "" \/ Ref sel = "" -> (URL sel =? "") || (Ref sel =? "") = true.
Proof.
  intros [H | H]; rewrite H; simpl; auto using orb_true_r.
Qed.

Lemma incomplete_false (sel : VersionStreamConfig) :
  (URL sel =? "") || (Ref sel =? "") = false -> URL sel <> "" /\ Ref sel <> "".
Proof.
  intros H; apply orb_false_elim in H as [H1 H2].
  split; intros E; rewrite E in *; discriminate.
Qed.

Lemma determine_from_options s :
  (VersionStreamURL (opts s) =? "") && (VersionStreamRef (opts s) =? "") = false ->
  let sel := optionsVersionStream (opts s) in
  determineVersionStreamConfig env s =
  if (URL sel =? "") || (Ref sel =? "") then
    defaultVersionStreamConfig env (note (Warnf (incompleteWarning sel)) None s)
  else (Ok sel, s).
Proof.
  intros H sel.
  unfold determineVersionStreamConfig, getOptions, bind at 1 2; simpl.
  rewrite H; simpl.
  apply (determine_after_selection sel s).
Qed.

Lemma determine_from_requirements s :
  (VersionStreamURL (opts s) =? "") && (VersionStreamRef (opts s) =? "") = true ->
  determineVersionStreamConfig env s =
  match loadRequirementsConfig env s with
  | (Ok (requirements, _), s1) =>
      let sel := VersionStream requirements in
      if (URL sel =? "") || (Ref sel =? "") then
        defaultVersionStreamConfig env (note (Warnf (incompleteWarning sel)) None s1)
      else (Ok sel, s1)
  | (Err e, s1) => (Err (Wrap e "failed to load requirements config"), s1)
  end.
Proof.
  intros H.
  unfold determineVersionStreamConfig, getOptions, bind at 1 2; simpl.
  rewrite H; simpl.
  unfold bind at 1, wrap.
  destruct (loadRequirementsConfig env s) as [[[requirements file] | e] s1]; simpl.
  - apply (determine_after_selection (VersionStream requirements) s1).
  - reflexivity.
Qed.

(** C10.  If exactly one of the options [--versions-repo] and
    [--versions-ref] is given, [determineVersionStreamConfig] does not
    consult the requirements file: it warns, drops the value that was
    given and returns the system-wide default. *)
Theorem determineVersionStreamConfig_single_option s :
  (VersionStreamURL (opts s) = "" /\ VersionStreamRef (opts s) <> "") \/
  (VersionStreamURL (opts s) <> "" /\ VersionStreamRef (opts s) = "") ->
  let warning := Warnf (incompleteWarning (optionsVersionStream (opts s))) in
  determineVersionStreamConfig env s =
    defaultVersionStreamConfig env (note warning None s) /\
  fst (determineVersionStreamConfig env s) =
    Ok (defaultFor (config_LoadActiveInstallProfile env (log (note warning None s)))) /\
  appended (determineVersionStreamConfig env) s =
    [mkEntry warning None; mkEntry LoadActiveInstallProfile None] /\
  existsb consultsRequirements (appended (determineVersionStreamConfig env) s) = false.
Proof.
  intros H warning.
  assert (E : determineVersionStreamConfig env s =
              defaultVersionStreamConfig env (note warning None s)).
  { rewrite determine_from_options.
    - rewrite incomplete_true; [reflexivity |].
      simpl; destruct H as [[H _] | [_ H]]; auto.
    - destruct H as [[H1 H2] | [H1 H2]].
      + apply andb_false_intro2, String.eqb_neq, H2.
      + apply andb_false_intro1, String.eqb_neq, H1. }
  split; [exact E |].
  assert (L : log (snd (determineVersionStreamConfig env s)) =
              (log s ++ [mkEntry warning None; mkEntry LoadActiveInstallProfile None])%list).
  { rewrite E, defaultVersionStreamConfig_run; simpl.
    rewrite <- app_assoc; reflexivity. }
  rewrite (appended_app _ _ L).
  rewrite E, defaultVersionStreamConfig_run.
  repeat split; reflexivity.
Qed.

(** C8.  Provided the [config] defaults are themselves non-empty, the
    reference returned by [determineVersionStreamConfig] always has a URL
    and a ref; and if the reference that was selected (from the options,
    or else from the requirements file) lacks one of them, what is
    returned is the system-wide default as a whole. *)
Theorem determineVersionStreamConfig_complete s vs s' :
  DefaultVersionsURL <> "" -> DefaultVersionsRef <> "" ->
  DefaultCloudBeesVersionsRef <> "" ->
  determineVersionStreamConfig env s = (Ok vs, s') ->
  (URL vs <> "" /\ Ref vs <> "") /\
  (forall sel, selects env s sel ->
     (URL sel = "" \/ Ref sel = "" -> exists profile, vs = defaultFor profile) /\
     (URL sel <> "" /\ Ref sel <> "" -> vs = sel)).
Proof.
  intros HU HR HC Hrun.
  assert (D : forall sel s1,
             (if (URL sel =? "") || (Ref sel =? "") then
                defaultVersionStreamConfig env (note (Warnf (incompleteWarning sel)) None s1)
              else (Ok sel, s1)) = (Ok vs, s') ->
             (URL vs <> "" /\ Ref vs <> "") /\
             (URL sel = "" \/ Ref sel = "" -> exists profile, vs = defaultFor profile) /\
             (URL sel <> "" /\ Ref sel <> "" -> vs = sel)).
  { intros sel s1 E.
    destruct ((URL sel =? "") || (Ref sel =? "")) eqn:I.
    - rewrite defaultVersionStreamConfig_run in E; inversion E; subst.
      split; [apply defaultFor_complete; assumption |].
      split; [eauto |].
      intros [H1 H2]. apply orb_prop in I as [I | I]; apply String.eqb_eq in I; contradiction.
    - inversion E; subst.
      split; [apply incomplete_false, I |].
      split; [| reflexivity].
      intros H; apply incomplete_true in H; congruence. }
  unfold selects.
  destruct ((VersionStreamURL (opts s) =? "") && (VersionStreamRef (opts s) =? "")) eqn:B.
  - rewrite determine_from_requirements in Hrun by exact B.
    destruct (loadRequirementsConfig env s) as [[[requirements file] | e] s1] eqn:L;
      [| discriminate].
    destruct (D _ _ Hrun) as (D1 & D2 & D3).
    split; [exact D1 |].
    intros sel (requirements' & file' & s1' & L' & ->).
    inversion L'; subst; auto.
  - rewrite determine_from_options in Hrun by exact B.
    destruct (D _ _ Hrun) as (D1 & D2 & D3).
    split; [exact D1 |].
    intros sel ->; auto.
Qed.

End VersionStream.

(** ** Availability, the pinned reference and the protected files *)

Section Steps.

Context {K : Constants} (env : Collaborators).

Lemma loadRequirementsConfig_grows P :
  (forall c, consultsRequirements (mkEntry c None) = true ->
             forall out, P (mkEntry c out) = true) ->
  grows P (loadRequirementsConfig env).
Proof.
  intros HP; unfold loadRequirementsConfig.
  grows_step; [grows_step |].
  grows_step; [grows_step; apply grows_callR; intros; apply HP; reflexivity |].
  grows_step.
  grows_step; [grows_step; apply grows_callR; intros; apply HP; reflexivity |].
  grows_auto.
Qed.

(** C9.  When the requirements file that is loaded already has the target
    sha as its version stream ref, [updateVersionStreamRef] succeeds in
    the state the load left: the file is not saved and nothing is
    committed. *)
Theorem updateVersionStreamRef_already_pinned s upgradeRef requirements file s1 :
  loadRequirementsConfig env s = (Ok (requirements, file), s1) ->
  Ref (VersionStream requirements) = upgradeRef ->
  updateVersionStreamRef env upgradeRef s = (Ok tt, s1) /\
  forallb noSaveNoCommit (appended (updateVersionStreamRef env upgradeRef) s) = true.
Proof.
  intros L R.
  assert (E : updateVersionStreamRef env upgradeRef s = (Ok tt, s1)).
  { unfold updateVersionStreamRef.
    erewrite bind_Ok by (apply wrap_Ok, L).
    cbv beta iota; rewrite R, String.eqb_refl; reflexivity. }
  split; [exact E |].
  destruct (loadRequirementsConfig_grows noSaveNoCommit) with (s := s)
    as (new & Hnew & F).
  { intros [] H out; try discriminate H; reflexivity. }
  rewrite L in Hnew; simpl in Hnew.
  rewrite (appended_app (updateVersionStreamRef env upgradeRef) s (new := new)); [exact F |].
  rewrite E; exact Hnew.
Qed.

(** When the refs differ, the file is saved with the new ref and
    committed. *)
Lemma updateVersionStreamRef_advances s upgradeRef requirements file s1 :
  loadRequirementsConfig env s = (Ok (requirements, file), s1) ->
  Ref (VersionStream requirements) <> upgradeRef ->
  let saved := setVersionStreamRef requirements upgradeRef in
  let dir := Dir (opts s1) in
  let message := "feat: upgrade version stream" in
  let s2 := note (Infof ("Upgrading version stream ref to " ++ upgradeRef)) None s1 in
  let s3 := note (SaveConfig saved file) None s2 in
  let commit := git_AddCommitFiles env (log s3) dir message [file] in
  requirements_SaveConfig env (log s2) saved file = None ->
  updateVersionStreamRef env upgradeRef s =
  (match commit with
   | Some e => Err (Wrap e ("failed to commit requirements file " ++ file))
   | None => Ok tt
   end,
   note (AddCommitFiles dir message [file]) commit s3).
Proof.
  intros L R saved dir message s2 s3 commit.
  unfold commit, s3, s2, saved, dir, message; simpl; intros Hsave.
  unfold updateVersionStreamRef.
  erewrite bind_Ok by (apply wrap_Ok, L).
  apply String.eqb_neq in R; cbv beta iota; rewrite R; simpl.
  unfold bind, logInfof, callT, wrap, callE, getDir; simpl.
  rewrite Hsave; simpl.
  destruct (git_AddCommitFiles _ _ _ _ _); reflexivity.
Qed.

(** The commits [excludeFiles] made. *)
Lemma excludeFiles_run s commit :
  let dir := Dir (opts s) in
  let message := "chore: exclude files from upgrade" in
  let restore := mkEntry (CheckoutCommitFiles dir commit ["OWNERS"]) None in
  git_CheckoutCommitFiles env (log s) dir commit ["OWNERS"] = None ->
  let out := git_AddCommitFiles env (log s ++ [restore])%list dir message ["OWNERS"] in
  excludeFiles env commit s =
  (match out with
   | Some e => if negb (Contains e "nothing to commit")
               then Err (Wrap e "failed to commit excluded files [OWNERS]")
               else Ok tt
   | None => Ok tt
   end,
   note (AddCommitFiles dir message ["OWNERS"]) out
        (note (CheckoutCommitFiles dir commit ["OWNERS"]) None s)).
Proof.
  intros dir message restore H out.
  unfold excludeFiles, bind, getDir, wrap, callE, callO, ret, fail; simpl.
  fold dir; rewrite H; simpl; fold restore message out.
  destruct out as [e |]; [destruct (negb _) |]; reflexivity.
Qed.

(** C6.  After the checkout of [OWNERS] from the pre-upgrade commit,
    [excludeFiles] attempts exactly one commit of the restoration.  If
    that commit is made, [excludeFiles] succeeds with one new commit; if
    Git answers "nothing to commit", [excludeFiles] succeeds as well, and
    no commit has been made. *)
Theorem excludeFiles_restores_protected s commit :
  let dir := Dir (opts s) in
  let message := "chore: exclude files from upgrade" in
  let restore := mkEntry (CheckoutCommitFiles dir commit ["OWNERS"]) None in
  let out := git_AddCommitFiles env (log s ++ [restore])%list dir message ["OWNERS"] in
  let new := appended (excludeFiles env commit) s in
  git_CheckoutCommitFiles env (log s) dir commit ["OWNERS"] = None ->
  new = [restore; mkEntry (AddCommitFiles dir message ["OWNERS"]) out] /\
  (out = None ->
     fst (excludeFiles env commit s) = Ok tt /\
     length (filter commitMade new) = 1) /\
  (forall e, out = Some e -> Contains e "nothing to commit" = true ->
     fst (excludeFiles env commit s) = Ok tt /\
     length (filter commitMade new) = 0).
Proof.
  intros dir message restore out new H.
  assert (N : new = [restore; mkEntry (AddCommitFiles dir message ["OWNERS"]) out]).
  { apply appended_app.
    rewrite (excludeFiles_run s commit H); simpl.
    rewrite <- app_assoc; reflexivity. }
  split; [exact N |].
  rewrite N, (excludeFiles_run s commit H); fold dir message restore out.
  split.
  - intros ->; split; reflexivity.
  - intros e -> C; rewrite C; split; reflexivity.
Qed.

(** Any other failure of the commit is an error of [excludeFiles]. *)
Lemma excludeFiles_other_failure s commit e :
  let dir := Dir (opts s) in
  let message := "chore: exclude files from upgrade" in
  let restore := mkEntry (CheckoutCommitFiles dir commit ["OWNERS"]) None in
  git_CheckoutCommitFiles env (log s) dir commit ["OWNERS"] = None ->
  git_AddCommitFiles env (log s ++ [restore])%list dir message ["OWNERS"] = Some e ->
  Contains e "nothing to commit" = false ->
  fst (excludeFiles env commit s) =
    Err (Wrap e "failed to commit excluded files [OWNERS]").
Proof.
  intros dir message restore H O C.
  rewrite (excludeFiles_run s commit H); fold dir message restore.
  rewrite O, C; reflexivity.
Qed.

(** What [upgradeAvailable] returns once the clone and the resolution of
    the candidate succeeded. *)
Lemma upgradeAvailable_run s versionStreamURL versionStreamRef upgradeRef versionsDir sha :
  let clone := mkEntry (CloneJXVersionsRepo versionStreamURL upgradeRef) None in
  o_CloneJXVersionsRepo env (log s) versionStreamURL upgradeRef = Ok versionsDir ->
  git_GetCommitPointedToByTag env (log s ++ [clone])%list versionsDir upgradeRef
    = (sha, None) ->
  fst (upgradeAvailable env versionStreamURL versionStreamRef upgradeRef s) =
    Ok (if versionStreamRef =? sha then "" else sha).
Proof.
  intros clone HC HT.
  unfold upgradeAvailable, bind, wrap, callR, callV; simpl.
  rewrite HC; simpl; fold clone; rewrite HT; simpl.
  destruct (_ =? _); reflexivity.
Qed.

(** C1, as amended.  Only the candidate symbol is resolved.
    [upgradeAvailable] answers "no upgrade" (empty sha, no error) when the
    pinned reference, as text, equals the commit id the candidate
    resolves to, and answers that commit id otherwise. *)
Theorem upgradeAvailable_compares_text
  s versionStreamURL versionStreamRef upgradeRef versionsDir sha :
  let clone := mkEntry (CloneJXVersionsRepo versionStreamURL upgradeRef) None in
  o_CloneJXVersionsRepo env (log s) versionStreamURL upgradeRef = Ok versionsDir ->
  git_GetCommitPointedToByTag env (log s ++ [clone])%list versionsDir upgradeRef
    = (sha, None) ->
  (versionStreamRef = sha ->
     fst (upgradeAvailable env versionStreamURL versionStreamRef upgradeRef s) = Ok "") /\
  (versionStreamRef <> sha ->
     fst (upgradeAvailable env versionStreamURL versionStreamRef upgradeRef s) = Ok sha).
Proof.
  intros clone HC HT.
  rewrite (upgradeAvailable_run s versionStreamURL versionStreamRef upgradeRef HC HT).
  split; intros H.
  - apply String.eqb_eq in H; rewrite H; reflexivity.
  - apply String.eqb_neq in H; rewrite H; reflexivity.
Qed.

End Steps.

(** ** The replay loop *)

Lemma picks_app h1 h2 : picks (h1 ++ h2)%list = (picks h1 ++ picks h2)%list.
Proof.
  induction h1 as [| e h1 IH]; simpl; [reflexivity |].
  destruct (call e); simpl; rewrite ?IH; reflexivity.
Qed.

Lemma firstn_snoc {A} (l : list A) i x :
  nth_error l i = Some x -> firstn (S i) l = (firstn i l ++ [x])%list.
Proof.
  revert i; induction l as [| a l IH]; intros [| i] H; simpl in *; try discriminate.
  - inversion H; reflexivity.
  - rewrite <- IH by exact H; reflexivity.
Qed.

Lemma split_at_last {A} (l1 l2 l : list A) (e x : A) :
  (l1 ++ e :: l2 = l ++ [x])%list ->
  (l2 = [] /\ l1 = l /\ e = x) \/
  (exists l2', l2 = (l2' ++ [x])%list /\ l = (l1 ++ e :: l2')%list).
Proof.
  intros H.
  destruct l2 as [| y l2] using rev_ind.
  - left. apply app_inj_tail in H as [-> ->]; auto.
  - right. clear IHl2.
    change (l1 ++ e :: l2 ++ [y])%list with (l1 ++ (e :: l2) ++ [y])%list in H.
    rewrite app_assoc in H.
    apply app_inj_tail in H as [<- ->].
    exists l2; auto.
Qed.

Lemma fatal_not_skipped e : fatalPick e = true -> skippedPick e = false.
Proof.
  unfold fatalPick, skippedPick.
  destruct (call e); try discriminate.
  destruct (outcome e); try discriminate.
  apply negb_true_iff.
Qed.

Section Replayed.

Variables (dir : string).

Lemma replayed_nil : replayed dir [] (Ok tt) [].
Proof. repeat split. Qed.

Lemma replayed_abort sha shas e :
  Contains e (mergeMsg sha) = false ->
  replayed dir (sha :: shas) (Err (Wrap e ("cherry-picking " ++ sha)))
    [mkEntry (CherryPickTheirs dir sha) (Some e)].
Proof.
  intros H; split; [reflexivity |].
  exists [], sha, e, 1; repeat split; auto.
Qed.

Lemma replayed_next sha shas r pre new :
  forallb replayStep pre = true -> existsb fatalPick pre = false ->
  picks pre = [sha] ->
  replayed dir shas r new -> replayed dir (sha :: shas) r (pre ++ new)%list.
Proof.
  intros HS HF HP [HN HR]; split.
  - rewrite forallb_app, HS, HN; reflexivity.
  - destruct r as [[] | err].
    + destruct HR as [HR1 HR2].
      rewrite picks_app, existsb_app, HP, HR1, HF, HR2; auto.
    + destruct HR as (before & sha' & e & k & -> & HC & -> & HB & HK).
      exists (pre ++ before)%list, sha', e, (S k).
      rewrite app_assoc, existsb_app, HF, HB; repeat split; auto.
      rewrite <- app_assoc, picks_app, HP, HK; reflexivity.
Qed.

(** The attempts are always a prefix of the commits, oldest first. *)
Lemma replayed_prefix shas r new :
  replayed dir shas r new -> exists k, picks new = firstn k shas.
Proof.
  intros [_ H]; destruct r as [[] | err].
  - exists (length shas); rewrite firstn_all; apply H.
  - destruct H as (_ & _ & _ & k & _ & _ & _ & _ & H); eauto.
Qed.

(** Without a fatal failure the replay goes through. *)
Lemma replayed_through shas r new :
  replayed dir shas r new -> existsb fatalPick new = false ->
  r = Ok tt /\ picks new = shas.
Proof.
  intros [_ H] F; destruct r as [[] | err].
  - split; [reflexivity | apply H].
  - destruct H as (before & sha & e & k & -> & HC & _).
    rewrite existsb_app in F; simpl in F.
    unfold fatalPick in F; simpl in F; rewrite HC in F; simpl in F.
    rewrite orb_true_r in F; discriminate.
Qed.

(** A fatal failure is the last thing that happens, and it is returned. *)
Lemma replayed_fatal_last shas r new l1 x l2 :
  replayed dir shas r new -> new = (l1 ++ x :: l2)%list -> fatalPick x = true ->
  l2 = [] /\
  exists sha e, x = mkEntry (CherryPickTheirs dir sha) (Some e) /\
                r = Err (Wrap e ("cherry-picking " ++ sha)).
Proof.
  intros [_ H] -> F; destruct r as [[] | err].
  - destruct H as [_ H]. rewrite existsb_app in H; simpl in H.
    rewrite F, orb_true_r in H; discriminate.
  - destruct H as (before & sha & e & k & E & HC & -> & HB & _).
    apply split_at_last in E as [(-> & _ & ->) | (l2' & -> & ->)].
    + split; [reflexivity | eauto].
    + rewrite existsb_app in HB; simpl in HB.
      rewrite F, orb_true_r in HB; discriminate.
Qed.

(** After a skipped commit the replay goes on: unless it was the newest
    commit, a further commit is attempted. *)
Lemma replayed_skip_continues shas r new l1 x l2 :
  replayed dir shas r new -> new = (l1 ++ x :: l2)%list -> skippedPick x = true ->
  picks (l1 ++ [x])%list = shas \/ picks l2 <> [].
Proof.
  intros [_ H] -> S; destruct r as [[] | err].
  - destruct H as [H _].
    destruct (picks l2) eqn:P2; [left | right; discriminate].
    rewrite <- H. change (l1 ++ x :: l2)%list with (l1 ++ [x] ++ l2)%list.
    rewrite app_assoc, (picks_app _ l2), P2, app_nil_r; reflexivity.
  - destruct H as (before & sha & e & k & E & HC & _).
    right.
    apply split_at_last in E as [(_ & _ & ->) | (l2' & -> & _)].
    + unfold skippedPick in S; simpl in S; congruence.
    + rewrite picks_app; simpl. intros N; apply app_eq_nil in N as [_ N]; discriminate.
Qed.

End Replayed.

Section Replay.

Context {K : Constants} (env : Collaborators).

(** One turn of the loop. *)
Lemma cherryPickFrom_step cmts i cmt s :
  nth_error cmts i = Some cmt ->
  let dir := Dir (opts s) in
  let out := git_CherryPickTheirs env (log s) dir (SHA cmt) in
  let s1 := note (CherryPickTheirs dir (SHA cmt)) out s in
  cherryPickFrom env cmts (S i) s =
  match out with
  | None =>
      cherryPickFrom env cmts i (note (Infof (SHA cmt ++ " - " ++ Subject cmt)) None s1)
  | Some e =>
      if Contains e (mergeMsg (SHA cmt))
      then cherryPickFrom env cmts i s1
      else (Err (Wrap e ("cherry-picking " ++ SHA cmt)), s1)
  end.
Proof.
  intros H dir out s1; simpl; rewrite H.
  unfold bind at 1, getDir; fold dir.
  unfold bind at 1, callO at 1; fold out s1.
  unfold bind at 1.
  destruct out as [e |]; [destruct (Contains e _) |]; reflexivity.
Qed.

Lemma cherryPickFrom_replayed cmts n : forall s,
  n <= length cmts ->
  exists new,
    log (snd (cherryPickFrom env cmts n s)) = (log s ++ new)%list /\
    replayed (Dir (opts s)) (map SHA (rev (firstn n cmts)))
             (fst (cherryPickFrom env cmts n s)) new.
Proof.
  induction n as [| i IH]; intros s Hn.
  - exists []; simpl; rewrite app_nil_r; split; [reflexivity | apply replayed_nil].
  - destruct (nth_error cmts i) as [cmt |] eqn:Hi;
      [| apply nth_error_None in Hi; lia].
    rewrite (cherryPickFrom_step cmts i s Hi), (firstn_snoc cmts i Hi), rev_unit; simpl map.
    set (dir := Dir (opts s)).
    destruct (git_CherryPickTheirs env (log s) dir (SHA cmt)) as [e |] eqn:Hout.
    + destruct (Contains e (mergeMsg (SHA cmt))) eqn:HC.
      * destruct (IH (note (CherryPickTheirs dir (SHA cmt)) (Some e) s)) as (new & E & R);
          [lia |].
        exists ([mkEntry (CherryPickTheirs dir (SHA cmt)) (Some e)] ++ new)%list.
        split; [rewrite E; simpl; rewrite <- !app_assoc; reflexivity |].
        apply replayed_next; auto.
        unfold fatalPick; simpl; rewrite HC; reflexivity.
      * exists [mkEntry (CherryPickTheirs dir (SHA cmt)) (Some e)].
        split; [reflexivity | apply replayed_abort, HC].
    + destruct (IH (note (Infof (SHA cmt ++ " - " ++ Subject cmt)) None
                      (note (CherryPickTheirs dir (SHA cmt)) None s))) as (new & E & R);
        [lia |].
      exists ([mkEntry (CherryPickTheirs dir (SHA cmt)) None;
               mkEntry (Infof (SHA cmt ++ " - " ++ Subject cmt)) None] ++ new)%list.
      split; [rewrite E; simpl; rewrite <- !app_assoc; reflexivity |].
      apply replayed_next; auto.
Qed.

(** [cherryPickCommits] asks for the history range, announces the
    replay, and replays the range from its last element to its first. *)
Lemma cherryPickCommits_replayed s cloneDir fromSha toSha cmts :
  git_GetCommits env (log s) cloneDir fromSha toSha = Ok cmts ->
  exists new,
    appended (cherryPickCommits env cloneDir fromSha toSha) s =
      mkEntry (GetCommits cloneDir fromSha toSha) None
      :: mkEntry (Infof ("cherry picking commits in the range "
                         ++ fromSha ++ ".." ++ toSha)) None
      :: new /\
    replayed (Dir (opts s)) (map SHA (rev cmts))
             (fst (cherryPickCommits env cloneDir fromSha toSha s)) new.
Proof.
  intros H.
  set (s2 := note (Infof ("cherry picking commits in the range "
                          ++ fromSha ++ ".." ++ toSha)) None
               (note (GetCommits cloneDir fromSha toSha) None s)).
  assert (E : cherryPickCommits env cloneDir fromSha toSha s =
              cherryPickFrom env cmts (length cmts) s2).
  { unfold cherryPickCommits, bind at 1, wrap, callR; rewrite H; simpl.
    reflexivity. }
  destruct (cherryPickFrom_replayed cmts s2 (le_n (length cmts))) as (new & L & R).
  rewrite firstn_all in R.
  exists new; rewrite E; split; [| exact R].
  apply appended_app; rewrite E, L; simpl.
  rewrite <- !app_assoc; reflexivity.
Qed.

(** C2.  In a replay, once the history range is known: a cherry-pick
    that fails with the merge-commit message of its commit is skipped and
    the replay goes on with the next commit, so that a replay without any
    other failure attempts every commit and succeeds; a cherry-pick that
    fails otherwise is the last thing the replay does, its error is
    returned (wrapped with the commit), and the working branch is neither
    left nor deleted. *)
Theorem cherryPickCommits_failure_policy s cloneDir fromSha toSha cmts :
  git_GetCommits env (log s) cloneDir fromSha toSha = Ok cmts ->
  let r := fst (cherryPickCommits env cloneDir fromSha toSha s) in
  let dir := Dir (opts s) in
  exists new,
    appended (cherryPickCommits env cloneDir fromSha toSha) s =
      mkEntry (GetCommits cloneDir fromSha toSha) None
      :: mkEntry (Infof ("cherry picking commits in the range "
                         ++ fromSha ++ ".." ++ toSha)) None
      :: new /\
    (forall l1 x l2, new = (l1 ++ x :: l2)%list -> skippedPick x = true ->
       picks (l1 ++ [x])%list = map SHA (rev cmts) \/ picks l2 <> []) /\
    (existsb fatalPick new = false ->
       r = Ok tt /\ picks new = map SHA (rev cmts)) /\
    (forall l1 x l2, new = (l1 ++ x :: l2)%list -> fatalPick x = true ->
       l2 = [] /\
       exists sha e, x = mkEntry (CherryPickTheirs dir sha) (Some e) /\
                     r = Err (Wrap e ("cherry-picking " ++ sha))) /\
    forallb replayStep new = true.
Proof.
  intros H r dir.
  destruct (cherryPickCommits_replayed s cloneDir fromSha toSha H) as (new & E & R).
  exists new; split; [exact E |].
  split; [intros l1 x l2; eapply replayed_skip_continues, R |].
  split; [apply (replayed_through R) |].
  split; [intros l1 x l2; eapply replayed_fatal_last, R |].
  apply R.
Qed.

(** C4.  The history query lists the range newest first;
    [cherryPickCommits] cherry-picks it in the reverse of that order.  The
    commits attempted are always an initial part of the reversed list,
    and all of it when the replay succeeds: for the range [c3; c2; c1]
    that is [c1], then [c2], then [c3]. *)
Theorem cherryPickCommits_oldest_first s cloneDir fromSha toSha cmts :
  git_GetCommits env (log s) cloneDir fromSha toSha = Ok cmts ->
  let r := fst (cherryPickCommits env cloneDir fromSha toSha s) in
  let attempted := picks (appended (cherryPickCommits env cloneDir fromSha toSha) s) in
  (exists k, attempted = firstn k (map SHA (rev cmts))) /\
  (r = Ok tt -> attempted = map SHA (rev cmts)) /\
  (forall c1 c2 c3, cmts = [c3; c2; c1] -> r = Ok tt ->
     attempted = [SHA c1; SHA c2; SHA c3]).
Proof.
  intros H r attempted.
  destruct (cherryPickCommits_replayed s cloneDir fromSha toSha H) as (new & E & R).
  assert (A : attempted = picks new) by (unfold attempted; rewrite E; reflexivity).
  assert (T : r = Ok tt -> attempted = map SHA (rev cmts)).
  { intros Hr; rewrite A. destruct R as [_ R]. fold r in R; rewrite Hr in R. apply R. }
  split; [rewrite A; apply (replayed_prefix R) |].
  split; [exact T |].
  intros c1 c2 c3 -> Hr; rewrite (T Hr); reflexivity.
Qed.

End Replay.

(** ** Postconditions on the appended history *)

Lemma emits_of_grows {A} P (m : M A) (Q : Res A -> History -> Prop) :
  grows P m -> (forall r new, forallb P new = true -> Q r new) -> emits m Q.
Proof.
  intros G H s; destruct (G s) as (new & E & F); exists new; auto.
Qed.

Lemma emits_weaken {A} (m : M A) (Q Q' : Res A -> History -> Prop) :
  emits m Q -> (forall r new, Q r new -> Q' r new) -> emits m Q'.
Proof.
  intros G H s; destruct (G s) as (new & E & F); exists new; auto.
Qed.

(** A step that only appends entries satisfying [P], followed by a
    computation with postcondition [Q], where [Q] tolerates such entries
    in front and holds of a failure amid them. *)
Lemma emits_bind_left {A B} P (m : M A) (k : A -> M B) (Q : Res B -> History -> Prop) :
  grows P m ->
  (forall e new, forallb P new = true -> Q (Err e) new) ->
  (forall r pre new, forallb P pre = true -> Q r new -> Q r (pre ++ new)%list) ->
  (forall a, emits (k a) Q) ->
  emits (bind m k) Q.
Proof.
  intros G HE HP HK s; unfold bind.
  destruct (G s) as (pre & E & F).
  destruct (m s) as [[a | e] s1]; simpl in E.
  - destruct (HK a s1) as (new & E' & HQ).
    exists (pre ++ new)%list; rewrite E', E, app_assoc; simpl; auto.
  - exists pre; simpl; auto.
Qed.

Lemma emits_bind {A B} (m : M A) (k : A -> M B)
  (Q1 : Res A -> History -> Prop) (Q2 : A -> Res B -> History -> Prop) :
  emits m Q1 -> (forall a, emits (k a) (Q2 a)) ->
  emits (bind m k)
    (fun r new =>
       (exists e, r = Err e /\ Q1 (Err e) new) \/
       (exists a n1 n2, new = (n1 ++ n2)%list /\ Q1 (Ok a) n1 /\ Q2 a r n2)).
Proof.
  intros H1 H2 s; unfold bind.
  destruct (H1 s) as (n1 & E1 & HQ1).
  destruct (m s) as [[a | e] s1]; simpl in *.
  - destruct (H2 a s1) as (n2 & E2 & HQ2).
    exists (n1 ++ n2)%list; rewrite E2, E1, app_assoc.
    split; [reflexivity | right; eauto 6].
  - exists n1; split; [exact E1 | left; eauto].
Qed.

Lemma emits_wrap {A} message (m : M A) (Q : Res A -> History -> Prop) :
  emits m Q -> (forall e new, Q (Err e) new -> Q (Err (Wrap e message)) new) ->
  emits (wrap message m) Q.
Proof.
  intros G H s; unfold wrap.
  destruct (G s) as (new & E & HQ).
  destruct (m s) as [[a | e] s1]; exists new; simpl in *; auto.
Qed.

Lemma emits_run [A] [m : M A] [Q s r s'] :
  emits m Q -> m s = (r, s') ->
  exists new, log s' = (log s ++ new)%list /\ Q r new.
Proof. intros G E; specialize (G s); rewrite E in G; exact G. Qed.

Lemma grows_run [A P] [m : M A] [s r s'] :
  grows P m -> m s = (r, s') ->
  exists new, log s' = (log s ++ new)%list /\ forallb P new = true.
Proof. intros G E; specialize (G s); rewrite E in G; exact G. Qed.

Lemma emits_appended {A} (m : M A) Q s : emits m Q -> Q (fst (m s)) (appended m s).
Proof.
  intros G; destruct (G s) as (new & E & HQ).
  rewrite (appended_app m s E); exact HQ.
Qed.

Section Loop.

Context {K : Constants} (env : Collaborators).

(** The loop only cherry-picks and logs. *)
Lemma cherryPickFrom_grows P cmts n :
  (forall c out, replayStep (mkEntry c out) = true -> P (mkEntry c out) = true) ->
  grows P (cherryPickFrom env cmts n).
Proof.
  intros HP; induction n as [| i IH]; simpl.
  - apply grows_ret.
  - destruct (nth_error cmts i) as [cmt |]; [| apply grows_fail].
    grows_step; [grows_step |].
    grows_step; [apply grows_callO; intros; apply HP; reflexivity |].
    grows_step; [| exact IH].
    grows_step; [grows_auto | apply grows_callT; intros; apply HP; reflexivity].
Qed.

End Loop.

(** [grows P m] for a part [m] of the command and a concrete [P]: unfold
    the part down to its calls. *)
Ltac unfold_command :=
  unfold setupGitConfig, cloneDevEnv, determineVersionStreamConfig,
    defaultVersionStreamConfig, upgradeAvailable, checkoutNewBranch,
    determineBootConfigURL, updateBootConfig, removeTmpDir, cloneBootConfig,
    bootConfigRef, cherryPickCommits, excludeFiles, updateVersionStreamRef,
    loadRequirementsConfig, raisePR, gitProvider, pipelineUserAuth,
    deleteLocalBranch.

Ltac grows_loop :=
  apply cherryPickFrom_grows;
  let c := fresh "c" in
  let H := fresh "H" in
  intros c ? H; destruct c; try discriminate H; reflexivity.

Ltac solve_grows :=
  unfold_command;
  repeat first [ grows_step
               | match goal with
                 | |- grows _ (cherryPickFrom _ _ _) => grows_loop
                 end ].

(** ** The orchestrator *)

Lemma bind_getDir {B} (k : string -> M B) s : bind getDir k s = k (Dir (opts s)) s.
Proof. reflexivity. Qed.

Lemma quiet_no_commit l :
  forallb quiet l = true ->
  existsb commitMade l = false /\ existsb prRaised l = false.
Proof.
  induction l as [| e l IH]; simpl; [auto |].
  intros H; apply andb_prop in H as [Q H].
  destruct (IH H) as [-> ->].
  destruct e as [[] []]; try discriminate Q; auto.
Qed.

Section Orchestrator.

Context {K : Constants} (env : Collaborators).

(** The steps of [Run] up to the availability check. *)
Lemma Run_until_check s s1 s2 vs s3 sha s4 :
  setupGitConfig env (Dir (opts s)) s = (Ok tt, s1) ->
  (if Dir (opts s1) =? "" then cloneDevEnv env else ret tt) s1 = (Ok tt, s2) ->
  determineVersionStreamConfig env s2 = (Ok vs, s3) ->
  upgradeAvailable env (URL vs) (Ref vs) "master" s3 = (Ok sha, s4) ->
  Run env s =
  (if sha =? "" then ret tt
   else
     localBranch <- wrap "failed to checkout upgrade_branch" (checkoutNewBranch env) ;;
     bootConfigURL <-
       wrap "failed to determine boot configuration URL"
         (determineBootConfigURL (URL vs)) ;;
     wrap "failed to update boot configuration"
       (updateBootConfig env (URL vs) (Ref vs) bootConfigURL sha) ;;
     wrap "failed to update version stream ref" (updateVersionStreamRef env sha) ;;
     wrap "failed to raise pr" (raisePR env) ;;
     wrap ("failed to delete local branch " ++ localBranch)
       (deleteLocalBranch env localBranch)) s4.
Proof.
  intros H1 H2 H3 H4; unfold Run.
  rewrite bind_getDir.
  erewrite bind_Ok by (apply wrap_Ok, H1).
  rewrite bind_getDir.
  erewrite bind_Ok
    by (destruct (Dir (opts s1) =? ""); [apply wrap_Ok |]; exact H2).
  erewrite bind_Ok by (apply wrap_Ok, H3).
  erewrite bind_Ok by (apply wrap_Ok, H4).
  reflexivity.
Qed.

Lemma until_check_grows P s s1 s2 vs s3 sha s4 :
  (forall dir, grows P (setupGitConfig env dir)) ->
  grows P (cloneDevEnv env) ->
  grows P (determineVersionStreamConfig env) ->
  (forall url ref, grows P (upgradeAvailable env url ref "master")) ->
  setupGitConfig env (Dir (opts s)) s = (Ok tt, s1) ->
  (if Dir (opts s1) =? "" then cloneDevEnv env else ret tt) s1 = (Ok tt, s2) ->
  determineVersionStreamConfig env s2 = (Ok vs, s3) ->
  upgradeAvailable env (URL vs) (Ref vs) "master" s3 = (Ok sha, s4) ->
  exists new, log s4 = (log s ++ new)%list /\ forallb P new = true.
Proof.
  intros G1 G2 G3 G4 H1 H2 H3 H4.
  destruct (grows_run (G1 _) H1) as (n1 & E1 & F1).
  assert (G2' : grows P (if Dir (opts s1) =? "" then cloneDevEnv env else ret tt))
    by (destruct (_ =? _); [exact G2 | apply grows_ret]).
  destruct (grows_run G2' H2) as (n2 & E2 & F2).
  destruct (grows_run G3 H3) as (n3 & E3 & F3).
  destruct (grows_run (G4 _ _) H4) as (n4 & E4 & F4).
  exists (n1 ++ n2 ++ n3 ++ n4)%list; split.
  - rewrite E4, E3, E2, E1, <- !app_assoc; reflexivity.
  - rewrite !forallb_app, F1, F2, F3, F4; reflexivity.
Qed.

(** C7.  When the availability check reports no candidate commit (the
    empty sha, no error), [Run] ends there without an error.  All it has
    done are cluster and identity lookups, the optional clone of the dev
    environment, reads of the requirements file and of the version
    stream, and log lines: no branch was created or checked out, nothing
    was saved or committed, no pull request was raised. *)
Theorem Run_no_upgrade s s1 s2 vs s3 s4 :
  setupGitConfig env (Dir (opts s)) s = (Ok tt, s1) ->
  (if Dir (opts s1) =? "" then cloneDevEnv env else ret tt) s1 = (Ok tt, s2) ->
  determineVersionStreamConfig env s2 = (Ok vs, s3) ->
  upgradeAvailable env (URL vs) (Ref vs) "master" s3 = (Ok "", s4) ->
  Run env s = (Ok tt, s4) /\
  forallb quiet (appended (Run env) s) = true /\
  existsb commitMade (appended (Run env) s) = false /\
  existsb prRaised (appended (Run env) s) = false.
Proof.
  intros H1 H2 H3 H4.
  assert (E : Run env s = (Ok tt, s4))
    by (rewrite (Run_until_check s H1 H2 H3 H4); reflexivity).
  destruct (@until_check_grows quiet s s1 s2 vs s3 "" s4) as (new & L & F);
    [ intros; solve_grows | solve_grows | solve_grows | intros; solve_grows
    | assumption .. | ].
  rewrite (appended_app (Run env) s (new := new)) by (rewrite E; exact L).
  split; [exact E |]. split; [exact F |].
  apply quiet_no_commit, F.
Qed.

End Orchestrator.

(** ** Cleanup of the working branch *)

Lemma beforeCleanup_not_delete l :
  forallb beforeCleanup l = true -> existsb isDeleteLocalBranch l = false.
Proof.
  induction l as [| e l IH]; simpl; [reflexivity |].
  unfold beforeCleanup at 1.
  intros H; apply andb_prop in H as [H1 H2]; apply andb_prop in H1 as [H1 _].
  apply negb_true_iff in H1; rewrite H1, IH; auto.
Qed.

Lemma beforeCleanup_not_raised l :
  forallb beforeCleanup l = true -> existsb prRaised l = false.
Proof.
  induction l as [| e l IH]; simpl; [reflexivity |].
  unfold beforeCleanup at 1.
  intros H; apply andb_prop in H as [H1 H2]; apply andb_prop in H1 as [_ H1].
  apply negb_true_iff in H1; rewrite H1, IH; auto.
Qed.

Lemma raised_not_delete e : prRaised e = true -> isDeleteLocalBranch e = false.
Proof.
  unfold prRaised, isDeleteLocalBranch; destruct (call e); auto; discriminate.
Qed.

Lemma existsb_middle [A] [f : A -> bool] l1 [x] l2 :
  f x = true -> existsb f (l1 ++ x :: l2)%list = true.
Proof. intros H; rewrite existsb_app; simpl; rewrite H, orb_true_r; reflexivity. Qed.

(** In a history of that shape a deletion comes last, right after the
    successful checkout of [master], after the pull request was raised,
    and it deletes the branch that was created. *)
Lemma cleanupShape_delete new l1 x l2 :
  cleanupShape new -> new = (l1 ++ x :: l2)%list -> isDeleteLocalBranch x = true ->
  l2 = [] /\
  exists l0 dir branch,
    l1 = (l0 ++ [mkEntry (Checkout dir "master") None])%list /\
    call x = DeleteLocalBranch dir branch /\
    existsb prRaised l0 = true /\
    exists dir', In (mkEntry (CreateBranch dir' branch) None) l0.
Proof.
  intros [H | (pre & push & tail & branch & E & HP & HC & HR & dir & HT)] -> D.
  - apply beforeCleanup_not_delete in H.
    rewrite (existsb_middle _ _ D) in H; discriminate.
  - assert (N : existsb isDeleteLocalBranch (pre ++ [push])%list = false).
    { rewrite existsb_app; simpl.
      rewrite (beforeCleanup_not_delete _ HP), (raised_not_delete _ HR); reflexivity. }
    destruct HT as [(e & ->) | (out & ->)].
    + change (pre ++ [push; mkEntry (Checkout dir "master") (Some e)])%list
        with (pre ++ [push] ++ [mkEntry (Checkout dir "master") (Some e)])%list in E.
      rewrite app_assoc in E.
      apply split_at_last in E as [(_ & _ & ->) | (l2' & _ & E)]; [discriminate D |].
      rewrite E, (existsb_middle _ _ D) in N; discriminate.
    + change (pre ++ [push; mkEntry (Checkout dir "master") None;
                      mkEntry (DeleteLocalBranch dir branch) out])%list
        with (pre ++ [push; mkEntry (Checkout dir "master") None]
                  ++ [mkEntry (DeleteLocalBranch dir branch) out])%list in E.
      rewrite app_assoc in E.
      apply split_at_last in E as [(-> & -> & ->) | (l2' & _ & E)].
      * split; [reflexivity |].
        exists (pre ++ [push])%list, dir, branch.
        rewrite <- app_assoc; repeat split.
        -- apply existsb_middle, HR.
        -- destruct HC as (dir' & HC); exists dir'; apply in_or_app; auto.
      * change (pre ++ [push; mkEntry (Checkout dir "master") None])%list
          with (pre ++ [push] ++ [mkEntry (Checkout dir "master") None])%list in E.
        rewrite app_assoc in E; symmetry in E.
        apply split_at_last in E as [(_ & _ & ->) | (l2'' & _ & E)]; [discriminate D |].
        rewrite E, (existsb_middle _ _ D) in N; discriminate.
Qed.

Lemma cleanupShape_not_raised new :
  cleanupShape new -> existsb prRaised new = false ->
  existsb isDeleteLocalBranch new = false.
Proof.
  intros [H | (pre & push & tail & branch & -> & _ & _ & HR & _)] N.
  - apply beforeCleanup_not_delete, H.
  - rewrite (existsb_middle _ _ HR) in N; discriminate.
Qed.

Lemma cleanupShape_prefix pre new :
  forallb beforeCleanup pre = true -> cleanupShape new -> cleanupShape (pre ++ new)%list.
Proof.
  intros HP [H | (pre' & push & tail & branch & -> & HP' & (dir & HC) & HR & HT)].
  - left; rewrite forallb_app, HP, H; reflexivity.
  - right; exists (pre ++ pre')%list, push, tail, branch.
    rewrite app_assoc, forallb_app, HP, HP'; repeat split; auto.
    exists dir; apply in_or_app; auto.
Qed.

Section Cleanup.

Context {K : Constants} (env : Collaborators).

Lemma raisedLast_prefix r pre new :
  forallb beforeCleanup pre = true -> raisedLast r new -> raisedLast r (pre ++ new)%list.
Proof.
  intros HP; destruct r as [[] | e]; simpl.
  - intros (pre' & push & -> & HP' & HR).
    exists (pre ++ pre')%list, push.
    rewrite app_assoc, forallb_app, HP, HP'; auto.
  - intros H; rewrite forallb_app, HP, H; reflexivity.
Qed.

Lemma raisePR_emits : emits (raisePR env) raisedLast.
Proof.
  unfold raisePR.
  repeat (apply emits_bind_left with (P := beforeCleanup);
          [ solve_grows | intros; assumption | intros; apply raisedLast_prefix; assumption
          | intros ]).
  intros s; unfold wrap, callE; simpl.
  destruct (gits_PushRepoAndCreatePullRequest _ _ _ _ _ _ _ _ _ _) as [e |]; simpl.
  - eexists; split; [reflexivity | reflexivity].
  - eexists; split; [reflexivity |]. exists []; eexists; repeat split.
Qed.

Lemma deleteLocalBranch_emits branch :
  emits (deleteLocalBranch env branch) (fun _ new => cleanupTail branch new).
Proof.
  intros s; unfold deleteLocalBranch; rewrite bind_getDir.
  unfold bind, wrap, callE; simpl.
  destruct (git_Checkout env (log s) (Dir (opts s)) "master") as [e |]; simpl.
  - eexists; split; [reflexivity |]. exists (Dir (opts s)); left; eauto.
  - destruct (git_DeleteLocalBranch _ _ _ _) as [e |]; simpl;
      (eexists; split; [rewrite <- app_assoc; reflexivity |]);
      exists (Dir (opts s)); right; eexists; reflexivity.
Qed.

Lemma checkoutNewBranch_emits : emits (checkoutNewBranch env) createdBranch.
Proof.
  intros s; unfold checkoutNewBranch, createdBranch.
  unfold bind, wrap, callR, callE, getDir, ret; simpl.
  destruct (uuid_NewV4 env (log s)) as [branch | e]; simpl.
  2: { eexists; split; [reflexivity |]; split; [reflexivity | exact I]. }
  destruct (git_CreateBranch _ _ _ _) as [e |]; simpl.
  { eexists; split; [rewrite <- app_assoc; reflexivity |]; split; [reflexivity | exact I]. }
  destruct (git_Checkout _ _ _ _) as [e |]; simpl;
    (eexists; split; [rewrite <- !app_assoc; reflexivity |]); split; try reflexivity;
    try exact I.
  exists (Dir (opts s)); simpl; auto.
Qed.

Lemma cleanupAfter_prefix branch pre new :
  forallb beforeCleanup pre = true -> cleanupAfter branch new ->
  cleanupAfter branch (pre ++ new)%list.
Proof.
  intros HP [H | (pre' & push & tail & -> & HP' & HR & HT)].
  - left; rewrite forallb_app, HP, H; reflexivity.
  - right; exists (pre ++ pre')%list, push, tail.
    rewrite app_assoc, forallb_app, HP, HP'; repeat split; auto.
Qed.

(** The steps of [Run] that follow the creation of the working branch. *)
Lemma afterCheckout_emits vs sha localBranch :
  emits
    (bootConfigURL <-
       wrap "failed to determine boot configuration URL"
         (determineBootConfigURL (URL vs)) ;;
     wrap "failed to update boot configuration"
       (updateBootConfig env (URL vs) (Ref vs) bootConfigURL sha) ;;
     wrap "failed to update version stream ref" (updateVersionStreamRef env sha) ;;
     wrap "failed to raise pr" (raisePR env) ;;
     wrap ("failed to delete local branch " ++ localBranch)
       (deleteLocalBranch env localBranch))
    (fun _ new => cleanupAfter localBranch new).
Proof.
  do 3 (apply emits_bind_left with (P := beforeCleanup);
        [ solve_grows | intros; left; assumption
        | intros; apply cleanupAfter_prefix; assumption
        | intros ]).
  eapply emits_weaken.
  { apply emits_bind with (Q2 := fun _ _ new => cleanupTail localBranch new).
    - apply emits_wrap; [apply raisePR_emits | intros e new H; exact H].
    - intros _. apply emits_wrap; [apply deleteLocalBranch_emits | auto]. }
  simpl; intros r new
    [(e & -> & H) | ([] & n1 & n2 & -> & (pre & push & -> & HP & HR) & HT)].
  - left; exact H.
  - right. exists pre, push, n2.
    rewrite <- app_assoc; repeat split; auto.
Qed.

Lemma Run_emits : emits (Run env) (fun _ new => cleanupShape new).
Proof.
  unfold Run.
  do 6 (apply emits_bind_left with (P := beforeCleanup);
        [ solve_grows | intros; left; assumption
        | intros; apply cleanupShape_prefix; assumption
        | intros ]).
  destruct (_ =? _).
  { apply emits_of_grows with (P := beforeCleanup);
      [solve_grows | intros; left; assumption]. }
  eapply emits_weaken.
  { apply emits_bind with (Q2 := fun branch _ new => cleanupAfter branch new).
    - apply emits_wrap; [apply checkoutNewBranch_emits |].
      intros e new [H _]; split; [exact H | exact I].
    - intros branch; apply afterCheckout_emits. }
  simpl; intros r new
    [(e & -> & H & _) | (branch & n1 & n2 & -> & (HP & dir & HC) & HA)].
  - left; exact H.
  - destruct HA as [H | (pre & push & tail & -> & HP' & HR & HT)].
    + left; rewrite forallb_app, HP, H; reflexivity.
    + right; exists (n1 ++ pre)%list, push, tail, branch.
      rewrite app_assoc, forallb_app, HP, HP'; repeat split; auto.
      exists dir; apply in_or_app; auto.
Qed.

Lemma advance [A] [P] [s sk] [m : M A] [r sk'] :
  (exists n, log sk = (log s ++ n)%list /\ forallb P n = true) ->
  grows P m -> m sk = (r, sk') ->
  exists n, log sk' = (log s ++ n)%list /\ forallb P n = true.
Proof.
  intros (n & E & F) G H.
  destruct (grows_run G H) as (n' & E' & F').
  exists (n ++ n')%list; rewrite E', E, app_assoc, forallb_app, F, F'; auto.
Qed.

Lemma ends_without_delete [s r sk] :
  Run env s = (r, sk) ->
  (exists n, log sk = (log s ++ n)%list /\ existsb isDeleteLocalBranch n = false) ->
  endsIn env s r sk.
Proof.
  intros E (n & L & F); split; [exact E |].
  rewrite (appended_app (Run env) s (new := n)) by (rewrite E; exact L).
  exact F.
Qed.

Lemma ends_before_cleanup [s r sk] :
  Run env s = (r, sk) ->
  (exists n, log sk = (log s ++ n)%list /\ forallb beforeCleanup n = true) ->
  endsIn env s r sk.
Proof.
  intros E (n & L & F); apply (ends_without_delete E).
  exists n; split; [exact L | apply (beforeCleanup_not_delete _ F)].
Qed.

Lemma cloneStep_wrap [s1 r s2] :
  (if Dir (opts s1) =? "" then cloneDevEnv env else ret tt) s1 = (r, s2) ->
  (if Dir (opts s1) =? ""
   then wrap "failed to clone dev environment repo" (cloneDevEnv env)
   else ret tt) s1 =
  (match r with
   | Err e => Err (Wrap e "failed to clone dev environment repo")
   | Ok a => Ok a
   end, s2).
Proof.
  destruct (Dir (opts s1) =? "").
  - unfold wrap; intros ->; destruct r; reflexivity.
  - unfold ret; intros H; inversion H; reflexivity.
Qed.

Lemma deleteLocalBranch_run branch s9 :
  wrap ("failed to delete local branch " ++ branch) (deleteLocalBranch env branch) s9 =
  match git_Checkout env (log s9) (Dir (opts s9)) "master" with
  | Some e =>
      (Err (Wrap (Wrap e "failed to checkout master branch")
              ("failed to delete local branch " ++ branch)),
       note (Checkout (Dir (opts s9)) "master") (Some e) s9)
  | None =>
      match git_DeleteLocalBranch env
              (log (note (Checkout (Dir (opts s9)) "master") None s9))
              (Dir (opts s9)) branch with
      | Some e =>
          (Err (Wrap (Wrap e ("failed to delete local branch " ++ branch))
                  ("failed to delete local branch " ++ branch)),
           note (DeleteLocalBranch (Dir (opts s9)) branch) (Some e)
             (note (Checkout (Dir (opts s9)) "master") None s9))
      | None =>
          (Ok tt,
           note (DeleteLocalBranch (Dir (opts s9)) branch) None
             (note (Checkout (Dir (opts s9)) "master") None s9))
      end
  end.
Proof.
  unfold deleteLocalBranch, wrap, bind, callE, getDir; simpl.
  destruct (git_Checkout env (log s9) (Dir (opts s9)) "master"); [reflexivity |].
  simpl; destruct (git_DeleteLocalBranch _ _ _ _); reflexivity.
Qed.

(** C5.  The cleanup of the working branch and the pull request.

    In every run, a local branch is deleted only as the very last thing,
    right after [master] was checked out successfully and after the pull
    request was raised, and the branch deleted is the working branch that
    the run created; a run in which no pull request is raised deletes no
    branch.

    Step by step: if a step of [Run] fails, up to and including
    [raisePR], then [Run] returns the error of that step (wrapped with
    the message of the step) in the state that step left, and no branch
    has been deleted.  Once [raisePR] has succeeded, [Run] checks out
    [master] in [o.Dir]; if that fails it returns the error and the
    branch is not deleted; else it deletes the working branch that
    [checkoutNewBranch] returned, and returns the outcome of the
    deletion. *)
Theorem Run_cleanup_after_pull_request s :
  let new := appended (Run env) s in
  (forall l1 x l2, new = (l1 ++ x :: l2)%list -> isDeleteLocalBranch x = true ->
     l2 = [] /\
     exists l0 dir branch,
       l1 = (l0 ++ [mkEntry (Checkout dir "master") None])%list /\
       call x = DeleteLocalBranch dir branch /\
       existsb prRaised l0 = true /\
       exists dir', In (mkEntry (CreateBranch dir' branch) None) l0) /\
  (existsb prRaised new = false -> existsb isDeleteLocalBranch new = false) /\
  (forall e s1, setupGitConfig env (Dir (opts s)) s = (Err e, s1) ->
     endsIn env s (Err (Wrap e "failed to setup git config")) s1) /\
  (forall s1, setupGitConfig env (Dir (opts s)) s = (Ok tt, s1) ->
   (forall e s2,
      (if Dir (opts s1) =? "" then cloneDevEnv env else ret tt) s1 = (Err e, s2) ->
      endsIn env s (Err (Wrap e "failed to clone dev environment repo")) s2) /\
   (forall s2,
      (if Dir (opts s1) =? "" then cloneDevEnv env else ret tt) s1 = (Ok tt, s2) ->
    (forall e s3, determineVersionStreamConfig env s2 = (Err e, s3) ->
       endsIn env s (Err (Wrap e "failed to get requirements version stream")) s3) /\
    (forall vs s3, determineVersionStreamConfig env s2 = (Ok vs, s3) ->
     (forall e s4, upgradeAvailable env (URL vs) (Ref vs) "master" s3 = (Err e, s4) ->
        endsIn env s (Err (Wrap e "failed to get check for available update")) s4) /\
     (forall sha s4, upgradeAvailable env (URL vs) (Ref vs) "master" s3 = (Ok sha, s4) ->
      (sha = "" -> endsIn env s (Ok tt) s4) /\
      (sha <> "" ->
       (forall e s5, checkoutNewBranch env s4 = (Err e, s5) ->
          endsIn env s (Err (Wrap e "failed to checkout upgrade_branch")) s5) /\
       (forall branch s5, checkoutNewBranch env s4 = (Ok branch, s5) ->
        (forall e s6, determineBootConfigURL (URL vs) s5 = (Err e, s6) ->
           endsIn env s
             (Err (Wrap e "failed to determine boot configuration URL")) s6) /\
        (forall bootConfigURL s6,
           determineBootConfigURL (URL vs) s5 = (Ok bootConfigURL, s6) ->
         (forall e s7,
            updateBootConfig env (URL vs) (Ref vs) bootConfigURL sha s6 = (Err e, s7) ->
            endsIn env s (Err (Wrap e "failed to update boot configuration")) s7) /\
         (forall s7,
            updateBootConfig env (URL vs) (Ref vs) bootConfigURL sha s6 = (Ok tt, s7) ->
          (forall e s8, updateVersionStreamRef env sha s7 = (Err e, s8) ->
             endsIn env s (Err (Wrap e "failed to update version stream ref")) s8) /\
          (forall s8, updateVersionStreamRef env sha s7 = (Ok tt, s8) ->
           (forall e s9, raisePR env s8 = (Err e, s9) ->
              endsIn env s (Err (Wrap e "failed to raise pr")) s9) /\
           (forall s9, raisePR env s8 = (Ok tt, s9) ->
              let dir := Dir (opts s9) in
              let message := "failed to delete local branch " ++ branch in
              let checkedOut := note (Checkout dir "master") None s9 in
              match git_Checkout env (log s9) dir "master" with
              | Some e =>
                  endsIn env s
                    (Err (Wrap (Wrap e "failed to checkout master branch") message))
                    (note (Checkout dir "master") (Some e) s9)
              | None =>
                  match git_DeleteLocalBranch env (log checkedOut) dir branch with
                  | Some e =>
                      Run env s =
                        (Err (Wrap (Wrap e message) message),
                         note (DeleteLocalBranch dir branch) (Some e) checkedOut)
                  | None =>
                      Run env s =
                        (Ok tt, note (DeleteLocalBranch dir branch) None checkedOut)
                  end
              end)))))))))).
Proof.
  intros new.
  assert (H : cleanupShape new) by apply (@emits_appended _ (Run env) _ s Run_emits).
  split; [intros l1 x l2; apply cleanupShape_delete, H |].
  split; [apply cleanupShape_not_raised, H |].
  clear H new.
  assert (E : Run env s = Run env s) by reflexivity.
  unfold Run at 2 in E; rewrite bind_getDir in E.
  assert (A : exists n, log s = (log s ++ n)%list /\ forallb beforeCleanup n = true)
    by (exists []; rewrite app_nil_r; auto).
  assert (G1 : grows beforeCleanup (setupGitConfig env (Dir (opts s)))) by solve_grows.
  split.
  { intros e s1 H1.
    erewrite bind_Err in E by (apply wrap_Err, H1).
    apply (ends_before_cleanup E), (advance A G1 H1). }
  intros s1 H1.
  erewrite bind_Ok in E by (apply wrap_Ok, H1).
  apply (advance A G1) in H1; clear A G1; rename H1 into A.
  rewrite bind_getDir in E.
  assert (G2 : grows beforeCleanup
                 (if Dir (opts s1) =? "" then cloneDevEnv env else ret tt))
    by (destruct (_ =? _); solve_grows).
  split.
  { intros e s2 H2.
    erewrite bind_Err in E by (apply (cloneStep_wrap H2)).
    apply (ends_before_cleanup E), (advance A G2 H2). }
  intros s2 H2.
  erewrite bind_Ok in E by (apply (cloneStep_wrap H2)).
  apply (advance A G2) in H2; clear A G2; rename H2 into A.
  assert (G3 : grows beforeCleanup (determineVersionStreamConfig env)) by solve_grows.
  split.
  { intros e s3 H3.
    erewrite bind_Err in E by (apply wrap_Err, H3).
    apply (ends_before_cleanup E), (advance A G3 H3). }
  intros vs s3 H3.
  erewrite bind_Ok in E by (apply wrap_Ok, H3).
  apply (advance A G3) in H3; clear A G3; rename H3 into A.
  assert (G4 : grows beforeCleanup (upgradeAvailable env (URL vs) (Ref vs) "master"))
    by solve_grows.
  split.
  { intros e s4 H4.
    erewrite bind_Err in E by (apply wrap_Err, H4).
    apply (ends_before_cleanup E), (advance A G4 H4). }
  intros sha s4 H4.
  erewrite bind_Ok in E by (apply wrap_Ok, H4).
  apply (advance A G4) in H4; clear A G4; rename H4 into A.
  split.
  { intros ->; apply (ends_before_cleanup E A). }
  intros Hsha; apply String.eqb_neq in Hsha; rewrite Hsha in E.
  assert (G5 : grows beforeCleanup (checkoutNewBranch env)) by solve_grows.
  split.
  { intros e s5 H5.
    erewrite bind_Err in E by (apply wrap_Err, H5).
    apply (ends_before_cleanup E), (advance A G5 H5). }
  intros branch s5 H5.
  erewrite bind_Ok in E by (apply wrap_Ok, H5).
  apply (advance A G5) in H5; clear A G5; rename H5 into A.
  assert (G6 : grows beforeCleanup (determineBootConfigURL (URL vs))) by solve_grows.
  split.
  { intros e s6 H6.
    erewrite bind_Err in E by (apply wrap_Err, H6).
    apply (ends_before_cleanup E), (advance A G6 H6). }
  intros bootConfigURL s6 H6.
  erewrite bind_Ok in E by (apply wrap_Ok, H6).
  apply (advance A G6) in H6; clear A G6; rename H6 into A.
  assert (G7 : grows beforeCleanup
                 (updateBootConfig env (URL vs) (Ref vs) bootConfigURL sha))
    by solve_grows.
  split.
  { intros e s7 H7.
    erewrite bind_Err in E by (apply wrap_Err, H7).
    apply (ends_before_cleanup E), (advance A G7 H7). }
  intros s7 H7.
  erewrite bind_Ok in E by (apply wrap_Ok, H7).
  apply (advance A G7) in H7; clear A G7; rename H7 into A.
  assert (G8 : grows beforeCleanup (updateVersionStreamRef env sha)) by solve_grows.
  split.
  { intros e s8 H8.
    erewrite bind_Err in E by (apply wrap_Err, H8).
    apply (ends_before_cleanup E), (advance A G8 H8). }
  intros s8 H8.
  erewrite bind_Ok in E by (apply wrap_Ok, H8).
  apply (advance A G8) in H8; clear A G8; rename H8 into A.
  destruct A as (n & L & F).
  split.
  { intros e s9 H9.
    erewrite bind_Err in E by (apply wrap_Err, H9).
    apply (ends_before_cleanup E).
    destruct (emits_run raisePR_emits H9) as (n9 & L9 & F9); simpl in F9.
    exists (n ++ n9)%list; rewrite L9, L, app_assoc, forallb_app, F, F9; auto. }
  intros s9 H9.
  erewrite bind_Ok in E by (apply wrap_Ok, H9).
  cbv zeta.
  rewrite deleteLocalBranch_run in E.
  destruct (git_Checkout env (log s9) (Dir (opts s9)) "master") as [e |].
  - apply (ends_without_delete E).
    destruct (emits_run raisePR_emits H9) as (n9 & L9 & Q9); simpl in Q9.
    destruct Q9 as (pre & push & -> & FP & HR).
    exists (n ++ (pre ++ [push]) ++ [mkEntry (Checkout (Dir (opts s9)) "master") (Some e)])%list.
    split.
    + simpl; rewrite L9, L, <- !app_assoc; reflexivity.
    + rewrite !existsb_app, (beforeCleanup_not_delete _ F),
        (beforeCleanup_not_delete _ FP); simpl.
      rewrite (raised_not_delete _ HR); reflexivity.
  - destruct (git_DeleteLocalBranch _ _ _ _); exact E.
Qed.

End Cleanup.

(** ** A version stream upgrade without a boot config upgrade *)

Section NoConfigUpgrade.

Context {K : Constants} (env : Collaborators).

(** With both revisions at the same commit, [updateBootConfig] stops after
    the comparison; only the deferred removal of the clone follows. *)
Lemma updateBootConfig_same_commit
  versionStreamURL versionStreamRef bootConfigURL upgradeVersionSha
  s cloneDir s1 cmt currentVersion s2 upgradeVersion s3 :
  cloneBootConfig env bootConfigURL s = (Ok cloneDir, s1) ->
  bootConfigRef env cloneDir versionStreamURL versionStreamRef bootConfigURL s1
    = (Ok (cmt, currentVersion), s2) ->
  bootConfigRef env cloneDir versionStreamURL upgradeVersionSha bootConfigURL s2
    = (Ok (cmt, upgradeVersion), s3) ->
  updateBootConfig env versionStreamURL versionStreamRef bootConfigURL
    upgradeVersionSha s =
  (Ok tt,
   snd (removeTmpDir env cloneDir
          (note (Infof "No boot config upgrade available") None s3))).
Proof.
  intros H1 H2 H3; unfold updateBootConfig.
  erewrite bind_Ok by (apply wrap_Ok, H1).
  unfold defer.
  erewrite bind_Ok by (apply wrap_Ok, H2); cbv beta iota.
  erewrite bind_Ok by (apply wrap_Ok, H3); cbv beta iota.
  rewrite String.eqb_refl; reflexivity.
Qed.

Lemma updateBootConfig_same_commit_grows P
  versionStreamURL versionStreamRef bootConfigURL upgradeVersionSha
  s cloneDir s1 cmt currentVersion s2 upgradeVersion s3 :
  (forall e, noReplay e = true -> P e = true) ->
  cloneBootConfig env bootConfigURL s = (Ok cloneDir, s1) ->
  bootConfigRef env cloneDir versionStreamURL versionStreamRef bootConfigURL s1
    = (Ok (cmt, currentVersion), s2) ->
  bootConfigRef env cloneDir versionStreamURL upgradeVersionSha bootConfigURL s2
    = (Ok (cmt, upgradeVersion), s3) ->
  exists new,
    log (snd (updateBootConfig env versionStreamURL versionStreamRef bootConfigURL
                upgradeVersionSha s)) = (log s ++ new)%list /\
    forallb P new = true.
Proof.
  intros HP H1 H2 H3.
  rewrite (updateBootConfig_same_commit _ _ _ _ _ H1 H2 H3); simpl.
  assert (G : forall f : Entry -> bool, (forall e, f e = true -> P e = true) ->
              forall l, forallb f l = true -> forallb P l = true).
  { intros f Hf l; rewrite !forallb_forall; auto. }
  assert (G1 : grows noReplay (cloneBootConfig env bootConfigURL)) by solve_grows.
  assert (G2 : forall ref, grows noReplay
                 (bootConfigRef env cloneDir versionStreamURL ref bootConfigURL))
    by (intros; solve_grows).
  assert (G3 : grows noReplay (removeTmpDir env cloneDir)) by solve_grows.
  destruct (grows_run G1 H1) as (n1 & E1 & F1).
  destruct (grows_run (G2 _) H2) as (n2 & E2 & F2).
  destruct (grows_run (G2 _) H3) as (n3 & E3 & F3).
  destruct (G3 (note (Infof "No boot config upgrade available") None s3))
    as (n4 & E4 & F4).
  exists (n1 ++ n2 ++ n3 ++ [mkEntry (Infof "No boot config upgrade available") None]
             ++ n4)%list; split.
  - rewrite E4; simpl; rewrite E3, E2, E1, <- !app_assoc; reflexivity.
  - apply (G noReplay HP).
    rewrite !forallb_app, F1, F2, F3, F4; reflexivity.
Qed.

(** When [updateVersionStreamRef] succeeds on a requirements file whose
    ref differs from the target, it has saved the file with the new ref
    and committed it. *)
Lemma updateVersionStreamRef_saved s upgradeRef requirements file s1 s' :
  loadRequirementsConfig env s = (Ok (requirements, file), s1) ->
  Ref (VersionStream requirements) <> upgradeRef ->
  updateVersionStreamRef env upgradeRef s = (Ok tt, s') ->
  log s' =
  (log s1 ++
   [mkEntry (Infof ("Upgrading version stream ref to " ++ upgradeRef)) None;
    mkEntry (SaveConfig (setVersionStreamRef requirements upgradeRef) file) None;
    mkEntry (AddCommitFiles (Dir (opts s1)) "feat: upgrade version stream" [file])
            None])%list.
Proof.
  intros L R; unfold updateVersionStreamRef.
  erewrite bind_Ok by (apply wrap_Ok, L).
  apply String.eqb_neq in R; cbv beta iota; rewrite R; simpl.
  unfold bind, logInfof, callT, wrap, callE, getDir; simpl.
  destruct (requirements_SaveConfig _ _ _ _); simpl; [discriminate |].
  destruct (git_AddCommitFiles _ _ _ _ _); simpl; [discriminate |].
  intros E; inversion E; simpl.
  rewrite <- !app_assoc; reflexivity.
Qed.

(** C3, as amended.  Let a run find a version stream upgrade, create its
    working branch, and find both boot config revisions at the same
    commit.  Then [updateBootConfig] succeeds without any part of a
    replay, and the run goes on with [updateVersionStreamRef], [raisePR]
    and [deleteLocalBranch]: nothing is replayed in the whole run, and if
    the run succeeds, the pull request has been raised and, provided the
    ref of the requirements file is another one than the target, the
    file has been saved with the target as its ref and committed. *)
Theorem Run_no_config_upgrade
  s s1 s2 vs s3 sha s4 branch s5 bootURL s6 cloneDir s7 cmt v1 s8 v2 s9 :
  setupGitConfig env (Dir (opts s)) s = (Ok tt, s1) ->
  (if Dir (opts s1) =? "" then cloneDevEnv env else ret tt) s1 = (Ok tt, s2) ->
  determineVersionStreamConfig env s2 = (Ok vs, s3) ->
  upgradeAvailable env (URL vs) (Ref vs) "master" s3 = (Ok sha, s4) ->
  sha <> "" ->
  checkoutNewBranch env s4 = (Ok branch, s5) ->
  determineBootConfigURL (URL vs) s5 = (Ok bootURL, s6) ->
  cloneBootConfig env bootURL s6 = (Ok cloneDir, s7) ->
  bootConfigRef env cloneDir (URL vs) (Ref vs) bootURL s7 = (Ok (cmt, v1), s8) ->
  bootConfigRef env cloneDir (URL vs) sha bootURL s8 = (Ok (cmt, v2), s9) ->
  let update := updateBootConfig env (URL vs) (Ref vs) bootURL sha in
  let s10 := snd (update s6) in
  fst (update s6) = Ok tt /\
  forallb noReplay (appended update s6) = true /\
  Run env s =
    (wrap "failed to update version stream ref" (updateVersionStreamRef env sha) ;;
     wrap "failed to raise pr" (raisePR env) ;;
     wrap ("failed to delete local branch " ++ branch)
       (deleteLocalBranch env branch)) s10 /\
  forallb noReplay (appended (Run env) s) = true /\
  (fst (Run env s) = Ok tt ->
     existsb prRaised (appended (Run env) s) = true /\
     forall requirements file sl,
       loadRequirementsConfig env s10 = (Ok (requirements, file), sl) ->
       Ref (VersionStream requirements) <> sha ->
       In (mkEntry (SaveConfig (setVersionStreamRef requirements sha) file) None)
          (appended (Run env) s) /\
       In (mkEntry (AddCommitFiles (Dir (opts sl)) "feat: upgrade version stream" [file])
                   None)
          (appended (Run env) s)).
Proof.
  intros H1 H2 H3 H4 Hsha H5 H6 H7 H8 H9 update s10.
  pose proof (updateBootConfig_same_commit _ _ _ _ _ H7 H8 H9) as U.
  fold update in U.
  assert (U1 : fst (update s6) = Ok tt) by (rewrite U; reflexivity).
  destruct (updateBootConfig_same_commit_grows noReplay _ _ _ _ _ (fun e H => H) H7 H8 H9)
    as (nU & EU & FU).
  fold update in EU; fold s10 in EU.
  set (rest := wrap "failed to update version stream ref" (updateVersionStreamRef env sha) ;;
               wrap "failed to raise pr" (raisePR env) ;;
               wrap ("failed to delete local branch " ++ branch)
                 (deleteLocalBranch env branch)).
  assert (R : Run env s = rest s10).
  { rewrite (@Run_until_check K env s s1 s2 vs s3 sha s4 H1 H2 H3 H4).
    apply String.eqb_neq in Hsha; rewrite Hsha.
    erewrite bind_Ok by (apply wrap_Ok, H5).
    erewrite bind_Ok by (apply wrap_Ok, H6).
    erewrite bind_Ok
      by (apply wrap_Ok; fold update; rewrite (surjective_pairing (update s6)), U1;
          reflexivity).
    reflexivity. }
  (* the history up to the end of [updateBootConfig] *)
  destruct (@until_check_grows K env noReplay s s1 s2 vs s3 sha s4) as (n4 & E4 & F4); auto;
    try (intros; solve_grows); try solve_grows.
  assert (G5 : grows noReplay (checkoutNewBranch env)) by solve_grows.
  assert (G6 : grows noReplay (determineBootConfigURL (URL vs))) by solve_grows.
  destruct (grows_run G5 H5) as (n5 & E5 & F5).
  destruct (grows_run G6 H6) as (n6 & E6 & F6).
  assert (E10 : log s10 = (log s ++ n4 ++ n5 ++ n6 ++ nU)%list)
    by (rewrite EU, E6, E5, E4, <- !app_assoc; reflexivity).
  assert (F10 : forallb noReplay (n4 ++ n5 ++ n6 ++ nU) = true)
    by (rewrite !forallb_app, F4, F5, F6, FU; reflexivity).
  (* the rest of the run *)
  assert (GR : grows noReplay rest) by (unfold rest; solve_grows).
  destruct (GR s10) as (nR & ER & FR).
  assert (A : appended (Run env) s = ((n4 ++ n5 ++ n6 ++ nU) ++ nR)%list).
  { apply appended_app; rewrite R, ER, E10, <- !app_assoc; reflexivity. }
  split; [exact U1 |].
  split; [rewrite (appended_app update s6 EU); exact FU |].
  split; [exact R |].
  split; [rewrite A, forallb_app, F10, FR; reflexivity |].
  rewrite A, R; intros OK.
  destruct (updateVersionStreamRef env sha s10) as [[[] | e] sU] eqn:EV.
  2: { unfold rest in OK; erewrite bind_Err in OK by (apply wrap_Err, EV).
       discriminate OK. }
  destruct (raisePR env sU) as [[[] | e] sP] eqn:EPR.
  2: { unfold rest in OK; erewrite bind_Ok in OK by (apply wrap_Ok, EV).
       erewrite bind_Err in OK by (apply wrap_Err, EPR); discriminate OK. }
  assert (RD : rest s10 =
               wrap ("failed to delete local branch " ++ branch)
                 (deleteLocalBranch env branch) sP).
  { unfold rest; erewrite bind_Ok by (apply wrap_Ok, EV).
    erewrite bind_Ok by (apply wrap_Ok, EPR); reflexivity. }
  destruct (emits_run (raisePR_emits env) EPR) as (nP & EP & QP).
  simpl in QP; destruct QP as (pre & push & -> & _ & HR).
  assert (GD : grows noReplay (wrap ("failed to delete local branch " ++ branch)
                                 (deleteLocalBranch env branch))) by solve_grows.
  destruct (GD sP) as (nD & ED & _).
  assert (GV : grows noReplay (updateVersionStreamRef env sha)) by solve_grows.
  destruct (grows_run GV EV) as (nV & EVl & _).
  rewrite RD, ED, EP, EVl, <- !app_assoc in ER; apply app_inv_head in ER; subst nR.
  split.
  - rewrite existsb_app; apply orb_true_intro; right.
    rewrite existsb_app; apply orb_true_intro; right.
    apply existsb_middle, HR.
  - intros requirements file sl L D.
    pose proof (updateVersionStreamRef_saved s10 L D EV) as S.
    destruct (grows_run (@loadRequirementsConfig_grows env (fun _ => true)
                           (fun _ _ _ => eq_refl)) L) as (nL & EL & _).
    rewrite EL, EVl, <- !app_assoc in S; apply app_inv_head in S; subst nV.
    split; apply in_or_app; right; apply in_or_app; left;
      apply in_or_app; right; simpl; auto.
Qed.

End NoConfigUpgrade.

(** ** The properties on concrete runs *)

Section Runs.

#[local] Existing Instance sampleConstants.

(** C1, as stated, fails.  The requirements file pins the version stream
    by the abbreviated id [2367726d02b8c]; in the clone of the version
    stream that id and [master] denote the same commit, and yet
    [upgradeAvailable] reports that commit as an upgrade. *)
Lemma upgradeAvailable_same_commit_is_upgrade :
  let w := fakeWorld pinnedByShortId in
  let s := start inClone in
  let h := log (note (CloneJXVersionsRepo jxVersions "master") None s) in
  o_CloneJXVersionsRepo w (log s) jxVersions "master" = Ok "/tmp/versions" /\
  git_GetCommitPointedToByTag w h "/tmp/versions" "2367726d02b8c" = (streamS0, None) /\
  git_GetCommitPointedToByTag w h "/tmp/versions" "master" = (streamS0, None) /\
  upgradeAvailable w jxVersions "2367726d02b8c" "master" s <>
    (Ok "", snd (upgradeAvailable w jxVersions "2367726d02b8c" "master" s)) /\
  fst (upgradeAvailable w jxVersions "2367726d02b8c" "master" s) = Ok streamS0.
Proof.
  repeat split; try reflexivity.
  vm_compute; discriminate.
Qed.

(** Pinned at the very commit id of [master]: no upgrade; pinned by the
    abbreviated id: an upgrade. *)
Lemma upgradeAvailable_compares_text_witness :
  let w := fakeWorld upToDate in
  let s := start inClone in
  o_CloneJXVersionsRepo w (log s) jxVersions "master" = Ok "/tmp/versions" /\
  fst (upgradeAvailable w jxVersions streamS0 "master" s) = Ok "" /\
  fst (upgradeAvailable w jxVersions "2367726d02b8c" "master" s) = Ok streamS0.
Proof.
  intros w s.
  split; [reflexivity |].
  split.
  - apply (upgradeAvailable_compares_text w s jxVersions streamS0 "master"
             (versionsDir := "/tmp/versions") (sha := streamS0));
      reflexivity.
  - apply (upgradeAvailable_compares_text w s jxVersions "2367726d02b8c" "master"
             (versionsDir := "/tmp/versions") (sha := streamS0));
      [reflexivity | reflexivity | vm_compute; discriminate].
Defined.

(** The full upgrade: the merge commit in the middle is skipped, the
    replay succeeds. *)
Lemma cherryPickCommits_failure_policy_witness :
  let w := fakeWorld fullUpgrade in
  let s := start inClone in
  git_GetCommits w (log s) "/tmp/jx" configC0 configC1 = Ok [commit3; commitM; commit1] /\
  fst (cherryPickCommits w "/tmp/jx" configC0 configC1 s) = Ok tt.
Proof.
  intros w s.
  split; [reflexivity |].
  destruct (cherryPickCommits_failure_policy w s "/tmp/jx" configC0 configC1
              (cmts := [commit3; commitM; commit1]) eq_refl)
    as (new & E & _ & T & _).
  vm_compute in E; injection E as <-.
  apply T; reflexivity.
Defined.

(** The full upgrade: the range listed as [commit3; commitM; commit1] is
    attempted from [commit1] on. *)
Lemma cherryPickCommits_oldest_first_witness :
  let w := fakeWorld fullUpgrade in
  let s := start inClone in
  git_GetCommits w (log s) "/tmp/jx" configC0 configC1 = Ok [commit3; commitM; commit1] /\
  picks (appended (cherryPickCommits w "/tmp/jx" configC0 configC1) s) =
    ["aaaa111"; "bbbb222"; "cccc333"].
Proof.
  intros w s.
  split; [reflexivity |].
  apply (cherryPickCommits_oldest_first w s "/tmp/jx" configC0 configC1
           (cmts := [commit3; commitM; commit1]) eq_refl);
    reflexivity.
Defined.

(** The full upgrade left [OWNERS] alone: nothing to commit, no error. *)
Lemma excludeFiles_restores_protected_witness :
  let w := fakeWorld fullUpgrade in
  let s := start inClone in
  git_CheckoutCommitFiles w (log s) "env-dev" configC0 ["OWNERS"] = None /\
  fst (excludeFiles w configC0 s) = Ok tt /\
  length (filter commitMade (appended (excludeFiles w configC0) s)) = 0.
Proof.
  intros w s.
  split; [reflexivity |].
  apply (excludeFiles_restores_protected w s configC0 eq_refl)
    with (e := "On branch upgrade: nothing to commit, working tree clean");
    reflexivity.
Defined.

(** An up-to-date clone: the run ends after the availability check. *)
Lemma Run_no_upgrade_witness :
  let w := fakeWorld upToDate in
  let s := start inClone in
  fst (upgradeAvailable w jxVersions streamS0 "master"
         (snd (determineVersionStreamConfig w (snd (setupGitConfig w "env-dev" s)))))
    = Ok "" /\
  fst (Run w s) = Ok tt /\
  forallb quiet (appended (Run w) s) = true.
Proof.
  intros w s.
  split; [reflexivity |].
  set (s1 := snd (setupGitConfig w "env-dev" s)).
  set (s3 := snd (determineVersionStreamConfig w s1)).
  set (s4 := snd (upgradeAvailable w jxVersions streamS0 "master" s3)).
  destruct (Run_no_upgrade w s (s1 := s1) (s2 := s1) (vs := VersionStream (pinnedAt streamS0))
              (s3 := s3) (s4 := s4)) as (E & Q & _);
    try (vm_compute; reflexivity).
  rewrite E; split; [reflexivity | exact Q].
Defined.

(** The version stream moved, the boot config did not: the requirements
    file is saved at [streamS1] and committed, the pull request raised. *)
Lemma Run_no_config_upgrade_witness :
  let w := fakeWorld streamOnly in
  let s := start inClone in
  fst (Run w s) = Ok tt /\
  forallb noReplay (appended (Run w) s) = true /\
  existsb prRaised (appended (Run w) s) = true /\
  In (mkEntry (SaveConfig (pinnedAt streamS1) "env-dev/jx-requirements.yml") None)
     (appended (Run w) s) /\
  In (mkEntry (AddCommitFiles "env-dev" "feat: upgrade version stream"
                 ["env-dev/jx-requirements.yml"]) None)
     (appended (Run w) s).
Proof.
  intros w s.
  set (vs := VersionStream (pinnedAt streamS0)).
  set (boot := "https://github.com/jenkins-x/jenkins-x-boot-config.git").
  set (s1 := snd (setupGitConfig w "env-dev" s)).
  set (s3 := snd (determineVersionStreamConfig w s1)).
  set (s4 := snd (upgradeAvailable w jxVersions streamS0 "master" s3)).
  set (s5 := snd (checkoutNewBranch w s4)).
  set (s6 := snd (determineBootConfigURL jxVersions s5)).
  set (s7 := snd (cloneBootConfig w boot s6)).
  set (s8 := snd (bootConfigRef w "/tmp/jx" jxVersions streamS0 boot s7)).
  set (s9 := snd (bootConfigRef w "/tmp/jx" jxVersions streamS1 boot s8)).
  destruct (Run_no_config_upgrade w s (s1 := s1) (s2 := s1) (vs := vs) (s3 := s3)
              (sha := streamS1) (s4 := s4)
              (branch := "6ba7b810-9dad-41d1-80b4-00c04fd430c8") (s5 := s5)
              (bootURL := boot) (s6 := s6) (cloneDir := "/tmp/jx") (s7 := s7)
              (cmt := configC0) (v1 := "1.0.5") (s8 := s8) (v2 := "1.0.5") (s9 := s9))
    as (_ & _ & _ & N & T);
    try (vm_compute; reflexivity).
  { vm_compute; discriminate. }
  assert (OK : fst (Run w s) = Ok tt) by (vm_compute; reflexivity).
  destruct (T OK) as (P & S).
  split; [exact OK |]. split; [exact N |]. split; [exact P |].
  apply (S (pinnedAt streamS0) "env-dev/jx-requirements.yml"
           (snd (loadRequirementsConfig w
                   (snd (updateBootConfig w jxVersions streamS0 boot streamS1 s6))))).
  - vm_compute; reflexivity.
  - vm_compute; discriminate.
Defined.

(** C3, as stated, fails.  With the version stream given on the command
    line and the requirements file already at the candidate commit, both
    boot config revisions are at the same commit, the run succeeds and
    raises the pull request, but the pinned reference is neither saved
    nor committed. *)
Lemma Run_raises_pull_request_without_commit :
  let w := fakeWorld alreadyAdvanced in
  let s := start fromTag in
  let boot := "https://github.com/jenkins-x/jenkins-x-boot-config.git" in
  fst (bootConfigRef w "/tmp/jx" jxVersions "v1.0.0" boot s) = Ok (configC0, "1.0.5") /\
  fst (bootConfigRef w "/tmp/jx" jxVersions streamS1 boot s) = Ok (configC0, "1.0.5") /\
  In (mkEntry (Infof "No boot config upgrade available") None) (appended (Run w) s) /\
  fst (Run w s) = Ok tt /\
  existsb prRaised (appended (Run w) s) = true /\
  forallb noSaveNoCommit (appended (Run w) s) = true /\
  existsb commitMade (appended (Run w) s) = false.
Proof.
  intros w s boot.
  split; [vm_compute; reflexivity |].
  split; [vm_compute; reflexivity |].
  split; [vm_compute; repeat (first [left; reflexivity | right]) |].
  repeat split; vm_compute; reflexivity.
Qed.

(** The full upgrade raises its pull request and then cleans up: [Run]
    returns no error, and its last two calls are the checkout of [master]
    and the deletion of the working branch.  The same upgrade with a
    commit that does not apply returns the error of [updateBootConfig],
    raises no pull request and deletes no branch. *)
Lemma Run_cleanup_after_pull_request_witness :
  let w := fakeWorld fullUpgrade in
  let w' := fakeWorld conflicting in
  let s := start inClone in
  let branch := "6ba7b810-9dad-41d1-80b4-00c04fd430c8" in
  (exists s9,
     existsb prRaised (log s9) = true /\
     Run w s =
       (Ok tt,
        note (DeleteLocalBranch "env-dev" branch) None
          (note (Checkout "env-dev" "master") None s9))) /\
  (exists s7,
     endsIn w' s
       (Err (Wrap "failed to cherry pick upgrade commits: cherry-picking aaaa111: error: could not apply aaaa111"
               "failed to update boot configuration")) s7) /\
  existsb prRaised (appended (Run w') s) = false /\
  existsb isDeleteLocalBranch (appended (Run w') s) = false.
Proof.
  intros w w' s branch.
  split; [| split; [| split; [vm_compute; reflexivity |]]].
  - destruct (Run_cleanup_after_pull_request w s) as (_ & _ & _ & T).
    set (s1 := snd (setupGitConfig w (Dir (opts s)) s)).
    destruct (T s1) as (_ & T2); [vm_compute; reflexivity |]; clear T.
    set (s3 := snd (determineVersionStreamConfig w s1)).
    destruct (T2 s1) as (_ & T3); [vm_compute; reflexivity |]; clear T2.
    destruct (T3 {| URL := jxVersions; Ref := streamS0 |} s3) as (_ & T4);
      [vm_compute; reflexivity |]; clear T3.
    set (s4 := snd (upgradeAvailable w jxVersions streamS0 "master" s3)).
    destruct (T4 streamS1 s4) as (_ & T5); [vm_compute; reflexivity |]; clear T4.
    destruct T5 as (_ & T6); [vm_compute; discriminate |].
    set (s5 := snd (checkoutNewBranch w s4)).
    destruct (T6 branch s5) as (_ & T7); [vm_compute; reflexivity |]; clear T6.
    set (s6 := snd (determineBootConfigURL jxVersions s5)).
    destruct (T7 bootConfig s6) as (_ & T8); [vm_compute; reflexivity |]; clear T7.
    set (s7 := snd (updateBootConfig w jxVersions streamS0 bootConfig streamS1 s6)).
    destruct (T8 s7) as (_ & T9); [vm_compute; reflexivity |]; clear T8.
    set (s8 := snd (updateVersionStreamRef w streamS1 s7)).
    destruct (T9 s8) as (_ & T10); [vm_compute; reflexivity |]; clear T9.
    set (s9 := snd (raisePR w s8)).
    specialize (T10 s9); cbv zeta in T10.
    exists s9; split; [vm_compute; reflexivity |].
    assert (C : git_Checkout w (log s9) (Dir (opts s9)) "master" = None)
      by (vm_compute; reflexivity).
    assert (D : git_DeleteLocalBranch w
                  (log (note (Checkout (Dir (opts s9)) "master") None s9))
                  (Dir (opts s9)) branch = None)
      by (vm_compute; reflexivity).
    rewrite C, D in T10.
    apply T10; vm_compute; reflexivity.
  - destruct (Run_cleanup_after_pull_request w' s) as (_ & _ & _ & T).
    set (s1 := snd (setupGitConfig w' (Dir (opts s)) s)).
    destruct (T s1) as (_ & T2); [vm_compute; reflexivity |]; clear T.
    set (s3 := snd (determineVersionStreamConfig w' s1)).
    destruct (T2 s1) as (_ & T3); [vm_compute; reflexivity |]; clear T2.
    destruct (T3 {| URL := jxVersions; Ref := streamS0 |} s3) as (_ & T4);
      [vm_compute; reflexivity |]; clear T3.
    set (s4 := snd (upgradeAvailable w' jxVersions streamS0 "master" s3)).
    destruct (T4 streamS1 s4) as (_ & T5); [vm_compute; reflexivity |]; clear T4.
    destruct T5 as (_ & T6); [vm_compute; discriminate |].
    set (s5 := snd (checkoutNewBranch w' s4)).
    destruct (T6 branch s5) as (_ & T7); [vm_compute; reflexivity |]; clear T6.
    set (s6 := snd (determineBootConfigURL jxVersions s5)).
    destruct (T7 bootConfig s6) as (T8 & _); [vm_compute; reflexivity |]; clear T7.
    set (s7 := snd (updateBootConfig w' jxVersions streamS0 bootConfig streamS1 s6)).
    exists s7; apply T8; vm_compute; reflexivity.
  - apply (Run_cleanup_after_pull_request w' s); vm_compute; reflexivity.
Defined.

(** A requirements file without a version stream: the default is
    returned. *)
Lemma determineVersionStreamConfig_complete_witness :
  let w := fakeWorld unpinned in
  let s := start inClone in
  determineVersionStreamConfig w s =
    (Ok {| URL := jxVersions; Ref := "master" |}, snd (determineVersionStreamConfig w s)) /\
  jxVersions <> "" /\ "master" <> "".
Proof.
  intros w s.
  assert (E : determineVersionStreamConfig w s =
              (Ok {| URL := jxVersions; Ref := "master" |},
               snd (determineVersionStreamConfig w s)))
    by (vm_compute; reflexivity).
  split; [exact E |].
  apply (determineVersionStreamConfig_complete w s (vs := {| URL := jxVersions; Ref := "master" |})
           (s' := snd (determineVersionStreamConfig w s)));
    try exact E; vm_compute; discriminate.
Defined.

(** Updating to the ref that is already pinned. *)
Lemma updateVersionStreamRef_already_pinned_witness :
  let w := fakeWorld upToDate in
  let s := start inClone in
  fst (loadRequirementsConfig w s) = Ok (pinnedAt streamS0, "env-dev/jx-requirements.yml") /\
  updateVersionStreamRef w streamS0 s = (Ok tt, snd (loadRequirementsConfig w s)) /\
  forallb noSaveNoCommit (appended (updateVersionStreamRef w streamS0) s) = true.
Proof.
  intros w s.
  split; [reflexivity |].
  apply (updateVersionStreamRef_already_pinned w s
           (requirements := pinnedAt streamS0) (file := "env-dev/jx-requirements.yml"));
    reflexivity.
Defined.

(** [--versions-ref] alone is dropped for the default. *)
Lemma determineVersionStreamConfig_single_option_witness :
  let w := fakeWorld upToDate in
  let s := start refOnly in
  VersionStreamURL (opts s) = "" /\ VersionStreamRef (opts s) <> "" /\
  fst (determineVersionStreamConfig w s) = Ok {| URL := jxVersions; Ref := "master" |} /\
  existsb consultsRequirements (appended (determineVersionStreamConfig w) s) = false.
Proof.
  intros w s.
  assert (H : VersionStreamURL (opts s) = "" /\ VersionStreamRef (opts s) <> "")
    by (split; [reflexivity | vm_compute; discriminate]).
  split; [apply H |]. split; [apply H |].
  destruct (determineVersionStreamConfig_single_option w s (or_introl H))
    as (_ & D & _ & C).
  split; [rewrite D; reflexivity | exact C].
Defined.

End Runs.

(** ** Beyond the claims: the single steps *)

Section MoreSteps.

Context {K : Constants} (env : Collaborators).

(** The boot config URL that [determineBootConfigURL] returns is never
    empty: an empty [--git-url] is replaced by a default, and a default
    that came out empty is an error. *)
Theorem determineBootConfigURL_not_empty versionStreamURL s url s' :
  determineBootConfigURL versionStreamURL s = (Ok url, s') -> url <> "".
Proof.
  unfold determineBootConfigURL, bind, getOptions, fail, ret, logInfof, callT; simpl.
  destruct (GitURL (opts s) =? "") eqn:G.
  - cbv zeta.
    match goal with
    | |- (if ?b =? "" then _ else _) _ = _ -> _ => destruct (b =? "") eqn:B
    end; [discriminate |].
    intros E; inversion E; subst; apply String.eqb_neq, B.
  - intros E; inversion E; subst; apply String.eqb_neq, G.
Qed.

Lemma determineBootConfigURL_unknown versionStreamURL s :
  GitURL (opts s) = "" ->
  versionStreamURL <> DefaultVersionsURL ->
  versionStreamURL <> DefaultCloudBeesVersionsURL ->
  determineBootConfigURL versionStreamURL s =
    (Err "unable to determine default boot config URL", s).
Proof.
  intros G H1 H2.
  unfold determineBootConfigURL, bind, getOptions; simpl.
  apply String.eqb_neq in H1, H2.
  rewrite G, H1, H2; reflexivity.
Qed.

(** Without [--git-url], a version stream that is neither the default
    one nor the CloudBees one has no boot config: the error is returned
    and nothing is called or logged. *)
Theorem determineBootConfigURL_unknown_stream versionStreamURL s :
  GitURL (opts s) = "" ->
  versionStreamURL <> DefaultVersionsURL ->
  versionStreamURL <> DefaultCloudBeesVersionsURL ->
  determineBootConfigURL versionStreamURL s =
    (Err "unable to determine default boot config URL", s) /\
  appended (determineBootConfigURL versionStreamURL) s = [].
Proof.
  intros G H1 H2.
  rewrite (@determineBootConfigURL_unknown versionStreamURL s G H1 H2).
  split; [reflexivity |].
  apply appended_app.
  rewrite (@determineBootConfigURL_unknown versionStreamURL s G H1 H2), app_nil_r.
  reflexivity.
Qed.

(** With no option given, a requirements file that was loaded but does
    not exist on disk is an error of [determineVersionStreamConfig]:
    whatever reference was loaded, it is not used, and the default is not
    consulted either. *)
Theorem determineVersionStreamConfig_missing_file s requirements file :
  let dir := Dir (opts s) in
  let load := mkEntry (LoadRequirementsConfig dir) None in
  VersionStreamURL (opts s) = "" -> VersionStreamRef (opts s) = "" ->
  config_LoadRequirementsConfig env (log s) dir = Ok (requirements, file) ->
  util_FileExists env (log s ++ [load])%list file = Ok false ->
  fst (determineVersionStreamConfig env s) =
    Err (Wrap ("no requirements file " ++ file ++
               " ensure you are running this command inside a GitOps clone")
              "failed to load requirements config") /\
  appended (determineVersionStreamConfig env) s =
    [load; mkEntry (FileExists file) None].
Proof.
  intros dir load HU HR HL HE.
  assert (L : loadRequirementsConfig env s =
              (Err ("no requirements file " ++ file ++
                    " ensure you are running this command inside a GitOps clone"),
               note (FileExists file) None (note (LoadRequirementsConfig dir) None s))).
  { unfold loadRequirementsConfig, bind, getDir, wrap, callR; simpl.
    fold dir; rewrite HL; simpl; fold load; rewrite HE; reflexivity. }
  rewrite determine_from_requirements by (rewrite HU, HR; reflexivity).
  rewrite L; split; [reflexivity |].
  apply appended_app.
  rewrite determine_from_requirements by (rewrite HU, HR; reflexivity).
  rewrite L; simpl; rewrite <- app_assoc; reflexivity.
Qed.

(** [cloneBootConfig] does not look at the error of [ioutil.TempDir]: a
    failed [TempDir] goes unnoticed, and the clone is made in whatever
    name came with the error. *)
Theorem cloneBootConfig_ignores_TempDir_error configURL s cloneDir e :
  let h1 := (log s ++ [mkEntry TempDir (Some e)])%list in
  let h2 := (h1 ++ [mkEntry (MkdirAll cloneDir) None])%list in
  ioutil_TempDir env (log s) = (cloneDir, Some e) ->
  os_MkdirAll env h1 cloneDir = None ->
  git_CloneBare env h2 cloneDir configURL = None ->
  fst (cloneBootConfig env configURL s) = Ok cloneDir /\
  log (snd (cloneBootConfig env configURL s)) =
    (h2 ++ [mkEntry (CloneBare cloneDir configURL) None])%list.
Proof.
  intros h1 h2; unfold h2, h1; intros HT HM HC.
  unfold cloneBootConfig, bind, wrap, callV, callE, ret; simpl.
  rewrite HT; simpl; rewrite HM; simpl; rewrite HC; simpl.
  split; reflexivity.
Qed.

(** [cloneDevEnv] does look at it: when [TempDir] fails, nothing is
    created or cloned, and [o.Dir] stays as it was. *)
Theorem cloneDevEnv_TempDir_error s jxClient devNs jerr devEnv cloneDir e :
  let h1 := (log s ++ [mkEntry JXClientAndDevNamespace jerr])%list in
  let h2 := (h1 ++ [mkEntry (GetDevEnvironment jxClient devNs) None])%list in
  o_JXClientAndDevNamespace env (log s) = ((jxClient, devNs), jerr) ->
  kube_GetDevEnvironment env h1 jxClient devNs = Ok devEnv ->
  ioutil_TempDir env h2 = (cloneDir, Some e) ->
  cloneDevEnv env s =
    (Err (Wrap e "failed to create tmp dir to clone dev env repo"),
     {| opts := opts s; log := (h2 ++ [mkEntry TempDir (Some e)])%list |}).
Proof.
  intros h1 h2; unfold h2, h1; intros HJ HD HT.
  unfold cloneDevEnv, bind, wrap, callV, callR, fail; simpl.
  rewrite HJ; simpl; rewrite HD; simpl; rewrite HT; reflexivity.
Qed.

(** When [setupGitConfig] succeeds, it has made four calls: the lookup of
    the client (whose error it does not look at), the lookup of the dev
    environment, and the setting of the pipeline user's name and email of
    that environment, in the directory it was given. *)
Theorem setupGitConfig_identity dir s s' :
  setupGitConfig env dir s = (Ok tt, s') ->
  exists jxClient devNs jerr devEnv,
    kube_GetDevEnvironment env
      (log s ++ [mkEntry JXClientAndDevNamespace jerr])%list jxClient devNs = Ok devEnv /\
    appended (setupGitConfig env dir) s =
      [mkEntry JXClientAndDevNamespace jerr;
       mkEntry (GetDevEnvironment jxClient devNs) None;
       mkEntry (SetUsername dir (PipelineUsername devEnv)) None;
       mkEntry (SetEmail dir (PipelineUserEmail devEnv)) None] /\
    opts s' = opts s.
Proof.
  intros H.
  assert (A : forall new, log s' = (log s ++ new)%list ->
                          appended (setupGitConfig env dir) s = new)
    by (intros new E; apply appended_app; rewrite H; exact E).
  revert H A.
  unfold setupGitConfig, bind, wrap, callV, callR, callE; simpl.
  destruct (o_JXClientAndDevNamespace env (log s)) as [[jxClient devNs] jerr]; simpl.
  destruct (kube_GetDevEnvironment _ _ _ _) as [devEnv | e] eqn:HD; simpl;
    [| discriminate].
  destruct (git_SetUsername _ _ _ _); simpl; [discriminate |].
  destruct (git_SetEmail _ _ _ _); simpl; [discriminate |].
  intros H A; inversion H; subst; clear H.
  exists jxClient, devNs, jerr, devEnv.
  split; [exact HD |]. split; [| reflexivity].
  apply A; simpl; rewrite <- !app_assoc; reflexivity.
Qed.

(** The commit [bootConfigRef] returns is the one Git gave for the tag
    made of [v] and the version that the version stream, at the given
    ref, resolved for the boot config. *)
Theorem bootConfigRef_tag dir versionStreamURL versionStreamRef configURL s sha version s' :
  bootConfigRef env dir versionStreamURL versionStreamRef configURL s
    = (Ok (sha, version), s') ->
  exists resolver,
    let h1 := (log s ++ [mkEntry (CreateVersionResolver versionStreamURL versionStreamRef)
                           None])%list in
    let h2 := (h1 ++ [mkEntry (ResolveGitVersion resolver configURL) None])%list in
    o_CreateVersionResolver env (log s) versionStreamURL versionStreamRef = Ok resolver /\
    resolver_ResolveGitVersion env h1 resolver configURL = Ok version /\
    git_GetCommitPointedToByTag env h2 dir ("v" ++ version) = (sha, None) /\
    log s' = (h2 ++ [mkEntry (GetCommitPointedToByTag dir ("v" ++ version)) None])%list.
Proof.
  unfold bootConfigRef, bind, wrap, callR, callV, fail, ret; simpl.
  destruct (o_CreateVersionResolver _ _ _ _) as [resolver | e] eqn:H1; simpl;
    [| discriminate].
  destruct (resolver_ResolveGitVersion _ _ _ _) as [v | e] eqn:H2; simpl;
    [| discriminate].
  destruct (git_GetCommitPointedToByTag _ _ _ _) as [cmt [e |]] eqn:H3; simpl;
    [discriminate |].
  intros E; inversion E; subst; clear E.
  exists resolver; simpl; auto.
Qed.

(** When the tag cannot be resolved, the error of [bootConfigRef] names
    what Git returned next to its error, not the tag that was looked
    up. *)
Theorem bootConfigRef_tag_failure
  dir versionStreamURL versionStreamRef configURL s resolver version returned e :
  let h1 := (log s ++ [mkEntry (CreateVersionResolver versionStreamURL versionStreamRef)
                         None])%list in
  let h2 := (h1 ++ [mkEntry (ResolveGitVersion resolver configURL) None])%list in
  o_CreateVersionResolver env (log s) versionStreamURL versionStreamRef = Ok resolver ->
  resolver_ResolveGitVersion env h1 resolver configURL = Ok version ->
  git_GetCommitPointedToByTag env h2 dir ("v" ++ version) = (returned, Some e) ->
  fst (bootConfigRef env dir versionStreamURL versionStreamRef configURL s) =
    Err (Wrap e ("failed to get commit pointed to by " ++ returned)).
Proof.
  intros h1 h2; unfold h2, h1; intros H1 H2 H3.
  unfold bootConfigRef, bind, wrap, callR, callV, fail; simpl.
  rewrite H1; simpl; rewrite H2; simpl; rewrite H3; reflexivity.
Qed.

(** A successful [updateVersionStreamRef] that found another ref changes
    the ref of the requirements and nothing else in them, saves them to
    the file they were loaded from and commits that file alone. *)
Theorem updateVersionStreamRef_changes_ref_only s upgradeRef requirements file s1 s' :
  loadRequirementsConfig env s = (Ok (requirements, file), s1) ->
  Ref (VersionStream requirements) <> upgradeRef ->
  updateVersionStreamRef env upgradeRef s = (Ok tt, s') ->
  exists saved,
    Ref (VersionStream saved) = upgradeRef /\
    URL (VersionStream saved) = URL (VersionStream requirements) /\
    OtherRequirements saved = OtherRequirements requirements /\
    log s' =
    (log s1 ++
     [mkEntry (Infof ("Upgrading version stream ref to " ++ upgradeRef)) None;
      mkEntry (SaveConfig saved file) None;
      mkEntry (AddCommitFiles (Dir (opts s1)) "feat: upgrade version stream" [file])
              None])%list /\
    opts s' = opts s1.
Proof.
  intros L R U.
  exists (setVersionStreamRef requirements upgradeRef).
  repeat split; try reflexivity.
  - apply (updateVersionStreamRef_saved env s L R U).
  - revert U; unfold updateVersionStreamRef.
    erewrite bind_Ok by (apply wrap_Ok, L).
    apply String.eqb_neq in R; cbv beta iota; rewrite R; simpl.
    unfold bind, logInfof, callT, wrap, callE, getDir; simpl.
    destruct (requirements_SaveConfig _ _ _ _); simpl; [discriminate |].
    destruct (git_AddCommitFiles _ _ _ _ _); simpl; [discriminate |].
    intros E; inversion E; reflexivity.
Qed.

Lemma lastSavedTo_app file h h' start :
  lastSavedTo file (h ++ h')%list start = lastSavedTo file h' (lastSavedTo file h start).
Proof.
  revert start; induction h as [| e h IH]; intros start; simpl; [reflexivity |].
  destruct (call e), (outcome e); try apply IH.
  destruct (_ =? _); apply IH.
Qed.

(** Save and load.  Let the requirements file of [o.Dir] exist, and hold
    what was last saved to it; let no version stream option be given,
    the version stream URL of the file be non-empty, and the target ref
    be non-empty.  Then after a successful [updateVersionStreamRef],
    [determineVersionStreamConfig] returns the version stream URL of
    before with the target as its ref. *)
Theorem updateVersionStreamRef_then_determine s upgradeRef file initial s' :
  let dir := Dir (opts s) in
  let before := lastSavedTo file (log s) initial in
  (forall h, config_LoadRequirementsConfig env h dir =
             Ok (lastSavedTo file h initial, file)) ->
  (forall h, util_FileExists env h file = Ok true) ->
  VersionStreamURL (opts s) = "" -> VersionStreamRef (opts s) = "" ->
  URL (VersionStream before) <> "" -> upgradeRef <> "" ->
  updateVersionStreamRef env upgradeRef s = (Ok tt, s') ->
  fst (determineVersionStreamConfig env s') =
    Ok {| URL := URL (VersionStream before); Ref := upgradeRef |}.
Proof.
  intros dir before HL HE HU HR NU NR U.
  assert (L : forall t, Dir (opts t) = dir ->
                loadRequirementsConfig env t =
                (Ok (lastSavedTo file (log t) initial, file),
                 note (FileExists file) None (note (LoadRequirementsConfig dir) None t))).
  { intros t D.
    unfold loadRequirementsConfig, bind, getDir, wrap, callR; simpl.
    rewrite D, HL; simpl; rewrite HE; reflexivity. }
  assert (P : opts s' = opts s /\
              VersionStream (lastSavedTo file (log s') initial) =
                {| URL := URL (VersionStream before); Ref := upgradeRef |}).
  { revert U; unfold updateVersionStreamRef.
    erewrite bind_Ok by (apply wrap_Ok, (L s eq_refl)).
    fold before; cbv beta iota.
    destruct (Ref (VersionStream before) =? upgradeRef) eqn:R; simpl.
    - unfold ret; intros U; inversion U; subst s'; simpl.
      split; [reflexivity |].
      rewrite <- app_assoc, lastSavedTo_app; simpl; fold before.
      apply String.eqb_eq in R; rewrite <- R.
      destruct (VersionStream before); reflexivity.
    - unfold bind, logInfof, callT, wrap, callE, getDir; simpl.
      destruct (requirements_SaveConfig _ _ _ _); simpl; [discriminate |].
      destruct (git_AddCommitFiles _ _ _ _ _); simpl; [discriminate |].
      intros U; inversion U; subst s'; simpl.
      split; [reflexivity |].
      rewrite <- !app_assoc, lastSavedTo_app; simpl.
      rewrite String.eqb_refl; reflexivity. }
  destruct P as (PO & PV).
  rewrite determine_from_requirements by (rewrite PO, HU, HR; reflexivity).
  rewrite (L s') by (rewrite PO; reflexivity).
  cbv beta iota zeta; rewrite PV; simpl.
  apply String.eqb_neq in NU, NR; rewrite NU, NR; reflexivity.
Qed.

End MoreSteps.

(** ** Beyond the claims: more rules for computations *)

Lemma defer_run {A} (cleanup : M unit) (body : M A) s :
  defer cleanup body s = (fst (body s), snd (cleanup (snd (body s)))).
Proof. unfold defer; destruct (body s); reflexivity. Qed.

Lemma forallb_negb_existsb {A} (f : A -> bool) l :
  forallb (fun x => negb (f x)) l = true -> existsb f l = false.
Proof.
  induction l as [| x l IH]; simpl; [reflexivity |].
  intros H; apply andb_prop in H as [H1 H2].
  apply negb_true_iff in H1; rewrite H1, IH; auto.
Qed.

Lemma forallb_negb_filter {A} (f : A -> bool) l :
  forallb (fun x => negb (f x)) l = true -> filter f l = [].
Proof.
  induction l as [| x l IH]; simpl; [reflexivity |].
  intros H; apply andb_prop in H as [H1 H2].
  apply negb_true_iff in H1; rewrite H1; auto.
Qed.

(** A computation followed by one that only appends entries satisfying
    [P], for a postcondition that tolerates such entries behind. *)
Lemma emits_bind_right {A B} P (m : M A) (k : A -> M B) (Q : History -> Prop) :
  emits m (fun _ => Q) ->
  (forall a, grows P (k a)) ->
  (forall new suf, forallb P suf = true -> Q new -> Q (new ++ suf)%list) ->
  emits (bind m k) (fun _ => Q).
Proof.
  intros Hm Hk HQ s; unfold bind.
  destruct (Hm s) as (n1 & E1 & Q1).
  destruct (m s) as [[a | e] s1]; simpl in *.
  - destruct (Hk a s1) as (n2 & E2 & F2).
    exists (n1 ++ n2)%list; rewrite E2, E1, app_assoc; auto.
  - exists n1; auto.
Qed.

Lemma emits_defer {A} P (cleanup : M unit) (body : M A) (Q : History -> Prop) :
  emits body (fun _ => Q) ->
  grows P cleanup ->
  (forall new suf, forallb P suf = true -> Q new -> Q (new ++ suf)%list) ->
  emits (defer cleanup body) (fun _ => Q).
Proof.
  intros Hb Hc HQ s; rewrite defer_run; simpl.
  destruct (Hb s) as (n1 & E1 & Q1).
  destruct (Hc (snd (body s))) as (n2 & E2 & F2).
  exists (n1 ++ n2)%list; rewrite E2, E1, app_assoc; auto.
Qed.

(** A wrapped call, followed by a computation. *)
Lemma emits_bind_callE {B} message c answer (k : unit -> M B)
  (Q : Res B -> History -> Prop) :
  (forall e, Q (Err (Wrap e message)) [mkEntry c (Some e)]) ->
  emits (k tt) (fun r new => Q r (mkEntry c None :: new)) ->
  emits (bind (wrap message (callE c answer)) k) Q.
Proof.
  intros HE HK s; unfold bind, wrap, callE.
  destruct (answer (log s)) as [e |].
  - exists [mkEntry c (Some e)]; split; [reflexivity | apply HE].
  - destruct (HK (note c None s)) as (new & E & HQ).
    exists (mkEntry c None :: new); split; [| exact HQ].
    rewrite E; simpl; rewrite <- app_assoc; reflexivity.
Qed.

Lemma wrap_Err_inv {A} message (m : M A) s e :
  fst (wrap message m s) = Err e -> exists e', e = Wrap e' message.
Proof.
  unfold wrap; destruct (m s) as [[a | e'] s1]; simpl; intros H; inversion H; eauto.
Qed.

Lemma yields_bind {A B} (m : M A) (k : A -> M B) (Q : Res B -> Prop) :
  (forall s e, fst (m s) = Err e -> Q (Err e)) ->
  (forall a, yields (k a) Q) ->
  yields (bind m k) Q.
Proof.
  intros Hm Hk s; unfold bind.
  destruct (m s) as [[a | e] s1] eqn:E.
  - apply Hk.
  - apply (Hm s); rewrite E; reflexivity.
Qed.

Section Keeps.

Variable R : UpgradeBootOptions -> UpgradeBootOptions -> Prop.
Hypothesis R_refl : forall o, R o o.
Hypothesis R_trans : forall o1 o2 o3, R o1 o2 -> R o2 o3 -> R o1 o3.

Lemma keeps_still {A} (m : M A) :
  (forall s, opts (snd (m s)) = opts s) -> keeps R m.
Proof. intros H s; rewrite H; apply R_refl. Qed.

Lemma keeps_ret {A} (a : A) : keeps R (ret a).
Proof. apply keeps_still; reflexivity. Qed.

Lemma keeps_fail {A} e : keeps R (@fail A e).
Proof. apply keeps_still; reflexivity. Qed.

Lemma keeps_getDir : keeps R getDir.
Proof. apply keeps_still; reflexivity. Qed.

Lemma keeps_getOptions : keeps R getOptions.
Proof. apply keeps_still; reflexivity. Qed.

Lemma keeps_callE c answer : keeps R (callE c answer).
Proof. apply keeps_still; reflexivity. Qed.

Lemma keeps_callO c answer : keeps R (callO c answer).
Proof. apply keeps_still; reflexivity. Qed.

Lemma keeps_callR {A} c (answer : History -> Res A) : keeps R (callR c answer).
Proof. apply keeps_still; reflexivity. Qed.

Lemma keeps_callV {A} c (answer : History -> A * option error) :
  keeps R (callV c answer).
Proof. apply keeps_still; reflexivity. Qed.

Lemma keeps_callT {A} c (answer : History -> A) : keeps R (callT c answer).
Proof. apply keeps_still; reflexivity. Qed.

Lemma keeps_bind {A B} (m : M A) (k : A -> M B) :
  keeps R m -> (forall a, keeps R (k a)) -> keeps R (bind m k).
Proof.
  intros Hm Hk s; unfold bind.
  specialize (Hm s).
  destruct (m s) as [[a | e] s1]; simpl in *; [| exact Hm].
  eapply R_trans; [exact Hm | apply Hk].
Qed.

Lemma keeps_wrap {A} message (m : M A) : keeps R m -> keeps R (wrap message m).
Proof.
  intros Hm s; unfold wrap; specialize (Hm s).
  destruct (m s) as [[a | e] s1]; exact Hm.
Qed.

Lemma keeps_defer {A} (cleanup : M unit) (body : M A) :
  keeps R body -> keeps R cleanup -> keeps R (defer cleanup body).
Proof.
  intros Hb Hc s; rewrite defer_run; simpl.
  eapply R_trans; [apply Hb | apply Hc].
Qed.

End Keeps.

Lemma keeps_of_eq {A} (R : UpgradeBootOptions -> UpgradeBootOptions -> Prop) (m : M A) :
  (forall o, R o o) -> keeps eq m -> keeps R m.
Proof. intros Hr H s; rewrite <- (H s); apply Hr. Qed.

Ltac keeps_step :=
  match goal with
  | |- keeps _ (bind _ _) => apply keeps_bind; [ assumption | | intros ]
  | |- keeps _ (wrap _ _) => apply keeps_wrap
  | |- keeps _ (defer _ _) => apply keeps_defer; [ assumption | | ]
  | |- keeps _ (ret _) => apply keeps_ret; assumption
  | |- keeps _ (fail _) => apply keeps_fail; assumption
  | |- keeps _ getDir => apply keeps_getDir; assumption
  | |- keeps _ getOptions => apply keeps_getOptions; assumption
  | |- keeps _ (callE _ _) => apply keeps_callE; assumption
  | |- keeps _ (callO _ _) => apply keeps_callO; assumption
  | |- keeps _ (callR _ _) => apply keeps_callR; assumption
  | |- keeps _ (callV _ _) => apply keeps_callV; assumption
  | |- keeps _ (callT _ _) => apply keeps_callT; assumption
  | |- keeps _ (logInfof _) => apply keeps_callT; assumption
  | |- keeps _ (logWarnf _) => apply keeps_callT; assumption
  | |- keeps _ (match ?x with _ => _ end) => destruct x
  | |- keeps _ (let _ := _ in _) => cbv zeta
  end.

(** ** Beyond the claims: the steps together *)

Lemma sameFlags_refl o : sameFlags o o.
Proof. repeat split. Qed.

Lemma sameFlags_trans o1 o2 o3 : sameFlags o1 o2 -> sameFlags o2 o3 -> sameFlags o1 o3.
Proof.
  unfold sameFlags; intros (A1 & A2 & A3) (B1 & B2 & B3).
  rewrite B1, B2, B3; auto.
Qed.

Lemma fetchFirst_suffix new suf :
  forallb notReplayWork suf = true -> fetchFirst new -> fetchFirst (new ++ suf)%list.
Proof.
  intros S [H | (pre & x & rest & -> & HP & HX)].
  - left; rewrite forallb_app, H, S; reflexivity.
  - right; exists pre, x, (rest ++ suf)%list.
    rewrite <- app_assoc; auto.
Qed.

Lemma fetchFirst_prefix pre new :
  forallb notReplayWork pre = true -> fetchFirst new -> fetchFirst (pre ++ new)%list.
Proof.
  intros S [H | (pre' & x & rest & -> & HP & HX)].
  - left; rewrite forallb_app, S, H; reflexivity.
  - right; exists (pre ++ pre')%list, x, rest.
    rewrite app_assoc, forallb_app, S, HP; auto.
Qed.

Lemma fetched_not_work x : fetchedMaster x = true -> isReplayWork x = false.
Proof.
  unfold fetchedMaster, isReplayWork; destruct (call x); auto; discriminate.
Qed.

(** In a history of that shape, replay work has a successful fetch of
    master before it. *)
Lemma fetchFirst_before new l1 x l2 :
  fetchFirst new -> new = (l1 ++ x :: l2)%list -> isReplayWork x = true ->
  existsb fetchedMaster l1 = true.
Proof.
  intros [H | (pre & f & rest & E & HP & HF)] -> W.
  - apply forallb_negb_existsb in H.
    rewrite (existsb_middle l1 l2 W) in H; discriminate.
  - apply forallb_negb_existsb in HP.
    apply app_eq_app in E as (l & [(-> & E) | (-> & E)]).
    + destruct l as [| y l]; simpl in E; inversion E; subst.
      * rewrite (fetched_not_work _ HF) in W; discriminate.
      * apply existsb_middle, HF.
    + destruct l as [| y l]; simpl in E; inversion E; subst.
      * rewrite (fetched_not_work _ HF) in W; discriminate.
      * rewrite (existsb_middle l1 l W) in HP; discriminate.
Qed.

Section MoreRuns.

Context {K : Constants} (env : Collaborators).

Lemma cherryPickFrom_keeps cmts n :
  keeps eq (cherryPickFrom env cmts n).
Proof.
  pose proof (@eq_refl UpgradeBootOptions) as Hr.
  pose proof (@eq_trans UpgradeBootOptions) as Ht.
  induction n as [| i IH]; simpl.
  - apply keeps_ret; assumption.
  - destruct (nth_error cmts i); [| apply keeps_fail; assumption].
    keeps_step; [keeps_step |].
    keeps_step; [keeps_step |].
    keeps_step; [| exact IH].
    repeat keeps_step.
Qed.

Ltac solve_keeps :=
  unfold_command;
  repeat first [ keeps_step
               | match goal with
                 | |- keeps _ (cherryPickFrom _ _ _) => apply cherryPickFrom_keeps
                 end ].

(** The temporary clone of the boot config is removed exactly when it
    was made: if [cloneBootConfig] fails, [updateBootConfig] returns its
    error and removes nothing; if it succeeds, then on every path,
    whatever [updateBootConfig] returns, the clone directory is removed
    once, as the last call, and a failure of the removal is only
    logged. *)
Theorem updateBootConfig_removes_clone
  versionStreamURL versionStreamRef bootConfigURL upgradeVersionSha s :
  let update :=
    updateBootConfig env versionStreamURL versionStreamRef bootConfigURL
      upgradeVersionSha in
  (forall e s1, cloneBootConfig env bootConfigURL s = (Err e, s1) ->
     update s = (Err (Wrap e ("failed to clone boot config repo " ++ bootConfigURL)), s1) /\
     existsb isRemoveAll (appended update s) = false) /\
  (forall cloneDir s1, cloneBootConfig env bootConfigURL s = (Ok cloneDir, s1) ->
     exists before out,
       appended update s =
         (before ++ mkEntry (RemoveAll cloneDir) out ::
            match out with
            | Some e => [mkEntry (Infof ("Error removing tmpDir: " ++ e)) None]
            | None => []
            end)%list /\
       existsb isRemoveAll before = false).
Proof.
  intros update.
  assert (GC : grows noRemoveAll (cloneBootConfig env bootConfigURL)) by solve_grows.
  split.
  - intros e s1 H.
    assert (E : update s =
                (Err (Wrap e ("failed to clone boot config repo " ++ bootConfigURL)), s1)).
    { unfold update, updateBootConfig.
      erewrite bind_Err by (apply wrap_Err, H); reflexivity. }
    split; [exact E |].
    destruct (grows_run GC H) as (n1 & E1 & F1).
    rewrite (appended_app update s (new := n1)) by (rewrite E; exact E1).
    apply forallb_negb_existsb, F1.
  - intros cloneDir s1 H.
    destruct (grows_run GC H) as (n1 & E1 & F1).
    assert (X : exists r sb n2,
               update s = (r, snd (removeTmpDir env cloneDir sb)) /\
               log sb = (log s1 ++ n2)%list /\ forallb noRemoveAll n2 = true).
    { unfold update, updateBootConfig.
      erewrite bind_Ok by (apply wrap_Ok, H).
      match goal with
      | |- context [defer _ ?b] => set (body := b)
      end.
      assert (GB : grows noRemoveAll body) by (unfold body; solve_grows).
      destruct (GB s1) as (n2 & E2 & F2).
      exists (fst (body s1)), (snd (body s1)), n2.
      rewrite defer_run; auto. }
    destruct X as (r & sb & n2 & E & E2 & F2).
    exists (n1 ++ n2)%list, (os_RemoveAll env (log sb) cloneDir).
    split.
    + apply appended_app; rewrite E.
      unfold removeTmpDir, bind, callO, logInfof, callT, ret; simpl.
      destruct (os_RemoveAll env (log sb) cloneDir); simpl;
        rewrite E2, E1, <- !app_assoc; reflexivity.
    + rewrite existsb_app.
      rewrite (forallb_negb_existsb isRemoveAll n1 F1).
      rewrite (forallb_negb_existsb isRemoveAll n2 F2); reflexivity.
Qed.

(** Replay work only after the fetch: in [updateBootConfig], every query
    of the history range, every cherry-pick and the restoration of the
    protected files come after a successful fetch of the boot config's
    master. *)
Theorem updateBootConfig_fetches_first
  versionStreamURL versionStreamRef bootConfigURL upgradeVersionSha s l1 x l2 :
  appended (updateBootConfig env versionStreamURL versionStreamRef bootConfigURL
              upgradeVersionSha) s = (l1 ++ x :: l2)%list ->
  isReplayWork x = true ->
  existsb fetchedMaster l1 = true.
Proof.
  apply fetchFirst_before.
  apply (@emits_appended _ _ (fun _ => fetchFirst)).
  unfold updateBootConfig.
  apply emits_bind_left with (P := notReplayWork);
    [ solve_grows | intros; left; assumption
    | intros; apply fetchFirst_prefix; assumption | intros cloneDir ].
  apply emits_defer with (P := notReplayWork);
    [ | solve_grows | intros; apply fetchFirst_suffix; assumption ].
  do 2 (apply emits_bind_left with (P := notReplayWork);
        [ solve_grows | intros; left; assumption
        | intros; apply fetchFirst_prefix; assumption | intros [? ?] ]).
  destruct (_ =? _).
  { apply emits_of_grows with (P := notReplayWork);
      [solve_grows | intros; left; assumption]. }
  do 3 (apply emits_bind_left with (P := notReplayWork);
        [ solve_grows | intros; left; assumption
        | intros; apply fetchFirst_prefix; assumption | intros ]).
  apply emits_bind_callE.
  - intros e; left; reflexivity.
  - apply emits_of_grows with (P := anyEntry); [solve_grows |].
    intros r new _; right.
    exists []; do 2 eexists.
    split; [reflexivity | split; reflexivity].
Qed.

(** Every error of [Run] names the step that failed: it is the error of
    that step wrapped with one of the ten messages of [Run]. *)
Theorem Run_error_names_step s : namesStep (fst (Run env s)).
Proof.
  assert (W : forall message (m : M unit) s e,
             (In message
                ["failed to setup git config"; "failed to clone dev environment repo";
                 "failed to get requirements version stream";
                 "failed to get check for available update";
                 "failed to checkout upgrade_branch";
                 "failed to determine boot configuration URL";
                 "failed to update boot configuration";
                 "failed to update version stream ref"; "failed to raise pr"] \/
              exists branch, message = "failed to delete local branch " ++ branch) ->
             fst (wrap message m s) = Err e -> namesStep (Err e)).
  { intros message m s0 e HI H.
    apply wrap_Err_inv in H as (e' & ->); exists e', message; auto. }
  assert (W' : forall A message (m : M A) s e,
             In message
                ["failed to setup git config"; "failed to clone dev environment repo";
                 "failed to get requirements version stream";
                 "failed to get check for available update";
                 "failed to checkout upgrade_branch";
                 "failed to determine boot configuration URL";
                 "failed to update boot configuration";
                 "failed to update version stream ref"; "failed to raise pr"] ->
             fst (wrap message m s) = Err e -> namesStep (Err e)).
  { intros A message m s0 e HI H.
    apply wrap_Err_inv in H as (e' & ->); exists e', message; auto. }
  revert s; change (yields (Run env) namesStep); unfold Run.
  apply yields_bind; [discriminate | intros dir].
  apply yields_bind;
    [intros s e; apply W'; repeat (first [left; reflexivity | right]) | intros _].
  apply yields_bind; [discriminate | intros dir'].
  apply yields_bind.
  { intros s e; destruct (_ =? _); [| discriminate].
    apply W'; repeat (first [left; reflexivity | right]). }
  intros _.
  do 2 (apply yields_bind;
        [intros s e; apply W'; repeat (first [left; reflexivity | right]) | intros ?]).
  destruct (_ =? _); [intros s; exact I |].
  do 5 (apply yields_bind;
        [intros s e; apply W'; repeat (first [left; reflexivity | right]) | intros ?]).
  intros s.
  destruct (fst (wrap _ _ s)) as [[] | e] eqn:E; [exact I |].
  eapply W; [right; eexists; reflexivity | exact E].
Qed.

(** [Run] never changes [GitURL], [VersionStreamURL] and
    [VersionStreamRef]; and when it was given a directory, it leaves all
    its options as they were: [o.Dir] is assigned by the clone of the dev
    environment only. *)
Theorem Run_keeps_options s :
  sameFlags (opts s) (opts (snd (Run env s))) /\
  (Dir (opts s) <> "" -> opts (snd (Run env s)) = opts s).
Proof.
  pose proof (@eq_refl UpgradeBootOptions) as Hr.
  pose proof (@eq_trans UpgradeBootOptions) as Ht.
  pose proof sameFlags_refl as Fr.
  pose proof sameFlags_trans as Ft.
  split.
  - assert (G : keeps sameFlags (Run env)); [| apply G].
    unfold Run, cloneDevEnv.
    unfold_command.
    repeat first
      [ keeps_step
      | match goal with
        | |- keeps _ (setDir _) => intros ?; repeat split
        | |- keeps _ (cherryPickFrom _ _ _) =>
            apply keeps_of_eq; [assumption | apply cherryPickFrom_keeps]
        end ].
  - intros D; unfold Run; rewrite bind_getDir.
    assert (G1 : keeps eq (wrap "failed to setup git config"
                             (setupGitConfig env (Dir (opts s))))) by solve_keeps.
    specialize (G1 s); unfold bind at 1.
    destruct (wrap "failed to setup git config"
                (setupGitConfig env (Dir (opts s))) s) as [[[] | e] s1];
      simpl in G1; [| symmetry; exact G1].
    rewrite bind_getDir, <- G1.
    apply String.eqb_neq in D; rewrite D.
    unfold bind at 1, ret at 1.
    rewrite G1.
    match goal with
    | |- opts (snd (?m s1)) = _ => assert (G : keeps eq m) by solve_keeps
    end.
    symmetry; apply G.
Qed.

(** [Run] asks for a pull request at most once, and only for the one
    this command is about: against [master], from [jx_boot_upgrade],
    titled "feat(config): upgrade configuration". *)
Theorem Run_one_pull_request s :
  length (filter isPullRequestCall (appended (Run env) s)) <= 1 /\
  forallb upgradePullRequest (appended (Run env) s) = true.
Proof.
  assert (PRE : forall pre new,
             forallb noPullRequestCall pre = true ->
             length (filter isPullRequestCall new) <= 1 ->
             length (filter isPullRequestCall (pre ++ new)) <= 1).
  { intros pre new HP HN.
    rewrite filter_app, (forallb_negb_filter isPullRequestCall pre HP); exact HN. }
  assert (SUF : forall new suf,
             forallb noPullRequestCall suf = true ->
             length (filter isPullRequestCall new) <= 1 ->
             length (filter isPullRequestCall (new ++ suf)) <= 1).
  { intros new suf HP HN.
    rewrite filter_app, (forallb_negb_filter isPullRequestCall suf HP), app_nil_r.
    exact HN. }
  assert (NONE : forall new,
             forallb noPullRequestCall new = true ->
             length (filter isPullRequestCall new) <= 1).
  { intros new HP; rewrite (forallb_negb_filter isPullRequestCall new HP); auto. }
  split.
  - apply (@emits_appended _ (Run env)
             (fun _ new => length (filter isPullRequestCall new) <= 1)).
    unfold Run.
    do 6 (apply emits_bind_left with (P := noPullRequestCall);
          [ solve_grows | intros; apply NONE; assumption
          | intros; apply PRE; assumption | intros ]).
    destruct (_ =? _).
    { apply emits_of_grows with (P := noPullRequestCall); [solve_grows | auto]. }
    do 4 (apply emits_bind_left with (P := noPullRequestCall);
          [ solve_grows | intros; apply NONE; assumption
          | intros; apply PRE; assumption | intros ]).
    apply emits_bind_right with (P := noPullRequestCall);
      [ | intros; solve_grows | exact SUF ].
    apply emits_wrap; [| auto].
    unfold raisePR.
    do 5 (apply emits_bind_left with (P := noPullRequestCall);
          [ solve_grows | intros; apply NONE; assumption
          | intros; apply PRE; assumption | intros ]).
    intros s0; unfold wrap, callE; simpl.
    destruct (gits_PushRepoAndCreatePullRequest _ _ _ _ _ _ _ _ _ _); simpl;
      (eexists; split; [reflexivity | simpl; auto]).
  - assert (G : grows upgradePullRequest (Run env)) by (unfold Run; solve_grows).
    destruct (G s) as (new & E & F).
    rewrite (appended_app (Run env) s E); exact F.
Qed.

(** Without a directory, the Git identity is configured before the dev
    environment is cloned: user name and email are set in the empty
    directory, and never in the clone. *)
Theorem Run_identity_without_dir s :
  Dir (opts s) = "" ->
  forallb identityInNoDir (appended (Run env) s) = true.
Proof.
  intros D; unfold appended, Run; rewrite bind_getDir, D.
  match goal with
  | |- context [snd (?m s)] => assert (G : grows identityInNoDir m) by solve_grows
  end.
  destruct (G s) as (new & E & F).
  rewrite E, skipn_app, skipn_all, Nat.sub_diag; exact F.
Qed.

(** The working branch is created before the boot config URL is
    determined.  So a run on a version stream that has no default boot
    config, without [--git-url], fails with that error only after it has
    created and checked out its branch, which it leaves behind. *)
Theorem Run_unknown_stream_leaves_branch s s1 s2 vs s3 sha s4 branch s5 :
  setupGitConfig env (Dir (opts s)) s = (Ok tt, s1) ->
  (if Dir (opts s1) =? "" then cloneDevEnv env else ret tt) s1 = (Ok tt, s2) ->
  determineVersionStreamConfig env s2 = (Ok vs, s3) ->
  upgradeAvailable env (URL vs) (Ref vs) "master" s3 = (Ok sha, s4) ->
  sha <> "" ->
  checkoutNewBranch env s4 = (Ok branch, s5) ->
  GitURL (opts s5) = "" ->
  URL vs <> DefaultVersionsURL -> URL vs <> DefaultCloudBeesVersionsURL ->
  Run env s =
    (Err (Wrap "unable to determine default boot config URL"
               "failed to determine boot configuration URL"), s5) /\
  (exists before dir,
     log s5 = (before ++ [mkEntry (CreateBranch dir branch) None;
                          mkEntry (Checkout dir branch) None])%list) /\
  existsb isDeleteLocalBranch (appended (Run env) s) = false.
Proof.
  intros H1 H2 H3 H4 Hsha H5 G U1 U2.
  assert (E : Run env s =
              (Err (Wrap "unable to determine default boot config URL"
                         "failed to determine boot configuration URL"), s5)).
  { rewrite (Run_until_check env s H1 H2 H3 H4).
    apply String.eqb_neq in Hsha; rewrite Hsha.
    erewrite bind_Ok by (apply wrap_Ok, H5).
    erewrite bind_Err; [reflexivity |].
    apply wrap_Err, determineBootConfigURL_unknown; assumption. }
  split; [exact E |].
  split.
  - revert H5; unfold checkoutNewBranch, bind, wrap, callR, callE, getDir, ret; simpl.
    destruct (uuid_NewV4 env (log s4)) as [b | e]; simpl; [| discriminate].
    destruct (git_CreateBranch _ _ _ _); simpl; [discriminate |].
    destruct (git_Checkout _ _ _ _); simpl; [discriminate |].
    intros X; inversion X; subst; simpl.
    exists (log s4 ++ [mkEntry NewV4 None])%list, (Dir (opts s4)).
    rewrite <- !app_assoc; reflexivity.
  - assert (GU : exists new, log s4 = (log s ++ new)%list /\
                             forallb beforeCleanup new = true).
    { apply (@until_check_grows K env beforeCleanup s s1 s2 vs s3 sha s4);
        try assumption; try (intros; solve_grows); solve_grows. }
    destruct GU as (n4 & E4 & F4).
    assert (G5 : grows beforeCleanup (checkoutNewBranch env)) by solve_grows.
    destruct (grows_run G5 H5) as (n5 & E5 & F5).
    assert (A : appended (Run env) s = (n4 ++ n5)%list).
    { apply appended_app; rewrite E; simpl.
      rewrite E5, E4, <- app_assoc; reflexivity. }
    rewrite A, existsb_app.
    rewrite (beforeCleanup_not_delete _ F4), (beforeCleanup_not_delete _ F5).
    reflexivity.
Qed.

Lemma cleanedUp_prefix branch r pre new :
  cleanedUp branch r new -> cleanedUp branch r (pre ++ new)%list.
Proof.
  destruct r as [[] | e]; simpl; [| auto].
  intros (before & dir & ->).
  exists (pre ++ before)%list, dir; rewrite app_assoc; reflexivity.
Qed.

Lemma endsClean_prefix r pre new :
  forallb noCreateBranch pre = true -> endsClean r new -> endsClean r (pre ++ new)%list.
Proof.
  destruct r as [[] | e]; simpl; [| auto].
  intros HP [H | (before & dir & dir' & branch & -> & HI)].
  - left; rewrite forallb_app, HP, H; reflexivity.
  - right; exists (pre ++ before)%list, dir, dir', branch.
    rewrite app_assoc; split; [reflexivity | apply in_or_app; auto].
Qed.

(** A run that returns no error leaves no working branch behind: either
    it never created one, or the last thing it did was to check out
    master and to delete, both without error, the branch it had
    created. *)
Theorem Run_success_leaves_no_branch s :
  fst (Run env s) = Ok tt ->
  forallb noCreateBranch (appended (Run env) s) = true \/
  exists before dir dir' branch,
    appended (Run env) s =
      (before ++ [mkEntry (Checkout dir "master") None;
                  mkEntry (DeleteLocalBranch dir branch) None])%list /\
    In (mkEntry (CreateBranch dir' branch) None) before.
Proof.
  intros OK.
  assert (G : emits (Run env) endsClean).
  { unfold Run.
    do 6 (apply emits_bind_left with (P := noCreateBranch);
          [ solve_grows | intros; exact I
          | intros; apply endsClean_prefix; assumption | intros ]).
    destruct (_ =? _).
    { intros s0; exists []; rewrite app_nil_r; split; [reflexivity | left; reflexivity]. }
    eapply emits_weaken.
    { apply emits_bind with (Q2 := fun branch r new => cleanedUp branch r new).
      - apply emits_wrap; [apply checkoutNewBranch_emits |].
        intros e new [H _]; split; [exact H | exact I].
      - intros branch.
        do 4 (apply emits_bind_left with (P := anyEntry);
              [ solve_grows | intros; exact I
              | intros; apply cleanedUp_prefix; assumption | intros ]).
        apply emits_wrap; [| auto].
        intros s0; unfold deleteLocalBranch; rewrite bind_getDir.
        unfold bind, wrap, callE; simpl.
        destruct (git_Checkout env (log s0) (Dir (opts s0)) "master"); simpl.
        { eexists; split; [reflexivity | exact I]. }
        destruct (git_DeleteLocalBranch _ _ _ _); simpl;
          (eexists; split; [rewrite <- app_assoc; reflexivity |]); [exact I |].
        exists [], (Dir (opts s0)); reflexivity. }
    simpl; intros r new
      [(e & -> & _) | (branch & n1 & n2 & -> & (_ & dir' & HC) & HA)]; [exact I |].
    destruct r as [[] | e]; simpl; [| exact I].
    destruct HA as (before & dir & ->).
    right; exists (n1 ++ before)%list, dir, dir', branch.
    rewrite app_assoc; split; [reflexivity | apply in_or_app; auto]. }
  pose proof (@emits_appended _ (Run env) _ s G) as Q.
  rewrite OK in Q; exact Q.
Qed.

(** When [raisePR] succeeds, it has made six calls, each on what the
    ones before answered: [Info] answered [gitInfo] for [o.Dir]; the
    pipeline auth service answered [server] and [userAuth];
    [GitServerKind] answered [gitKind] for [gitInfo];
    [CreateProviderForUser] answered [provider] for these four;
    [GetRepository] answered [upstream] for that provider and the
    organisation and name of [gitInfo]; and the pull request was pushed
    from [o.Dir] to [upstream] with that provider and the label of boot,
    without an error.  The history has grown by exactly these six calls,
    and the options are as before. *)
Theorem raisePR_data_flow s s' :
  raisePR env s = (Ok tt, s') ->
  exists gitInfo server userAuth gitKind provider upstream,
    let dir := Dir (opts s) in
    let filter := {| Labels := [PullRequestLabel] |} in
    let e1 := mkEntry (Info dir) None in
    let e2 := mkEntry CreatePipelineUserGitAuthConfigService None in
    let e3 := mkEntry (GitServerKind gitInfo) None in
    let e4 := mkEntry (CreateProviderForUser gitInfo server userAuth gitKind) None in
    let e5 := mkEntry (GetRepository provider (Organisation gitInfo) (Name gitInfo))
                None in
    let e6 := mkEntry (PushRepoAndCreatePullRequest dir upstream "master"
                         upgradeDetails filter (Title upgradeDetails) provider
                         [PullRequestLabel]) None in
    git_Info env (log s) dir = Ok gitInfo /\
    o_CreatePipelineUserGitAuthConfigService env (log s ++ [e1])%list
      = Ok (server, userAuth) /\
    o_GitServerKind env (log s ++ [e1; e2])%list gitInfo = Ok gitKind /\
    gitInfo_CreateProviderForUser env (log s ++ [e1; e2; e3])%list
      gitInfo server userAuth gitKind = Ok provider /\
    provider_GetRepository env (log s ++ [e1; e2; e3; e4])%list
      provider (Organisation gitInfo) (Name gitInfo) = Ok upstream /\
    gits_PushRepoAndCreatePullRequest env (log s ++ [e1; e2; e3; e4; e5])%list
      dir upstream "master" upgradeDetails filter (Title upgradeDetails) provider
      [PullRequestLabel] = None /\
    appended (raisePR env) s = [e1; e2; e3; e4; e5; e6] /\
    s' = {| opts := opts s; log := (log s ++ [e1; e2; e3; e4; e5; e6])%list |}.
Proof.
  intros H.
  assert (A : forall new, log s' = (log s ++ new)%list ->
                          appended (raisePR env) s = new)
    by (intros new E; apply appended_app; rewrite H; exact E).
  revert H A.
  unfold raisePR, gitProvider, pipelineUserAuth, bind, wrap, callR, callE, getDir; simpl.
  destruct (git_Info env (log s) (Dir (opts s))) as [gitInfo | e] eqn:H1; simpl;
    [| discriminate].
  destruct (o_CreatePipelineUserGitAuthConfigService _ _)
    as [[server userAuth] | e] eqn:H2; simpl; [| discriminate].
  destruct (o_GitServerKind _ _ _) as [gitKind | e] eqn:H3; simpl; [| discriminate].
  destruct (gitInfo_CreateProviderForUser _ _ _ _ _ _) as [provider | e] eqn:H4; simpl;
    [| discriminate].
  destruct (provider_GetRepository _ _ _ _ _) as [upstream | e] eqn:H5; simpl;
    [| discriminate].
  destruct (gits_PushRepoAndCreatePullRequest _ _ _ _ _ _ _ _ _ _) eqn:H6; simpl;
    [discriminate |].
  intros H A; inversion H; subst; clear H.
  repeat rewrite <- app_assoc in H3; repeat rewrite <- app_assoc in H4;
    repeat rewrite <- app_assoc in H5; repeat rewrite <- app_assoc in H6;
    simpl in H3, H4, H5, H6.
  exists gitInfo, server, userAuth, gitKind, provider, upstream; cbv zeta.
  repeat (split; [first [assumption | reflexivity] |]).
  split; [apply A |]; unfold note; simpl; rewrite <- !app_assoc; reflexivity.
Qed.

(** When [cloneDevEnv] succeeds, it has made seven calls, each on what
    the ones before answered: the dev environment [devEnv] is the one
    found for the client and namespace that [JXClientAndDevNamespace]
    answered; [cloneDir] is the directory that [TempDir] answered, and
    has been given write permissions; [userAuth] is the pipeline user
    that the auth service answered; [cloneURL] is the URL that
    [CreateAuthenticatedURL] answered for the source URL of [devEnv] and
    [userAuth]; and [cloneURL] has been cloned into [cloneDir] without an
    error.  The history has grown by exactly these seven calls; [o.Dir]
    is [cloneDir], and the other options are as before. *)
Theorem cloneDevEnv_sets_dir s s' :
  cloneDevEnv env s = (Ok tt, s') ->
  exists jxClient devNs jerr devEnv cloneDir server userAuth cloneURL,
    let e1 := mkEntry JXClientAndDevNamespace jerr in
    let e2 := mkEntry (GetDevEnvironment jxClient devNs) None in
    let e3 := mkEntry TempDir None in
    let e4 := mkEntry (MkdirAll cloneDir) None in
    let e5 := mkEntry CreatePipelineUserGitAuthConfigService None in
    let e6 := mkEntry (CreateAuthenticatedURL (SourceURL devEnv) userAuth) None in
    let e7 := mkEntry (Clone cloneURL cloneDir) None in
    o_JXClientAndDevNamespace env (log s) = ((jxClient, devNs), jerr) /\
    kube_GetDevEnvironment env (log s ++ [e1])%list jxClient devNs = Ok devEnv /\
    ioutil_TempDir env (log s ++ [e1; e2])%list = (cloneDir, None) /\
    os_MkdirAll env (log s ++ [e1; e2; e3])%list cloneDir = None /\
    o_CreatePipelineUserGitAuthConfigService env (log s ++ [e1; e2; e3; e4])%list
      = Ok (server, userAuth) /\
    git_CreateAuthenticatedURL env (log s ++ [e1; e2; e3; e4; e5])%list
      (SourceURL devEnv) userAuth = Ok cloneURL /\
    git_Clone env (log s ++ [e1; e2; e3; e4; e5; e6])%list cloneURL cloneDir = None /\
    appended (cloneDevEnv env) s = [e1; e2; e3; e4; e5; e6; e7] /\
    s' = {| opts := withDir (opts s) cloneDir;
            log := (log s ++ [e1; e2; e3; e4; e5; e6; e7])%list |} /\
    Dir (opts s') = cloneDir /\
    sameFlags (opts s) (opts s').
Proof.
  intros H.
  assert (A : forall new, log s' = (log s ++ new)%list ->
                          appended (cloneDevEnv env) s = new)
    by (intros new E; apply appended_app; rewrite H; exact E).
  revert H A.
  unfold cloneDevEnv, pipelineUserAuth, bind, wrap, callV, callR, callE, fail, setDir.
  simpl.
  destruct (o_JXClientAndDevNamespace env (log s)) as [[jxClient devNs] jerr] eqn:H1;
    simpl.
  destruct (kube_GetDevEnvironment _ _ _ _) as [devEnv | e] eqn:H2; simpl;
    [| discriminate].
  destruct (ioutil_TempDir _ _) as [cloneDir [e |]] eqn:H3; simpl; [discriminate |].
  destruct (os_MkdirAll _ _ _) eqn:H4; simpl; [discriminate |].
  destruct (o_CreatePipelineUserGitAuthConfigService _ _)
    as [[server userAuth] | e] eqn:H5; simpl; [| discriminate].
  destruct (git_CreateAuthenticatedURL _ _ _ _) as [cloneURL | e] eqn:H6; simpl;
    [| discriminate].
  destruct (git_Clone _ _ _ _) eqn:H7; simpl; [discriminate |].
  intros H A; inversion H; subst; clear H.
  repeat rewrite <- app_assoc in H3; repeat rewrite <- app_assoc in H4;
    repeat rewrite <- app_assoc in H5; repeat rewrite <- app_assoc in H6;
    repeat rewrite <- app_assoc in H7; simpl in H3, H4, H5, H6, H7.
  exists jxClient, devNs, jerr, devEnv, cloneDir, server, userAuth, cloneURL; cbv zeta.
  repeat (split; [first [assumption | reflexivity] |]).
  split; [apply A; unfold note; simpl; rewrite <- !app_assoc; reflexivity |].
  split; [unfold note; simpl; rewrite <- !app_assoc; reflexivity |].
  split; [reflexivity | repeat split].
Qed.

End MoreRuns.

Section MoreEdges.

Context {K : Constants} (env : Collaborators).

(** The failures of [excludeFiles]: if the checkout of the protected
    files fails, no commit is attempted; and a commit that fails with
    anything but "nothing to commit" is an error. *)
Theorem excludeFiles_failures s commit :
  let dir := Dir (opts s) in
  let message := "chore: exclude files from upgrade" in
  let restore := CheckoutCommitFiles dir commit ["OWNERS"] in
  (forall e, git_CheckoutCommitFiles env (log s) dir commit ["OWNERS"] = Some e ->
     excludeFiles env commit s =
       (Err (Wrap e "failed to checkout files"), note restore (Some e) s)) /\
  (forall e,
     git_CheckoutCommitFiles env (log s) dir commit ["OWNERS"] = None ->
     git_AddCommitFiles env (log s ++ [mkEntry restore None])%list dir message ["OWNERS"]
       = Some e ->
     Contains e "nothing to commit" = false ->
     fst (excludeFiles env commit s) =
       Err (Wrap e "failed to commit excluded files [OWNERS]")).
Proof.
  intros dir message restore; split.
  - intros e H.
    unfold excludeFiles, bind, getDir, wrap, callE; simpl.
    fold dir; rewrite H; reflexivity.
  - intros e H O C.
    rewrite (excludeFiles_run env s commit H); fold dir message.
    unfold restore in O; rewrite O, C; reflexivity.
Qed.

(** Nothing to replay: if the history query fails, its error is returned
    and no cherry-pick is attempted; if the range is empty,
    [cherryPickCommits] succeeds without a cherry-pick. *)
Theorem cherryPickCommits_nothing_to_replay s cloneDir fromSha toSha :
  let query := GetCommits cloneDir fromSha toSha in
  (forall e, git_GetCommits env (log s) cloneDir fromSha toSha = Err e ->
     cherryPickCommits env cloneDir fromSha toSha s =
       (Err (Wrap e ("failed to get commits from " ++ cloneDir)),
        note query (Some e) s)) /\
  (git_GetCommits env (log s) cloneDir fromSha toSha = Ok [] ->
     cherryPickCommits env cloneDir fromSha toSha s =
       (Ok tt,
        note (Infof ("cherry picking commits in the range " ++ fromSha ++ ".." ++ toSha))
          None (note query None s))).
Proof.
  intros query; split.
  - intros e H.
    unfold cherryPickCommits, bind, wrap, callR; rewrite H; reflexivity.
  - intros H.
    unfold cherryPickCommits, bind, wrap, callR; rewrite H; reflexivity.
Qed.

(** [updateVersionStreamRef] commits only what it has saved: a commit
    attempt is the last thing it does, and comes right after the
    successful save of the requirements, with the target as their ref, to
    the one file that is committed. *)
Theorem updateVersionStreamRef_commits_saved s upgradeRef x :
  In x (appended (updateVersionStreamRef env upgradeRef) s) ->
  isAddCommitFiles x = true ->
  exists before requirements file dir,
    appended (updateVersionStreamRef env upgradeRef) s =
      (before ++ [mkEntry (SaveConfig requirements file) None; x])%list /\
    Ref (VersionStream requirements) = upgradeRef /\
    call x = AddCommitFiles dir "feat: upgrade version stream" [file].
Proof.
  assert (A : forall new, log (snd (updateVersionStreamRef env upgradeRef s))
                          = (log s ++ new)%list ->
                          appended (updateVersionStreamRef env upgradeRef) s = new)
    by (intros new E; apply appended_app; exact E).
  revert A.
  unfold updateVersionStreamRef, loadRequirementsConfig.
  unfold bind, wrap, callR, callE, getDir, fail, ret, logInfof, callT; simpl.
  destruct (config_LoadRequirementsConfig _ _ _) as [[requirements file] | e]; simpl.
  2: { intros A; rewrite (A [_]) by reflexivity.
       intros [<- | []]; discriminate. }
  destruct (util_FileExists _ _ _) as [[|] | e]; simpl.
  2, 3: intros A; rewrite (A [_; _]) by (rewrite <- !app_assoc; reflexivity);
        intros [<- | [<- | []]]; discriminate.
  destruct (negb (Ref (VersionStream requirements) =? upgradeRef)); simpl.
  2: { intros A; rewrite (A [_; _]) by (rewrite <- !app_assoc; reflexivity).
       intros [<- | [<- | []]]; discriminate. }
  destruct (requirements_SaveConfig _ _ _ _); simpl.
  { intros A; rewrite (A [_; _; _; _]) by (rewrite <- !app_assoc; reflexivity).
    intros [<- | [<- | [<- | [<- | []]]]]; discriminate. }
  destruct (git_AddCommitFiles _ _ _ _ _); simpl;
    (intros A; rewrite (A [_; _; _; _; _]) by (rewrite <- !app_assoc; reflexivity);
     intros [<- | [<- | [<- | [<- | [<- | []]]]]]; try discriminate; intros _;
     eexists [_; _; _], _, _, _; split; [reflexivity | split; reflexivity]).
Qed.

End MoreEdges.

(** ** The further properties on concrete runs *)

Section MoreConcreteRuns.

#[local] Existing Instance sampleConstants.

(** In the clone of the default version stream, the default boot config
    is chosen. *)
Lemma determineBootConfigURL_not_empty_witness :
  determineBootConfigURL jxVersions (start inClone) =
    (Ok bootConfig, snd (determineBootConfigURL jxVersions (start inClone))) /\
  bootConfig <> "".
Proof.
  assert (E : determineBootConfigURL jxVersions (start inClone) =
              (Ok bootConfig, snd (determineBootConfigURL jxVersions (start inClone))))
    by (vm_compute; reflexivity).
  split; [exact E |].
  exact (determineBootConfigURL_not_empty jxVersions (start inClone) E).
Defined.

(** A version stream of one's own has no default boot config. *)
Lemma determineBootConfigURL_unknown_stream_witness :
  GitURL (opts (start customStream)) = "" /\
  determineBootConfigURL "https://github.com/acme/versions.git" (start customStream) =
    (Err "unable to determine default boot config URL", start customStream).
Proof.
  split; [reflexivity |].
  apply (determineBootConfigURL_unknown_stream
           (versionStreamURL := "https://github.com/acme/versions.git")
           (start customStream));
    [reflexivity | vm_compute; discriminate | vm_compute; discriminate].
Defined.

(** The requirements are loaded, but the file is not there. *)
Lemma determineVersionStreamConfig_missing_file_witness :
  let w := faultyWorld upToDate ("/tmp/jx", None) (Ok false) in
  let s := start inClone in
  util_FileExists w (log s ++ [mkEntry (LoadRequirementsConfig "env-dev") None])%list
    "env-dev/jx-requirements.yml" = Ok false /\
  fst (determineVersionStreamConfig w s) =
    Err (Wrap ("no requirements file env-dev/jx-requirements.yml" ++
               " ensure you are running this command inside a GitOps clone")
              "failed to load requirements config").
Proof.
  intros w s.
  split; [reflexivity |].
  apply (determineVersionStreamConfig_missing_file w s
           (requirements := pinnedAt streamS0) (file := "env-dev/jx-requirements.yml"));
    reflexivity.
Defined.

(** No space for a temporary directory: the boot config is cloned into
    the empty name all the same. *)
Lemma cloneBootConfig_ignores_TempDir_error_witness :
  let w := faultyWorld upToDate ("", Some "mkdir /tmp/1: no space left on device")
             (Ok true) in
  ioutil_TempDir w [] = ("", Some "mkdir /tmp/1: no space left on device") /\
  fst (cloneBootConfig w bootConfig (start inClone)) = Ok "".
Proof.
  intros w.
  split; [reflexivity |].
  apply (cloneBootConfig_ignores_TempDir_error w bootConfig (start inClone)
           (cloneDir := "") (e := "mkdir /tmp/1: no space left on device"));
    reflexivity.
Defined.

(** No space for a temporary directory: the dev environment is not
    cloned. *)
Lemma cloneDevEnv_TempDir_error_witness :
  let w := faultyWorld upToDate ("", Some "mkdir /tmp/1: no space left on device")
             (Ok true) in
  fst (cloneDevEnv w (start noDir)) =
    Err (Wrap "mkdir /tmp/1: no space left on device"
              "failed to create tmp dir to clone dev env repo") /\
  opts (snd (cloneDevEnv w (start noDir))) = noDir.
Proof.
  intros w.
  rewrite (cloneDevEnv_TempDir_error w (start noDir)
             (jxClient := "jx-client") (devNs := "jx") (jerr := None)
             (devEnv := {| PipelineUsername := "jenkins-x-bot";
                           PipelineUserEmail := "jenkins-x@googlegroups.com";
                           SourceURL := "https://github.com/acme/environment-dev.git" |})
             (cloneDir := "") (e := "mkdir /tmp/1: no space left on device")
             eq_refl eq_refl eq_refl).
  split; reflexivity.
Defined.

(** The identity of the pipeline user of the dev environment. *)
Lemma setupGitConfig_identity_witness :
  let w := fakeWorld upToDate in
  let s := start inClone in
  fst (setupGitConfig w "env-dev" s) = Ok tt /\
  In (mkEntry (SetUsername "env-dev" "jenkins-x-bot") None)
     (appended (setupGitConfig w "env-dev") s).
Proof.
  intros w s.
  split; [reflexivity |].
  destruct (setupGitConfig_identity w "env-dev" s
              (s' := snd (setupGitConfig w "env-dev" s)) eq_refl)
    as (jxClient & devNs & jerr & devEnv & HD & A & _).
  vm_compute; auto.
Defined.

(** Boot config 1.0.5 is looked up as the tag [v1.0.5]. *)
Lemma bootConfigRef_tag_witness :
  let w := fakeWorld streamOnly in
  let s := start inClone in
  fst (bootConfigRef w "/tmp/jx" jxVersions streamS0 bootConfig s) = Ok (configC0, "1.0.5") /\
  exists resolver,
    git_GetCommitPointedToByTag w
      (log s ++ [mkEntry (CreateVersionResolver jxVersions streamS0) None;
                 mkEntry (ResolveGitVersion resolver bootConfig) None])%list
      "/tmp/jx" "v1.0.5" = (configC0, None).
Proof.
  intros w s.
  split; [reflexivity |].
  destruct (bootConfigRef_tag w "/tmp/jx" jxVersions streamS0 bootConfig s
              (sha := configC0) (version := "1.0.5")
              (s' := snd (bootConfigRef w "/tmp/jx" jxVersions streamS0 bootConfig s))
              eq_refl)
    as (resolver & _ & _ & H & _).
  exists resolver; rewrite <- app_assoc in H; exact H.
Defined.

(** The tag is missing: the error names the empty commit id that came
    with it. *)
Lemma bootConfigRef_tag_failure_witness :
  let w := fakeWorld untagged in
  let s := start inClone in
  git_GetCommitPointedToByTag w [] "/tmp/jx" "v1.0.5"
    = ("", Some "unknown revision v1.0.5") /\
  fst (bootConfigRef w "/tmp/jx" jxVersions streamS0 bootConfig s) =
    Err (Wrap "unknown revision v1.0.5" "failed to get commit pointed to by ").
Proof.
  intros w s.
  split; [reflexivity |].
  apply (bootConfigRef_tag_failure w "/tmp/jx" jxVersions streamS0 bootConfig s
           (resolver := streamS0) (version := "1.0.5") (returned := "")
           (e := "unknown revision v1.0.5"));
    reflexivity.
Defined.

(** From [streamS0] to [streamS1]: the URL and the rest of the
    requirements are as they were. *)
Lemma updateVersionStreamRef_changes_ref_only_witness :
  let w := fakeWorld streamOnly in
  let s := start inClone in
  fst (updateVersionStreamRef w streamS1 s) = Ok tt /\
  exists saved,
    In (mkEntry (SaveConfig saved "env-dev/jx-requirements.yml") None)
       (log (snd (updateVersionStreamRef w streamS1 s))) /\
    saved = pinnedAt streamS1.
Proof.
  intros w s.
  split; [reflexivity |].
  destruct (updateVersionStreamRef_changes_ref_only w s
              (upgradeRef := streamS1) (requirements := pinnedAt streamS0)
              (file := "env-dev/jx-requirements.yml")
              (s1 := snd (loadRequirementsConfig w s))
              (s' := snd (updateVersionStreamRef w streamS1 s)))
    as (saved & H1 & H2 & H3 & L & _);
    [reflexivity | vm_compute; discriminate | reflexivity |].
  exists saved; split.
  - rewrite L; apply in_or_app; right; simpl; auto.
  - destruct saved as [[url ref] other]; simpl in *; subst; reflexivity.
Defined.

(** The requirements file of [env-dev] is pinned at the old ref; after
    the update, the new ref is read back from it. *)
Lemma updateVersionStreamRef_then_determine_witness :
  let w := fileWorld streamOnly in
  let s := start inClone in
  let s' := snd (updateVersionStreamRef w streamS1 s) in
  updateVersionStreamRef w streamS1 s = (Ok tt, s') /\
  fst (determineVersionStreamConfig w s) = Ok {| URL := jxVersions; Ref := streamS0 |} /\
  fst (determineVersionStreamConfig w s') = Ok {| URL := jxVersions; Ref := streamS1 |}.
Proof.
  intros w s s'.
  split; [reflexivity |]. split; [reflexivity |].
  apply (@updateVersionStreamRef_then_determine _ w s streamS1
           "env-dev/jx-requirements.yml" (pinnedAt streamS0) s').
  - intros h; reflexivity.
  - intros h; reflexivity.
  - reflexivity.
  - reflexivity.
  - vm_compute; discriminate.
  - vm_compute; discriminate.
  - reflexivity.
Defined.

(** The full upgrade removes its clone of the boot config. *)
Lemma updateBootConfig_removes_clone_witness :
  let w := fakeWorld fullUpgrade in
  let s := start inClone in
  fst (cloneBootConfig w bootConfig s) = Ok "/tmp/jx" /\
  exists before out,
    appended (updateBootConfig w jxVersions streamS0 bootConfig streamS1) s =
      (before ++ mkEntry (RemoveAll "/tmp/jx") out ::
         match out with
         | Some e => [mkEntry (Infof ("Error removing tmpDir: " ++ e)) None]
         | None => []
         end)%list /\
    existsb isRemoveAll before = false.
Proof.
  intros w s.
  split; [reflexivity |].
  apply (proj2 (updateBootConfig_removes_clone w jxVersions streamS0 bootConfig
                  streamS1 s) "/tmp/jx" (snd (cloneBootConfig w bootConfig s))).
  reflexivity.
Defined.

(** In the full upgrade, the query of the history range comes twelve
    calls into [updateBootConfig], after the fetch. *)
Lemma updateBootConfig_fetches_first_witness :
  let w := fakeWorld fullUpgrade in
  let s := start inClone in
  let new := appended (updateBootConfig w jxVersions streamS0 bootConfig streamS1) s in
  call (nth 12 new (mkEntry TempDir None)) = GetCommits "/tmp/jx" configC0 configC1 /\
  existsb fetchedMaster (firstn 12 new) = true.
Proof.
  intros w s new.
  split; [vm_compute; reflexivity |].
  apply (updateBootConfig_fetches_first w jxVersions streamS0 bootConfig streamS1 s
           (firstn 12 new) (nth 12 new (mkEntry TempDir None)) (skipn 13 new));
    vm_compute; reflexivity.
Defined.

(** A run in a given clone leaves its options alone. *)
Lemma Run_keeps_options_witness :
  let w := fakeWorld fullUpgrade in
  Dir inClone <> "" /\ opts (snd (Run w (start inClone))) = inClone.
Proof.
  intros w.
  assert (D : Dir (opts (start inClone)) <> "") by (vm_compute; discriminate).
  split; [exact D |].
  exact (proj2 (Run_keeps_options w (start inClone)) D).
Defined.

(** A run without a directory sets the identity in no directory. *)
Lemma Run_identity_without_dir_witness :
  let w := fakeWorld upToDate in
  Dir (opts (start noDir)) = "" /\
  forallb identityInNoDir (appended (Run w) (start noDir)) = true.
Proof.
  intros w.
  split; [reflexivity |].
  apply (Run_identity_without_dir w (start noDir)); reflexivity.
Defined.

(** A version stream of one's own, no [--git-url]: the run fails after
    it has created its branch. *)
Lemma Run_unknown_stream_leaves_branch_witness :
  let w := fakeWorld streamOnly in
  let s := start customStream in
  fst (Run w s) =
    Err (Wrap "unable to determine default boot config URL"
              "failed to determine boot configuration URL") /\
  existsb isDeleteLocalBranch (appended (Run w) s) = false.
Proof.
  intros w s.
  set (vs := {| URL := "https://github.com/acme/versions.git"; Ref := "v1" |}).
  set (s1 := snd (setupGitConfig w "env-dev" s)).
  set (s3 := snd (determineVersionStreamConfig w s1)).
  set (s4 := snd (upgradeAvailable w (URL vs) (Ref vs) "master" s3)).
  set (s5 := snd (checkoutNewBranch w s4)).
  destruct (Run_unknown_stream_leaves_branch w s (s1 := s1) (s2 := s1) (vs := vs)
              (s3 := s3) (sha := streamS1) (s4 := s4)
              (branch := "6ba7b810-9dad-41d1-80b4-00c04fd430c8") (s5 := s5))
    as (E & _ & D);
    try (vm_compute; reflexivity); try (vm_compute; discriminate).
  rewrite E; split; [reflexivity | exact D].
Defined.

(** The full upgrade ends with the deletion of its working branch. *)
Lemma Run_success_leaves_no_branch_witness :
  let w := fakeWorld fullUpgrade in
  let s := start inClone in
  fst (Run w s) = Ok tt /\
  exists before dir dir' branch,
    appended (Run w) s =
      (before ++ [mkEntry (Checkout dir "master") None;
                  mkEntry (DeleteLocalBranch dir branch) None])%list /\
    In (mkEntry (CreateBranch dir' branch) None) before.
Proof.
  intros w s.
  assert (OK : fst (Run w s) = Ok tt) by (vm_compute; reflexivity).
  split; [exact OK |].
  destruct (Run_success_leaves_no_branch w s OK) as [N | H]; [| exact H].
  vm_compute in N; discriminate N.
Defined.

(** The pull request of the sample repository: it is pushed to the
    repository that [GetRepository] answered. *)
Lemma raisePR_data_flow_witness :
  let w := fakeWorld upToDate in
  let s := start inClone in
  let repository := {| Organisation := "acme"; Name := "environment-dev" |} in
  fst (raisePR w s) = Ok tt /\
  git_Info w (log s) "env-dev" = Ok repository /\
  exists h,
    appended (raisePR w) s =
      (h ++ [mkEntry (PushRepoAndCreatePullRequest "env-dev" repository "master"
                        upgradeDetails {| Labels := [PullRequestLabel] |}
                        (Title upgradeDetails) "github-provider" [PullRequestLabel])
               None])%list.
Proof.
  intros w s repository.
  split; [reflexivity |]. split; [reflexivity |].
  destruct (raisePR_data_flow w s (s' := snd (raisePR w s)) eq_refl)
    as (gitInfo & server & userAuth & gitKind & provider & upstream &
        H1 & H2 & H3 & H4 & H5 & H6 & A & _).
  vm_compute in H1, H4, H5.
  inversion H1; subst gitInfo; inversion H4; subst provider;
    inversion H5; subst upstream.
  rewrite A; eexists [_; _; _; _; _]; reflexivity.
Defined.

(** Without a directory, the dev environment is cloned into [/tmp/jx]. *)
Lemma cloneDevEnv_sets_dir_witness :
  let w := fakeWorld upToDate in
  let s := start noDir in
  fst (cloneDevEnv w s) = Ok tt /\
  Dir (opts (snd (cloneDevEnv w s))) = "/tmp/jx" /\
  sameFlags (opts s) (opts (snd (cloneDevEnv w s))) /\
  exists h,
    appended (cloneDevEnv w) s =
      (h ++ [mkEntry (Clone "https://github.com/acme/environment-dev.git" "/tmp/jx")
               None])%list.
Proof.
  intros w s.
  split; [reflexivity |]. split; [reflexivity |].
  destruct (cloneDevEnv_sets_dir w s (s' := snd (cloneDevEnv w s)) eq_refl)
    as (jxClient & devNs & jerr & devEnv & cloneDir & server & userAuth & cloneURL &
        H1 & H2 & H3 & H4 & H5 & H6 & H7 & A & _ & _ & F).
  split; [exact F |].
  vm_compute in H2, H3, H5, H6.
  inversion H2; subst devEnv; inversion H3; subst cloneDir;
    inversion H5; subst userAuth; inversion H6; subst cloneURL.
  rewrite A; eexists [_; _; _; _; _; _]; reflexivity.
Defined.

(** The index cannot be written: an error of [excludeFiles]. *)
Lemma excludeFiles_failures_witness :
  let w := fakeWorld commitFails in
  let s := start inClone in
  Contains "fatal: unable to write new index file" "nothing to commit" = false /\
  fst (excludeFiles w configC0 s) =
    Err (Wrap "fatal: unable to write new index file"
              "failed to commit excluded files [OWNERS]").
Proof.
  intros w s.
  split; [reflexivity |].
  apply (proj2 (excludeFiles_failures w s configC0)
           "fatal: unable to write new index file");
    reflexivity.
Defined.

(** An empty range: nothing is cherry-picked. *)
Lemma cherryPickCommits_nothing_to_replay_witness :
  let w := fakeWorld streamOnly in
  let s := start inClone in
  git_GetCommits w (log s) "/tmp/jx" configC0 configC0 = Ok [] /\
  fst (cherryPickCommits w "/tmp/jx" configC0 configC0 s) = Ok tt /\
  picks (log (snd (cherryPickCommits w "/tmp/jx" configC0 configC0 s))) = [].
Proof.
  intros w s.
  split; [reflexivity |].
  rewrite (proj2 (cherryPickCommits_nothing_to_replay w s "/tmp/jx" configC0 configC0)
             eq_refl).
  split; reflexivity.
Defined.

(** The commit of the requirements file follows its save. *)
Lemma updateVersionStreamRef_commits_saved_witness :
  let w := fakeWorld streamOnly in
  let s := start inClone in
  let x := mkEntry (AddCommitFiles "env-dev" "feat: upgrade version stream"
                      ["env-dev/jx-requirements.yml"]) None in
  In x (appended (updateVersionStreamRef w streamS1) s) /\
  exists before requirements file,
    appended (updateVersionStreamRef w streamS1) s =
      (before ++ [mkEntry (SaveConfig requirements file) None; x])%list.
Proof.
  intros w s x.
  assert (I : In x (appended (updateVersionStreamRef w streamS1) s))
    by (vm_compute; auto 10).
  split; [exact I |].
  destruct (updateVersionStreamRef_commits_saved w s streamS1 x I eq_refl)
    as (before & requirements & file & dir & A & _).
  exists before, requirements, file; exact A.
Defined.

End MoreConcreteRuns.
